(** * Sprite-strip generator: a shallow embedding of
      [src/hooks/useSpriteStripGenerator.ts]

    JavaScript numbers that carry geometry (coordinates, rotation angles,
    progress percentages) are embedded as real numbers [R]: the development
    reasons about the arithmetic the source writes down, not about its
    rounding or overflow.  Two places are different.  The divisions of
    [calculateModelTransform] can have a zero divisor (the effective size
    of a model without geometry or with a single point), and the source
    then goes on with [Infinity] and [NaN]: the scale and the camera
    distance are therefore numbers of [JS.Number], which has both, and a
    model scaled by something that is not a number is kept apart from a
    posed one ([Clone]).  The viewer takes the integer part of a quotient,
    which rounding can move across an integer: its arithmetic goes through
    a rounding function.  Pixel sizes, the frame count and indices are
    integers and are embedded as [Z] and [nat].  Timers are left out: the
    50 ms pause after each frame has no effect on what is computed.

    The texture list the same hook keeps, the viewer of
    [src/components/SpriteStripViewer.tsx] that plays the finished strip,
    and the handlers by which the page of [src/unnamed/part_000] drives the
    hook are embedded next to it as functions from state to state. *)

From Stdlib Require Import Reals Lra Lia ZArith List Ascii String Bool.
From Stdlib Require Import Permutation Sorted.
Import ListNotations.

Open Scope R_scope.

(** ** The part of three.js the hook relies on *)

Module THREE.

Record Vector3 := mkVector3 { x : R; y : R; z : R }.

Definition origin : Vector3 := mkVector3 0 0 0.

Definition negate (v : Vector3) : Vector3 :=
  mkVector3 (- x v) (- y v) (- z v).

Definition add (a b : Vector3) : Vector3 :=
  mkVector3 (x a + x b) (y a + y b) (z a + z b).

Definition sub (a b : Vector3) : Vector3 :=
  mkVector3 (x a - x b) (y a - y b) (z a - z b).

Definition multiplyScalar (v : Vector3) (s : R) : Vector3 :=
  mkVector3 (x v * s) (y v * s) (z v * s).

Definition multiply (a b : Vector3) : Vector3 :=
  mkVector3 (x a * x b) (y a * y b) (z a * z b).

Definition vmin (a b : Vector3) : Vector3 :=
  mkVector3 (Rmin (x a) (x b)) (Rmin (y a) (y b)) (Rmin (z a) (z b)).

Definition vmax (a b : Vector3) : Vector3 :=
  mkVector3 (Rmax (x a) (x b)) (Rmax (y a) (y b)) (Rmax (z a) (z b)).

(** [Vector3.setScalar]. *)
Definition setScalar (s : R) : Vector3 := mkVector3 s s s.

(** Euler angles, in three.js' default order XYZ: the rotation matrix is
    [Rx * Ry * Rz], so a vector is turned about Z first, then Y, then X. *)
Record Euler := mkEuler { ex : R; ey : R; ez : R }.

Definition rotateZ (a : R) (v : Vector3) : Vector3 :=
  mkVector3 (cos a * x v - sin a * y v) (sin a * x v + cos a * y v) (z v).

Definition rotateY (a : R) (v : Vector3) : Vector3 :=
  mkVector3 (cos a * x v + sin a * z v) (y v) (- sin a * x v + cos a * z v).

Definition rotateX (a : R) (v : Vector3) : Vector3 :=
  mkVector3 (x v) (cos a * y v - sin a * z v) (sin a * y v + cos a * z v).

Definition applyEuler (e : Euler) (v : Vector3) : Vector3 :=
  rotateX (ex e) (rotateY (ey e) (rotateZ (ez e) v)).

(** Materials: what the loader attached, or the [MeshLambertMaterial]
    built around a texture by [applyTextureToModel]. *)
Inductive Material :=
| LoadedMaterial (name : string)
| MeshLambertMaterial (map : string) (transparent : bool).

(** A mesh of the model, with the points [Box3.setFromObject] looks at (the
    vertices, or the corners of the geometry's own bounding box).  They are
    kept in the frame of the model's root object: the transforms of the
    intermediate nodes never change during a run, so they are folded into
    the coordinates. *)
Record Mesh := mkMesh { meshName : string;
                        vertices : list Vector3;
                        material : Material }.

(** The root [Object3D] of a model: the three transform components the
    hook writes, and the meshes found by [traverse]. *)
Record Object3D := mkObject3D { position : Vector3;
                                rotation : Euler;
                                scale : Vector3;
                                meshes : list Mesh }.

Definition withPosition (o : Object3D) (p : Vector3) : Object3D :=
  mkObject3D p (rotation o) (scale o) (meshes o).

Definition withRotation (o : Object3D) (r : Euler) : Object3D :=
  mkObject3D (position o) r (scale o) (meshes o).

Definition withScale (o : Object3D) (s : Vector3) : Object3D :=
  mkObject3D (position o) (rotation o) s (meshes o).

Definition withMeshes (o : Object3D) (ms : list Mesh) : Object3D :=
  mkObject3D (position o) (rotation o) (scale o) ms.

(** [Matrix4.compose (position, quaternion, scale)] applied to a point:
    scale, then rotate, then translate.  The model is added directly to
    the scene, whose own transform is the identity, so this is also the
    point's world position. *)
Definition localToWorld (o : Object3D) (p : Vector3) : Vector3 :=
  add (position o) (applyEuler (rotation o) (multiply (scale o) p)).

Definition worldPoints (o : Object3D) : list Vector3 :=
  map (localToWorld o) (flat_map vertices (meshes o)).

(** [Box3]: an axis-aligned box; [makeEmpty] is the box that holds no
    point. *)
Inductive Box3 :=
| EmptyBox
| Box (lo hi : Vector3).

Definition expandByPoint (b : Box3) (p : Vector3) : Box3 :=
  match b with
  | EmptyBox => Box p p
  | Box lo hi => Box (vmin lo p) (vmax hi p)
  end.

Definition setFromPoints (ps : list Vector3) : Box3 :=
  fold_left expandByPoint ps EmptyBox.

(** [new THREE.Box3().setFromObject(o)]: the world-space box. *)
Definition setFromObject (o : Object3D) : Box3 :=
  setFromPoints (worldPoints o).

(** [getCenter] and [getSize] answer the zero vector on an empty box. *)
Definition getCenter (b : Box3) : Vector3 :=
  match b with
  | EmptyBox => origin
  | Box lo hi => multiplyScalar (add lo hi) 0.5
  end.

Definition getSize (b : Box3) : Vector3 :=
  match b with
  | EmptyBox => origin
  | Box lo hi => sub hi lo
  end.

(** [Box3.translate]. *)
Definition translate (b : Box3) (offset : Vector3) : Box3 :=
  match b with
  | EmptyBox => EmptyBox
  | Box lo hi => Box (add lo offset) (add hi offset)
  end.

(** [object.traverse] restricted to what the hook does with it: a
    function applied to every mesh. *)
Definition traverseMeshes (f : Mesh -> Mesh) (o : Object3D) : Object3D :=
  withMeshes o (map f (meshes o)).

End THREE.

(** ** JavaScript numbers where a division can have a zero divisor

    A number is a real number, one of the two infinities, or [NaN].  The
    operations are those [calculateModelTransform] applies to such numbers,
    and those by which three.js computes a world-space bounding box.  Zero
    is taken as positive zero: the only zero divisors of the source are a
    size and a product of positive constants with the aspect ratio. *)

Module JS.

Inductive Number :=
| Finite (r : R)
| Infinity
| NegInfinity
| NaN.

(** [a / b] *)
Definition div (a b : Number) : Number :=
  match a with
  | NaN => NaN
  | Finite x =>
      match b with
      | NaN => NaN
      | Finite y =>
          if Req_dec_T y 0
          then (if Rlt_dec 0 x then Infinity
                else if Rlt_dec x 0 then NegInfinity
                else NaN)
          else Finite (x / y)
      | Infinity | NegInfinity => Finite 0
      end
  | Infinity =>
      match b with
      | Finite y => if Rlt_dec y 0 then NegInfinity else Infinity
      | _ => NaN
      end
  | NegInfinity =>
      match b with
      | Finite y => if Rlt_dec y 0 then Infinity else NegInfinity
      | _ => NaN
      end
  end.

(** The sign of an infinite product. *)
Definition signed (positive : bool) : Number :=
  if positive then Infinity else NegInfinity.

(** [a * b] *)
Definition mul (a b : Number) : Number :=
  match a with
  | NaN => NaN
  | Finite x =>
      match b with
      | NaN => NaN
      | Finite y => Finite (x * y)
      | Infinity =>
          if Req_dec_T x 0 then NaN
          else signed (if Rlt_dec 0 x then true else false)
      | NegInfinity =>
          if Req_dec_T x 0 then NaN
          else signed (if Rlt_dec 0 x then false else true)
      end
  | Infinity =>
      match b with
      | NaN => NaN
      | Finite y =>
          if Req_dec_T y 0 then NaN
          else signed (if Rlt_dec 0 y then true else false)
      | Infinity => Infinity
      | NegInfinity => NegInfinity
      end
  | NegInfinity =>
      match b with
      | NaN => NaN
      | Finite y =>
          if Req_dec_T y 0 then NaN
          else signed (if Rlt_dec 0 y then false else true)
      | Infinity => NegInfinity
      | NegInfinity => Infinity
      end
  end.

(** [Math.max (a, b)]: [NaN] as soon as one argument is. *)
Definition max (a b : Number) : Number :=
  match a with
  | NaN => NaN
  | Infinity => match b with NaN => NaN | _ => Infinity end
  | NegInfinity => b
  | Finite x =>
      match b with
      | NaN => NaN
      | Infinity => Infinity
      | NegInfinity => Finite x
      | Finite y => Finite (Rmax x y)
      end
  end.

(** [a + b] *)
Definition add (a b : Number) : Number :=
  match a with
  | NaN => NaN
  | Finite x =>
      match b with
      | Finite y => Finite (x + y)
      | other => other
      end
  | Infinity =>
      match b with
      | NaN | NegInfinity => NaN
      | _ => Infinity
      end
  | NegInfinity =>
      match b with
      | NaN | Infinity => NaN
      | _ => NegInfinity
      end
  end.

(** [Math.min (a, b)] *)
Definition min (a b : Number) : Number :=
  match a with
  | NaN => NaN
  | NegInfinity => match b with NaN => NaN | _ => NegInfinity end
  | Infinity => b
  | Finite x =>
      match b with
      | NaN => NaN
      | NegInfinity => NegInfinity
      | Infinity => Finite x
      | Finite y => Finite (Rmin x y)
      end
  end.

Definition isFinite (a : Number) : Prop := exists r, a = Finite r.

End JS.

Coercion JS.Finite : R >-> JS.Number.

(** ** [calculateModelTransform] *)

Record ModelTransform := mkModelTransform { tscale : JS.Number;
                                            tposition : THREE.Vector3;
                                            cameraDistance : JS.Number }.

(** [Math.max (a, b, c)]. *)
Definition Math_max3 (a b c : R) : R := Rmax (Rmax a b) c.

Definition diagonalOf (size : THREE.Vector3) : R :=
  sqrt (THREE.x size * THREE.x size + THREE.y size * THREE.y size
        + THREE.z size * THREE.z size).

Definition maxDimOf (size : THREE.Vector3) : R :=
  Math_max3 (THREE.x size) (THREE.y size) (THREE.z size).

Definition effectiveSizeOf (size : THREE.Vector3) : R :=
  Rmax (diagonalOf size) (maxDimOf size).

Definition framePadding : R := 0.05.
Definition targetSize : R := 1.8 - (framePadding * 2).
Definition fov : R := 50.
Definition fovRad : R := (fov * PI) / 180.

Definition calculateModelTransform (model : THREE.Object3D) (aspectRatio : R)
  : ModelTransform :=
  let box := THREE.setFromObject model in
  let center := THREE.getCenter box in
  let size := THREE.getSize box in
  let diagonal := diagonalOf size in
  let maxDim := maxDimOf size in
  let effectiveSize := Rmax diagonal maxDim in
  let scale := JS.div targetSize effectiveSize in
  let modelHeight := JS.mul effectiveSize scale in
  let distanceForHeight := JS.div modelHeight (2 * tan (fovRad / 2)) in
  let distanceForWidth :=
    JS.div modelHeight (2 * tan (fovRad / 2) * aspectRatio) in
  let cameraDistance :=
    JS.mul (JS.max distanceForHeight distanceForWidth) 1.1 in
  mkModelTransform scale (THREE.negate center) (JS.max cameraDistance 3.0).

(** ** The clone [generateFrames] works on

    [generateFrames] clones the model and writes the clone's position,
    rotation and scale.  As long as the scale it was given is a real number
    the clone is an [Object3D] as above.  Once [scale.setScalar] has been
    handed [Infinity] (or anything else that is not a real number) every
    entry of the rotation and scale part of its world matrix is infinite or
    [NaN], and so is every coordinate of every point [Box3.setFromObject]
    finds: the clone has no pose.  What is left of it are the rotation it
    was given last and its meshes.  No statement of the loop gives a clone
    another scale, so a clone without a pose stays one. *)
Inductive Clone :=
| Posed (o : THREE.Object3D)
| Unposed (rotation : THREE.Euler) (meshes : list THREE.Mesh).

(** The arithmetic behind this.  [Matrix4.compose] multiplies the entries
    [r0], [r1], [r2] of a row of the rotation matrix by the scale, and
    [Vector3.applyMatrix4] makes of a point [v] the coordinate
    [e0 * v.x + e4 * v.y + e8 * v.z + e12], where [e12] is the position.
    [Box3] keeps the least and the greatest coordinate, and [getCenter]
    answers half their sum. *)
Definition worldCoordinate (scale : JS.Number) (r0 r1 r2 : R)
    (position : JS.Number) (v : THREE.Vector3) : JS.Number :=
  JS.add
    (JS.add
       (JS.add (JS.mul (JS.mul r0 scale) (THREE.x v))
          (JS.mul (JS.mul r1 scale) (THREE.y v)))
       (JS.mul (JS.mul r2 scale) (THREE.z v)))
    position.

Definition centreCoordinate (lo hi : JS.Number) : JS.Number :=
  JS.mul (JS.add lo hi) 0.5.

Coercion Posed : THREE.Object3D >-> Clone.

Definition cloneRotation (c : Clone) : THREE.Euler :=
  match c with
  | Posed o => THREE.rotation o
  | Unposed rotation _ => rotation
  end.

Definition cloneMeshes (c : Clone) : list THREE.Mesh :=
  match c with
  | Posed o => THREE.meshes o
  | Unposed _ meshes => meshes
  end.

(** A function applied to every mesh of a clone. *)
Definition traverseCloneMeshes (f : THREE.Mesh -> THREE.Mesh) (c : Clone)
  : Clone :=
  match c with
  | Posed o => Posed (THREE.traverseMeshes f o)
  | Unposed rotation meshes => Unposed rotation (map f meshes)
  end.

(** ** Values shared by the hook's functions *)

(** What a [throw] or a rejected promise carries: an [Error] with its
    message, or any other value. *)
Inductive Thrown :=
| ErrorObject (message : string)
| OtherValue (repr : string).

(** The three ways an awaited promise can end. *)
Inductive Promise (A : Type) :=
| Resolved (a : A)
| Rejected (e : Thrown)
| NeverSettles.

Arguments Resolved {A} a.
Arguments Rejected {A} e.
Arguments NeverSettles {A}.

Record File := mkFile { fileName : string; fileSize : Z; fileType : string }.

Inductive Ratio := Ratio_16_9 | Ratio_4_3 | Ratio_1_1 | Ratio_auto.

Record Dimensions := mkDimensions { width : Z; height : Z }.

Inductive Format := GLTF | FBX | OBJ.

Inductive ConsoleLevel := LevelLog | LevelWarn | LevelError.

Inductive ConsoleArg :=
| ArgText (s : string)
| ArgThrown (e : Thrown).

(** The four lights of the rig, the clear colour and the model. *)
Record Scene := mkScene { clearColor : string;
                          ambientLight : R;
                          directionalLight : R;
                          fillLight : R;
                          rimLight : R;
                          sceneModel : Clone }.

(** [camera.position.set (0, 0, transform.cameraDistance)]: the third
    coordinate is whatever [calculateModelTransform] returned. *)
Record CameraPosition := mkCameraPosition { cameraX : R;
                                            cameraY : R;
                                            cameraZ : JS.Number }.

Record Camera := mkCamera { cameraFov : R;
                            cameraAspect : R;
                            cameraNear : R;
                            cameraFar : R;
                            cameraPosition : CameraPosition }.

(** [String.prototype.replace (/\.[^/.]+$/, "")]: the match is a dot
    followed, up to the end of the string, by one or more characters that
    are neither a slash nor a dot. *)
Fixpoint noSlashNoDot (s : string) : bool :=
  match s with
  | EmptyString => true
  | String c rest =>
      negb (Ascii.eqb c "/"%char) && negb (Ascii.eqb c "."%char)
      && noSlashNoDot rest
  end.

Fixpoint stripExtension (s : string) : string :=
  match s with
  | EmptyString => EmptyString
  | String c rest =>
      if Ascii.eqb c "."%char
         && negb (String.eqb rest EmptyString) && noSlashNoDot rest
      then EmptyString
      else String c (stripExtension rest)
  end.

(** What a glTF loader hands to its success callback. *)
Record GLTFResult := mkGLTFResult { gltfScene : THREE.Object3D }.

(** The run's surroundings: the answers of the browser and of the loaders,
    which the hook cannot compute itself. *)
Record World := mkWorld {
  createObjectURL : File -> string;
  gltfLoader : string -> GLTFResult + Thrown;
  fbxLoader : string -> THREE.Object3D + Thrown;
  objLoader : string -> THREE.Object3D + Thrown;
  textureLoader : string -> string + Thrown;
  (** the order in which the frame images fire [onload] *)
  imageLoadOrder : list nat;
  (** [Date.now ()] in decimal, the two [Math.random ()] suffixes, and
      [new Date ().toISOString ()] *)
  dateNow : string;
  randomSuffix1 : string;
  randomSuffix2 : string;
  isoNow : string }.

(** A renderer to try the pipeline with: one bit per pixel, every pixel
    inked. *)
Definition inkRaster (_ : Scene) (_ : Camera) (_ : Dimensions) (_ _ : Z)
  : bool := true.

(** ** The viewer: [src/components/SpriteStripViewer.tsx]

    The component keeps four pieces of state and changes them in its event
    handlers and effects.  A handler is a function of the state of the
    render it belongs to; the values it passes to [onFrameChange] and
    [onPlayPause] are listed as notices.  [handlePlayPause] is attached to
    nothing (the markup of the button is commented out) and is left out.
    Frame numbers are integers.  Pointer positions are numbers of the
    source's double precision: the handlers subtract, divide and multiply
    them, each result is rounded, and the integer part of the last one is
    the frame.  The embedding takes the rounding as a function [round] on
    the real numbers and applies it where the source computes a result; the
    properties say what they ask of it. *)

Module Viewer.

Record Props := mkProps { frameCount : Z; hover : bool; autoPlay : bool }.

(** [frameCount = 18, hover = true, autoPlay = false] *)
Definition defaultProps : Props := mkProps 18 true false.

Record State := mkState { currentFrame : Z;
                          isPlaying : bool;
                          imageError : bool;
                          isHovering : bool }.

Definition initialState (props : Props) : State :=
  mkState 0 (autoPlay props) false false.

Definition setCurrentFrame (st : State) (frame : Z) : State :=
  mkState frame (isPlaying st) (imageError st) (isHovering st).

Definition setIsPlaying (st : State) (b : bool) : State :=
  mkState (currentFrame st) b (imageError st) (isHovering st).

Definition setImageError (st : State) (b : bool) : State :=
  mkState (currentFrame st) (isPlaying st) b (isHovering st).

Definition setIsHovering (st : State) (b : bool) : State :=
  mkState (currentFrame st) (isPlaying st) (imageError st) b.

Inductive Notice :=
| FrameChange (frame : Z)
| PlayPause (playing : bool).

(** [containerRef.current.getBoundingClientRect ()] *)
Record Rect := mkRect { rectLeft : R; rectWidth : R }.

(** What a mouse or touch event carries: [clientX], the rectangle of the
    container at that moment, and whether the target lies within a
    button. *)
Record Pointer := mkPointer { clientX : R; rect : Rect; onButton : bool }.

(** The interval callback: [(prev + 1) % frameCount]. *)
Definition nextFrame (frameCount prev : Z) : Z := Z.rem (prev + 1) frameCount.

Definition tick (props : Props) (st : State) : State * list Notice :=
  if isPlaying st
  then let nextFrame := nextFrame (frameCount props) (currentFrame st) in
       (setCurrentFrame st nextFrame, [FrameChange nextFrame])
  else (st, []).

Section Rounded.

(** The rounding of the result of an arithmetic operation. *)
Variable round : R -> R.

(** The frame under the pointer. *)
Definition frameAt (frameCount : Z) (rect : Rect) (clientX : R) : Z :=
  let x := round (clientX - rectLeft rect) in
  let clampedX := Rmax 0 (Rmin x (rectWidth rect)) in
  let percentage := round (clampedX / rectWidth rect) in
  let frame := Zfloor (round (percentage * IZR frameCount)) in
  let clampedFrame := Z.max 0 (Z.min frame (frameCount - 1)) in
  clampedFrame.

(** The body of [handleMouseMove] and of [handleTouchMove].  [seen] is the
    state of the render the handler was made in, which is what its test of
    [isHovering] reads; [st] is the state its updates are applied to. *)
Definition moveTo (props : Props) (seen st : State) (e : Pointer)
  : State * list Notice :=
  if negb (hover props) || negb (isHovering seen) then (st, [])
  else if onButton e then (st, [])
  else let clampedFrame := frameAt (frameCount props) (rect e) (clientX e) in
       (setCurrentFrame st clampedFrame, [FrameChange clampedFrame]).

Definition handleMouseMove (props : Props) (st : State) (e : Pointer)
  : State * list Notice :=
  moveTo props st st e.

Definition handleTouchMove (props : Props) (st : State) (e : Pointer)
  : State * list Notice :=
  moveTo props st st e.

Definition handleMouseEnter (props : Props) (st : State)
  : State * list Notice :=
  if hover props
  then let st1 := setIsHovering st true in
       if isPlaying st
       then (setIsPlaying st1 false, [PlayPause false])
       else (st1, [])
  else (st, []).

(** [handleTouchStart] calls the [handleTouchMove] of its own render, which
    still sees the [isHovering] of before the touch. *)
Definition handleTouchStart (props : Props) (st : State) (e : Pointer)
  : State * list Notice :=
  if hover props
  then let st1 := setIsHovering st true in
       let paused :=
         if isPlaying st
         then (setIsPlaying st1 false, [PlayPause false])
         else (st1, []) in
       let moved := moveTo props st (fst paused) e in
       (fst moved, snd paused ++ snd moved)
  else (st, []).

Definition handleMouseLeave (props : Props) (st : State)
  : State * list Notice :=
  if hover props
  then (setCurrentFrame (setIsHovering st false) 0, [FrameChange 0])
  else (st, []).

Definition handleTouchEnd (props : Props) (st : State)
  : State * list Notice :=
  if hover props
  then (setCurrentFrame (setIsHovering st false) 0, [FrameChange 0])
  else (st, []).

(** The effect that runs when [spriteStripUrl] changes. *)
Definition urlChanged (st : State) (spriteStripUrl : string) : State :=
  if String.eqb spriteStripUrl EmptyString
  then st
  else setCurrentFrame (setImageError st false) 0.

Definition onError (st : State) : State := setImageError st true.

Inductive Event :=
| Tick
| MouseEnter
| MouseLeave
| MouseMove (e : Pointer)
| TouchStart (e : Pointer)
| TouchMove (e : Pointer)
| TouchEnd
| UrlChanged (spriteStripUrl : string)
| ImageFailed.

Definition step (props : Props) (st : State) (ev : Event)
  : State * list Notice :=
  match ev with
  | Tick => tick props st
  | MouseEnter => handleMouseEnter props st
  | MouseLeave => handleMouseLeave props st
  | MouseMove e => handleMouseMove props st e
  | TouchStart e => handleTouchStart props st e
  | TouchMove e => handleTouchMove props st e
  | TouchEnd => handleTouchEnd props st
  | UrlChanged url => (urlChanged st url, [])
  | ImageFailed => (onError st, [])
  end.

Fixpoint run (props : Props) (st : State) (events : list Event)
  : State * list Notice :=
  match events with
  | [] => (st, [])
  | ev :: rest =>
      let r := step props st ev in
      let r' := run props (fst r) rest in
      (fst r', snd r ++ snd r')
  end.

End Rounded.

(** What the properties ask of the rounding.  Rounding to the nearest
    double never reverses an order and leaves 0 and 1 as they are. *)
Record Monotone (round : R -> R) : Prop := mkMonotone {
  round_monotone : forall a b : R, a <= b -> round a <= round b;
  round_zero : round 0 = 0;
  round_one : round 1 = 1 }.

(** A number that is a double: rounding leaves it as it is. *)
Definition isDouble (round : R -> R) (a : R) : Prop := round a = a.

(** The unit roundoff of double precision, [2 ^ -53], and the bound it
    puts on the error of a rounded result.  Rounding to the nearest double
    keeps within it unless the result overflows or falls below the smallest
    normal number. *)
Definition unitRoundoff : R := / 2 ^ 53.

Definition Accurate (round : R -> R) : Prop :=
  forall a : R, Rabs (round a - a) <= unitRoundoff * Rabs a.

(** The rounding that changes nothing: arithmetic in the real numbers. *)
Definition exact (a : R) : R := a.

(** The inline style: [backgroundPosition] is
    [(currentFrame / (frameCount - 1)) * 100] per cent and
    [backgroundSize] is [frameCount * 100] per cent, both horizontally. *)
Definition backgroundPositionX (frameCount currentFrame : Z) : R :=
  (IZR currentFrame / IZR (frameCount - 1)) * 100.

Definition backgroundSizeX (frameCount : Z) : R := IZR frameCount * 100.

(** What CSS makes of the two: the image is [size] per cent of the box
    wide, and its left edge lies [position] per cent of the difference
    between the width of the box and that of the image to the right of the
    box's left edge. *)
Definition imageWidth (boxWidth size : R) : R := boxWidth * size / 100.

Definition imageLeft (boxWidth size position : R) : R :=
  (boxWidth - imageWidth boxWidth size) * position / 100.

(** The events that carry a pointer have a container of positive width:
    an element without width has no point for a pointer to be over. *)
Definition wellFormed (ev : Event) : Prop :=
  match ev with
  | MouseMove e | TouchStart e | TouchMove e => 0 < rectWidth (rect e)
  | _ => True
  end.

(** The events by which the pointer enters the container. *)
Definition entering (ev : Event) : bool :=
  match ev with
  | MouseEnter | TouchStart _ => true
  | _ => false
  end.

Fixpoint frameChanges (l : list Notice) : list Z :=
  match l with
  | [] => []
  | FrameChange f :: rest => f :: frameChanges rest
  | _ :: rest => frameChanges rest
  end.

End Viewer.

(** ** The texture list of the hook

    [addTextures], [removeTexture], [clearAllTextures], [selectTexture],
    [applyTextureFromFile], [applySelectedTexture] and [getTexturePreview]
    of [src/hooks/useSpriteStripGenerator.ts].  Each is a function of the
    state of the render it was made in and of the options; it returns the
    state its setters leave when it is the only call made from that render,
    and the object URLs it revokes.  Several calls made from one render all
    read the state of that render: [handler] puts their setters together,
    and [run] goes from one event handler to the next.  File names are
    strings of 8-bit characters, of which [toLowerCase] changes the letters
    A to Z; console output is left out here. *)

Module Textures.

(** The two options these functions read. *)
Record Options := mkOptions { maxTextures : option Z;
                              acceptedFormats : option (list string) }.

(** A [Map] from names to object URLs, in insertion order. *)
Definition PreviewMap : Type := list (string * string).

Fixpoint mapGet (m : PreviewMap) (key : string) : option string :=
  match m with
  | [] => None
  | (k, v) :: rest => if String.eqb k key then Some v else mapGet rest key
  end.

Definition mapHas (m : PreviewMap) (key : string) : bool :=
  match mapGet m key with
  | Some _ => true
  | None => false
  end.

Fixpoint mapSet (m : PreviewMap) (key value : string) : PreviewMap :=
  match m with
  | [] => [(key, value)]
  | (k, v) :: rest =>
      if String.eqb k key then (k, value) :: rest
      else (k, v) :: mapSet rest key value
  end.

Definition mapDelete (m : PreviewMap) (key : string) : PreviewMap :=
  filter (fun kv => negb (String.eqb (fst kv) key)) m.

Record State := mkState { textures : list File;
                          selectedTexture : option File;
                          texturePreviews : PreviewMap;
                          appliedTexture : option File;
                          textureApplied : bool }.

Definition initialState : State := mkState [] None [] None false.

(** [array.slice (0, end)] for an integer [end]: a negative [end] counts
    from the end of the array. *)
Definition slice0 {A : Type} (l : list A) (end_ : Z) : list A :=
  let len := Z.of_nat (List.length l) in
  let k := if (end_ <? 0)%Z then Z.max (len + end_) 0 else Z.min end_ len in
  firstn (Z.to_nat k) l.

Fixpoint containsDot (s : string) : bool :=
  match s with
  | EmptyString => false
  | String c rest => Ascii.eqb c "."%char || containsDot rest
  end.

(** [s.split ('.').pop ()]: what follows the last dot, or all of [s] when
    it has no dot. *)
Fixpoint lastSegment (s : string) : string :=
  match s with
  | EmptyString => EmptyString
  | String c rest =>
      if containsDot rest then lastSegment rest
      else if Ascii.eqb c "."%char then rest
      else String c rest
  end.

Definition lowerChar (c : ascii) : ascii :=
  let n := nat_of_ascii c in
  if (65 <=? n)%nat && (n <=? 90)%nat then ascii_of_nat (n + 32) else c.

Fixpoint toLowerCase (s : string) : string :=
  match s with
  | EmptyString => EmptyString
  | String c rest => String (lowerChar c) (toLowerCase rest)
  end.

(** ['.' + file.name.split ('.').pop ()?.toLowerCase ()] *)
Definition fileExtension (name : string) : string :=
  String "."%char (toLowerCase (lastSegment name)).

Definition includes (formats : list string) (s : string) : bool :=
  existsb (String.eqb s) formats.

Definition defaultFormats : list string :=
  [".png"%string; ".jpg"%string; ".jpeg"%string; ".webp"%string].

(** [options.maxTextures || 10] and [options.acceptedFormats || [...]]:
    zero is falsy, an array never is. *)
Definition maxTexturesOf (options : Options) : Z :=
  match maxTextures options with
  | Some v => if (v =? 0)%Z then 10%Z else v
  | None => 10%Z
  end.

Definition acceptedFormatsOf (options : Options) : list string :=
  match acceptedFormats options with
  | Some formats => formats
  | None => defaultFormats
  end.

Definition accepted (options : Options) (file : File) : bool :=
  includes (acceptedFormatsOf options) (fileExtension (fileName file)).

Definition addPreview (w : World) (newPreviews : PreviewMap) (texture : File)
  : PreviewMap :=
  if mapHas newPreviews (fileName texture) then newPreviews
  else mapSet newPreviews (fileName texture) (createObjectURL w texture).

Definition addTextures (options : Options) (w : World) (st : State)
    (newTextures : list File) : State :=
  let maxTextures := maxTexturesOf options in
  let remainingSlots :=
    (maxTextures - Z.of_nat (List.length (textures st)))%Z in
  let validTextures :=
    filter (accepted options) (slice0 newTextures remainingSlots) in
  match validTextures with
  | [] => st
  | firstTexture :: _ =>
      let updatedTextures := textures st ++ validTextures in
      let newPreviews :=
        fold_left (addPreview w) validTextures (texturePreviews st) in
      match selectedTexture st with
      | None =>
          mkState updatedTextures (Some firstTexture) newPreviews
            (Some firstTexture) false
      | Some _ =>
          mkState updatedTextures (selectedTexture st) newPreviews
            (appliedTexture st) (textureApplied st)
      end
  end.

Definition removeTexture (st : State) (textureName : string)
  : State * list string :=
  let updatedTextures :=
    filter (fun texture => negb (String.eqb (fileName texture) textureName))
      (textures st) in
  let cleaned :=
    match mapGet (texturePreviews st) textureName with
    | Some preview =>
        if String.eqb preview EmptyString then (texturePreviews st, [])
        else (mapDelete (texturePreviews st) textureName, [preview])
    | None => (texturePreviews st, [])
    end in
  let selectedHit :=
    match selectedTexture st with
    | Some selected => String.eqb (fileName selected) textureName
    | None => false
    end in
  if selectedHit
  then (mkState updatedTextures None (fst cleaned) None false, snd cleaned)
  else (mkState updatedTextures (selectedTexture st) (fst cleaned)
          (appliedTexture st) (textureApplied st),
        snd cleaned).

Definition clearAllTextures (st : State) : State * list string :=
  (mkState [] None [] None false, map snd (texturePreviews st)).

Definition selectTexture (st : State) (texture : option File) : State :=
  match texture with
  | Some t =>
      mkState (textures st) (Some t) (texturePreviews st) (Some t) false
  | None => mkState (textures st) None (texturePreviews st) None false
  end.

Definition applyTextureFromFile (st : State) (textureFile : option File)
  : State * Promise unit :=
  match textureFile with
  | None => (st, Rejected (ErrorObject "No texture file provided"))
  | Some file =>
      (mkState (textures st) (selectedTexture st) (texturePreviews st)
         (Some file) true,
       Resolved tt)
  end.

Definition applySelectedTexture (st : State) : State * Promise unit :=
  match selectedTexture st with
  | None => (st, Rejected (ErrorObject "No texture selected"))
  | Some selected =>
      match applyTextureFromFile st (Some selected) with
      | (st', Rejected error) =>
          (mkState (textures st') (selectedTexture st') (texturePreviews st')
             (appliedTexture st') false,
           Rejected error)
      | other => other
      end
  end.

(** [texturePreviews.get (textureName) || null] *)
Definition getTexturePreview (st : State) (textureName : string)
  : option string :=
  match mapGet (texturePreviews st) textureName with
  | Some url => if String.eqb url EmptyString then None else Some url
  | None => None
  end.

(** The calls that change the list.  [applyTextureFromFile] is reached
    through [applySelectedTexture] only: nothing calls it with another
    file. *)
Inductive Action :=
| AddTextures (newTextures : list File)
| RemoveTexture (textureName : string)
| ClearAllTextures
| SelectTexture (texture : option File)
| ApplySelectedTexture.

Definition step (options : Options) (w : World) (st : State) (a : Action)
  : State * list string :=
  match a with
  | AddTextures newTextures => (addTextures options w st newTextures, [])
  | RemoveTexture textureName => removeTexture st textureName
  | ClearAllTextures => clearAllTextures st
  | SelectTexture texture => (selectTexture st texture, [])
  | ApplySelectedTexture => (fst (applySelectedTexture st), [])
  end.

(** The names of the listed textures. *)
Definition names (st : State) : list string := map fileName (textures st).

(** What holds of the list whatever is done with it: the texture staged
    for generation is the selected one, a texture counts as applied only
    while one is selected, the list is within the limit, and every listed
    texture has an accepted extension and a preview. *)
Definition consistent (options : Options) (st : State) : Prop :=
  appliedTexture st = selectedTexture st
  /\ (textureApplied st = true -> selectedTexture st <> None)
  /\ (Z.of_nat (List.length (textures st)) <= maxTexturesOf options)%Z
  /\ Forall (fun t => accepted options t = true) (textures st)
  /\ Forall (fun t => mapHas (texturePreviews st) (fileName t) = true)
       (textures st).

(** The slots left in the list. *)
Definition remainingSlots (options : Options) (st : State) : Z :=
  (maxTexturesOf options - Z.of_nat (List.length (textures st)))%Z.

(** The effect that depends on [texturePreviews] returns a cleanup that
    revokes every URL of the map it was set up with; React runs it when the
    map is replaced by another.  [replacesPreviews] tells whether a call
    reaches [setTexturePreviews], which is always given a new [Map]. *)
Definition replacesPreviews (options : Options) (st : State) (a : Action)
  : bool :=
  match a with
  | AddTextures newTextures =>
      match filter (accepted options)
              (slice0 newTextures (remainingSlots options st)) with
      | [] => false
      | _ :: _ => true
      end
  | RemoveTexture textureName =>
      match mapGet (texturePreviews st) textureName with
      | Some preview => negb (String.eqb preview EmptyString)
      | None => false
      end
  | ClearAllTextures => true
  | SelectTexture _ => false
  | ApplySelectedTexture => false
  end.

Definition effectCleanup (st : State) : list string :=
  map snd (texturePreviews st).

Definition stepWithEffects (options : Options) (w : World) (st : State)
    (a : Action) : State * list string :=
  let r := step options w st a in
  (fst r,
   snd r ++ if replacesPreviews options st a then effectCleanup st else []).

(** *** Calls made from one render

    The functions are callbacks of a render: what a call reads of the
    state is what that render saw, whatever the calls the same event handler
    made before it have set.  The setters are given values, never updating
    functions, so of the calls of one handler the last to reach the setter
    of a piece of state decides its value. *)

(** The setters a call reaches. *)
Record Reached := mkReached { setsTextures : bool;
                              setsSelectedTexture : bool;
                              setsTexturePreviews : bool;
                              setsAppliedTexture : bool;
                              setsTextureApplied : bool }.

Definition reached (options : Options) (st : State) (a : Action) : Reached :=
  match a with
  | AddTextures newTextures =>
      match filter (accepted options)
              (slice0 newTextures (remainingSlots options st)) with
      | [] => mkReached false false false false false
      | _ :: _ =>
          match selectedTexture st with
          | None => mkReached true true true true true
          | Some _ => mkReached true false true false false
          end
      end
  | RemoveTexture textureName =>
      let selectedHit :=
        match selectedTexture st with
        | Some selected => String.eqb (fileName selected) textureName
        | None => false
        end in
      mkReached true selectedHit (replacesPreviews options st a)
        selectedHit selectedHit
  | ClearAllTextures => mkReached true true true true true
  | SelectTexture _ => mkReached false true false true true
  | ApplySelectedTexture =>
      match selectedTexture st with
      | Some _ => mkReached false false false true true
      | None => mkReached false false false false false
      end
  end.

(** The state to come once one more call of the handler has run:
    [pending] is what the calls before it have set, [result] what this one
    sets. *)
Definition settle (r : Reached) (result pending : State) : State :=
  mkState
    (if setsTextures r then textures result else textures pending)
    (if setsSelectedTexture r then selectedTexture result
     else selectedTexture pending)
    (if setsTexturePreviews r then texturePreviews result
     else texturePreviews pending)
    (if setsAppliedTexture r then appliedTexture result
     else appliedTexture pending)
    (if setsTextureApplied r then textureApplied result
     else textureApplied pending).

(** The calls of one event handler, each of them made on the state [seen]
    of the handler's render. *)
Fixpoint handler (options : Options) (w : World) (seen pending : State)
    (calls : list Action) : State * list string :=
  match calls with
  | [] => (pending, [])
  | a :: rest =>
      let r := step options w seen a in
      let r' :=
        handler options w seen
          (settle (reached options seen a) (fst r) pending) rest in
      (fst r', snd r ++ snd r')
  end.

(** One event handler after the other: the component is rendered again
    in between, and the callbacks of the new render see the state the
    handler before has left. *)
Fixpoint run (options : Options) (w : World) (st : State)
    (handlers : list (list Action)) : State * list string :=
  match handlers with
  | [] => (st, [])
  | calls :: rest =>
      let r := handler options w st st calls in
      let r' := run options w (fst r) rest in
      (fst r', snd r ++ snd r')
  end.

(** The handlers that make one call, and those of the texture selector:
    [onTexturesChange] followed by [onTextureSelect]. *)
Definition oneCallOrSelector (calls : list Action) : Prop :=
  (exists a, calls = [a])
  \/ (exists newTextures texture,
        calls = [AddTextures newTextures; SelectTexture texture]).

End Textures.

(** ** The page: [Home] of [src/unnamed/part_000]

    The page keeps the model file and a texture of its own next to the
    state of the hook, hands [addTextures] to the upload area and to the
    selector as [onTexturesChange], and [selectTexture] as
    [onTextureSelect].  The selector is [SimpleTextureSelector], the second
    component of [src/components/SpriteStripViewer.tsx].  The callbacks of
    one handler all belong to the same render; the setters they call take
    effect in the order of the calls. *)

Module Page.

Record State := mkState { file : option File; texture : option File }.

(** [maxTextures: 10, acceptedFormats: ['.png', '.jpg', '.jpeg', '.webp']] *)
Definition textureOptions : Textures.Options :=
  Textures.mkOptions (Some 10%Z)
    (Some [".png"%string; ".jpg"%string; ".jpeg"%string; ".webp"%string]).

Definition handleTexturesChange (w : World) (hook : Textures.State)
    (newTextures : list File) : Textures.State :=
  Textures.addTextures textureOptions w hook newTextures.

Definition handleTextureSelect (hook : Textures.State) (page : State)
    (texture : option File) : Textures.State * State :=
  (Textures.selectTexture hook texture,
   match texture with
   | Some t => mkState (file page) (Some t)
   | None => page
   end).

(** [removeTexture] and [clearAll] of the selector, with the callbacks the
    page gives it.  [selectTexture (null)] reads nothing of the state, so
    its setters coming after those of [addTextures] is the same as its
    being applied to the state [addTextures] leaves. *)
Definition selectorRemoveTexture (w : World) (hook : Textures.State)
    (page : State) (textureName : string) : Textures.State * State :=
  let updatedTextures :=
    filter (fun texture => negb (String.eqb (fileName texture) textureName))
      (Textures.textures hook) in
  let changed := handleTexturesChange w hook updatedTextures in
  let selectedHit :=
    match Textures.selectedTexture hook with
    | Some selected => String.eqb (fileName selected) textureName
    | None => false
    end in
  if selectedHit then handleTextureSelect changed page None
  else (changed, page).

Definition selectorClearAll (w : World) (hook : Textures.State)
    (page : State) : Textures.State * State :=
  handleTextureSelect (handleTexturesChange w hook []) page None.

(** [const textureToUse = selectedTexture || texture] *)
Definition textureToUse (hook : Textures.State) (page : State)
  : option File :=
  match Textures.selectedTexture hook with
  | Some selected => Some selected
  | None => texture page
  end.

End Page.

Section Pipeline.

(** Pixels are kept abstract.  [source_over] is the canvas' default
    compositing operator, source first; [transparentPixel] is what a
    canvas holds after it is created or resized.  [rasterize] stands for
    the WebGL render of a scene into a canvas of the given size. *)
Variable Color : Type.
Variable transparentPixel : Color.
Variable source_over : Color -> Color -> Color.
Variable rasterize : Scene -> Camera -> Dimensions -> Z -> Z -> Color.

Record Bitmap := mkBitmap { naturalWidth : Z;
                            naturalHeight : Z;
                            pixelAt : Z -> Z -> Color }.

(** The strings the hook passes around as frames: the PNG encoding of a
    bitmap (lossless), or a string no image decoder accepts. *)
Inductive DataUrl :=
| Png (b : Bitmap)
| NotAnImage (s : string).

Record Canvas := mkCanvas { canvasWidth : Z;
                            canvasHeight : Z;
                            canvasPixel : Z -> Z -> Color }.

(** A canvas right after its [width] and [height] were assigned. *)
Definition createCanvas (w h : Z) : Canvas :=
  mkCanvas w h (fun _ _ => transparentPixel).

Definition toDataURL (c : Canvas) : DataUrl :=
  Png (mkBitmap (canvasWidth c) (canvasHeight c) (canvasPixel c)).

(** [ctx.drawImage (img, dx, dy, dw, dh)]: the whole image is mapped onto
    the destination rectangle and composited over what is there.  When
    the rectangle has the image's own size the mapping is the identity;
    otherwise the image is resampled (nearest source pixel here). *)
Definition drawImage (c : Canvas) (img : Bitmap) (dx dy dw dh : Z) : Canvas :=
  mkCanvas (canvasWidth c) (canvasHeight c)
    (fun px py =>
       if ((dx <=? px) && (px <? dx + dw) && (dy <=? py) && (py <? dy + dh))%Z
       then source_over
              (pixelAt img ((px - dx) * naturalWidth img / dw)%Z
                           ((py - dy) * naturalHeight img / dh)%Z)
              (canvasPixel c px py)
       else canvasPixel c px py).

Record Metadata := mkMetadata { originalFileName : string;
                                metaFileSize : Z;
                                metaFileType : string;
                                metaWidth : Z;
                                metaHeight : Z;
                                uniqueId : string }.

Record SpriteStripData := mkSpriteStripData { dataId : string;
                                              title : string;
                                              description : string;
                                              spriteStripUrl : DataUrl;
                                              modelUrl : string;
                                              dataFrameCount : Z;
                                              dataRatio : Ratio;
                                              createdAt : string;
                                              tags : list string;
                                              metadata : Metadata }.

(** Everything a run does to the outside, in the order it happens. *)
Inductive Event :=
| LoaderCall (f : Format) (url : string)
| Console (level : ConsoleLevel) (msg : string) (args : list ConsoleArg)
| RevokeObjectURL (url : string)
| RenderCall (scene : Scene) (camera : Camera)
| SetIsGenerating (b : bool)
| SetProgress (p : R)
| SetError (e : option string)
| SetGeneratedData (d : option SpriteStripData)
| CallOnGenerate (d : SpriteStripData)
| CallOnSubmit (d : SpriteStripData).

(** An asynchronous computation: the events it performed and how its
    promise ended. *)
Definition Async (A : Type) : Type := (list Event * Promise A)%type.

Definition ret {A} (a : A) : Async A := ([], Resolved a).

Definition bind {A B} (m : Async A) (k : A -> Async B) : Async B :=
  match m with
  | (l, Resolved a) => let (l', r) := k a in (l ++ l', r)
  | (l, Rejected e) => (l, Rejected e)
  | (l, NeverSettles) => (l, NeverSettles)
  end.

Definition emit (ev : Event) : Async unit := ([ev], Resolved tt).

Definition throw {A} (e : Thrown) : Async A := ([], Rejected e).

Definition await {A} (p : Promise A) : Async A := ([], p).

Definition await_events (l : list Event) : Async unit := (l, Resolved tt).

(** [try { m } catch (e) { h e }]. *)
Definition try_catch {A} (m : Async A) (h : Thrown -> Async A) : Async A :=
  match m with
  | (l, Rejected e) => let (l', r) := h e in (l ++ l', r)
  | other => other
  end.

(** [try { m } finally { f }], for an [f] that neither throws nor
    returns: it runs once [m] has ended, and never if [m] does not end. *)
Definition finally {A} (m : Async A) (f : list Event) : Async A :=
  match m with
  | (l, NeverSettles) => (l, NeverSettles)
  | (l, r) => (l ++ f, r)
  end.

Notation "x <- m ;; k" := (bind m (fun x => k))
  (at level 61, m at next level, right associativity).
Notation "m ;; k" := (bind m (fun _ => k))
  (at level 61, right associativity).

Record Options := mkOptions {
  (** a synchronous callback: [None] when it returns, [Some e] when it
      throws [e] *)
  onGenerate : option (SpriteStripData -> option Thrown);
  onSubmit : option (SpriteStripData -> Promise unit);
  ratio : option Ratio;
  frameCount : option Z;
  backgroundColor : option string;
  lightingIntensity : option R;
  ambientIntensity : option R }.

(** [a || b] at the types the hook uses it: zero and the empty string
    are falsy. *)
Definition orZ (a : option Z) (b : Z) : Z :=
  match a with
  | Some v => if (v =? 0)%Z then b else v
  | None => b
  end.

Definition orR (a : option R) (b : R) : R :=
  match a with
  | Some v => if Req_dec_T v 0 then b else v
  | None => b
  end.

Definition orString (a : option string) (b : string) : string :=
  match a with
  | Some v => if String.eqb v EmptyString then b else v
  | None => b
  end.

Definition orRatio (a : option Ratio) (b : Ratio) : Ratio :=
  match a with
  | Some v => v
  | None => b
  end.

Definition getCanvasDimensions (ratio : Ratio) : Dimensions :=
  match ratio with
  | Ratio_16_9 => mkDimensions 1920 1080
  | Ratio_4_3 => mkDimensions 1600 1200
  | Ratio_1_1 => mkDimensions 1080 1080
  | Ratio_auto => mkDimensions 1920 1080
  end.

(** *** [loadModel] *)

Definition loadFailedMessage : string :=
  "Failed to load 3D model. Supported formats: GLTF, FBX, OBJ".

Definition loadModel (w : World) (url : string) : Async THREE.Object3D :=
  emit (LoaderCall GLTF url) ;;
  match gltfLoader w url with
  | inl gltf => ret (gltfScene gltf)
  | inr gltfError =>
      emit (Console LevelLog "GLTF loading failed, trying FBX..."
              [ArgThrown gltfError]) ;;
      emit (LoaderCall FBX url) ;;
      match fbxLoader w url with
      | inl fbx => ret fbx
      | inr fbxError =>
          emit (Console LevelLog "FBX loading failed, trying OBJ..."
                  [ArgThrown fbxError]) ;;
          emit (LoaderCall OBJ url) ;;
          match objLoader w url with
          | inl object => ret object
          | inr objError =>
              emit (Console LevelError "All model loaders failed:"
                      [ArgThrown gltfError; ArgThrown fbxError;
                       ArgThrown objError]) ;;
              throw (ErrorObject loadFailedMessage)
          end
      end
  end.

(** *** [applyTextureToModel] *)

Definition texturedMesh (texture : string) (child : THREE.Mesh) : THREE.Mesh :=
  THREE.mkMesh (THREE.meshName child) (THREE.vertices child)
    (THREE.MeshLambertMaterial texture false).

Definition appliedLog (child : THREE.Mesh) : Event :=
  Console LevelLog "Applied texture to mesh:"
    [ArgText (orString (Some (THREE.meshName child)) "unnamed")].

Definition applyTextureToModel (w : World) (model : THREE.Object3D)
    (textureFile : File) : Async THREE.Object3D :=
  let textureUrl := createObjectURL w textureFile in
  match textureLoader w textureUrl with
  | inl texture =>
      emit (Console LevelLog
              "Texture loaded successfully, applying to model..." []) ;;
      await_events (map appliedLog (THREE.meshes model)) ;;
      emit (RevokeObjectURL textureUrl) ;;
      emit (Console LevelLog "Texture application completed" []) ;;
      ret (THREE.traverseMeshes (texturedMesh texture) model)
  | inr error =>
      emit (Console LevelError "Failed to load texture:" [ArgThrown error]) ;;
      emit (RevokeObjectURL textureUrl) ;;
      throw (ErrorObject "Failed to load texture file")
  end.

(** *** [generateFrames] *)

Definition aspectRatioOf (ratio : Ratio) : R :=
  match ratio with
  | Ratio_16_9 => 16 / 9
  | Ratio_4_3 => 4 / 3
  | Ratio_1_1 => 1
  | Ratio_auto => 16 / 9
  end.

(** [Math.abs (c.x) > 0.001 || Math.abs (c.y) > 0.001 || Math.abs (c.z) > 0.001] *)
Definition offCenter (c : THREE.Vector3) : bool :=
  (if Rgt_dec (Rabs (THREE.x c)) 0.001 then true else false)
  || (if Rgt_dec (Rabs (THREE.y c)) 0.001 then true else false)
  || (if Rgt_dec (Rabs (THREE.z c)) 0.001 then true else false).

(** [const c = new Box3 ().setFromObject (o).getCenter (..);
     if (off centre) o.position.sub (c)] *)
Definition recenterIfOff (o : THREE.Object3D) : THREE.Object3D :=
  let c := THREE.getCenter (THREE.setFromObject o) in
  if offCenter c
  then THREE.withPosition o (THREE.sub (THREE.position o) c)
  else o.

(** The statements between [model.clone ()] and the frame loop, for a
    scale that is a real number: the clone is given the computed position
    and scale, then re-centred twice. *)
Definition poseModel (model : THREE.Object3D) (position : THREE.Vector3)
    (scale : R) : THREE.Object3D :=
  let modelClone := model in
  let modelClone := THREE.withPosition modelClone position in
  let modelClone := THREE.withScale modelClone (THREE.setScalar scale) in
  let scaledCenter := THREE.getCenter (THREE.setFromObject modelClone) in
  let modelClone :=
    THREE.withPosition modelClone
      (THREE.sub (THREE.position modelClone) scaledCenter) in
  recenterIfOff modelClone.

(** The model as it stands when the frame loop is entered.  With a scale
    that is not a real number the same statements run, on a clone that has
    no pose from [scale.setScalar] on. *)
Definition prepareModel (model : THREE.Object3D) (transform : ModelTransform)
  : Clone :=
  match tscale transform with
  | JS.Finite scale => Posed (poseModel model (tposition transform) scale)
  | _ => Unposed (THREE.rotation model) (THREE.meshes model)
  end.

(** [modelClone.position.clone ()]: the position of a clone without a pose
    is not followed. *)
Definition clonePosition (c : Clone) : option THREE.Vector3 :=
  match c with
  | Posed o => Some (THREE.position o)
  | Unposed _ _ => None
  end.

(** [modelClone.position.copy (p)]; a position that is not followed comes
    from a clone without a pose, and is only ever copied into that clone. *)
Definition copyPosition (c : Clone) (p : option THREE.Vector3) : Clone :=
  match c with
  | Posed o =>
      match p with
      | Some v => Posed (THREE.withPosition o v)
      | None => Unposed (THREE.rotation o) (THREE.meshes o)
      end
  | Unposed rotation meshes => Unposed rotation meshes
  end.

Definition setRotation (c : Clone) (r : THREE.Euler) : Clone :=
  match c with
  | Posed o => Posed (THREE.withRotation o r)
  | Unposed _ meshes => Unposed r meshes
  end.

(** The centring check of the loop.  On a clone without a pose the centre
    of the box is the zero vector when the clone has no vertex and has a
    coordinate that is no real number otherwise; whether or not the check
    then subtracts it from the position, the clone still has no pose. *)
Definition recenterClone (c : Clone) : Clone :=
  match c with
  | Posed o => Posed (recenterIfOff o)
  | Unposed rotation meshes => Unposed rotation meshes
  end.

Definition sceneOf (opts : Options) (modelClone : Clone) : Scene :=
  let backgroundColor := orString (backgroundColor opts) "#ffffff" in
  let ambientIntensity := orR (ambientIntensity opts) 0.8 in
  let lightingIntensity := orR (lightingIntensity opts) 1.0 in
  mkScene backgroundColor ambientIntensity lightingIntensity
    (lightingIntensity * 0.4) (lightingIntensity * 0.3) modelClone.

(** The rotation of frame [i]. *)
Definition frameRotation (i : nat) (frameCount : Z) : R :=
  (INR i * (360 / IZR frameCount) * PI) / 180.

(** The mutable variables the loop body works on. *)
Record LoopState := mkLoopState { modelClone : Clone;
                                  frames : list DataUrl;
                                  loopEvents : list Event }.

(** One turn of [for (let i = 0; i < frameCount; i++)]. *)
Definition frameStep (opts : Options) (frameCount : Z)
    (dimensions : Dimensions) (camera : Camera)
    (finalCenteredPosition : option THREE.Vector3)
    (onProgress : R -> list Event) (st : LoopState) (i : nat) : LoopState :=
  let rotation := frameRotation i frameCount in
  let m := copyPosition (modelClone st) finalCenteredPosition in
  let m := setRotation m (THREE.mkEuler 0 0 0) in
  let m := setRotation m
             (THREE.mkEuler (THREE.ex (cloneRotation m)) rotation
                (THREE.ez (cloneRotation m))) in
  let m := recenterClone m in
  let scene := sceneOf opts m in
  let dataUrl :=
    Png (mkBitmap (width dimensions) (height dimensions)
           (rasterize scene camera dimensions)) in
  mkLoopState m (frames st ++ [dataUrl])
    (loopEvents st ++ [RenderCall scene camera]
       ++ onProgress (INR i / IZR frameCount)).

Definition generateFrames (opts : Options) (model : THREE.Object3D)
    (frameCount : Z) (dimensions : Dimensions) (ratio : Ratio)
    (onProgress : R -> list Event) : Async (list DataUrl) :=
  let aspectRatio := aspectRatioOf ratio in
  let transform := calculateModelTransform model aspectRatio in
  let modelClone := prepareModel model transform in
  let finalCenteredPosition := clonePosition modelClone in
  let camera :=
    mkCamera 50 aspectRatio 0.1 1000
      (mkCameraPosition 0 0 (cameraDistance transform)) in
  let st :=
    fold_left
      (frameStep opts frameCount dimensions camera finalCenteredPosition
         onProgress)
      (seq 0 (Z.to_nat frameCount))
      (mkLoopState modelClone [] []) in
  (loopEvents st, Resolved (frames st)).

(** *** [createSpriteStrip] *)

Record StripState := mkStripState { stripCanvas : Canvas;
                                    loadedImages : nat;
                                    resolvedWith : option DataUrl }.

(** The [onload] handler of the image made for [frames[index]].  An
    image whose source does not decode never fires it. *)
Definition onload (frames : list DataUrl) (dimensions : Dimensions)
    (st : StripState) (index : nat) : StripState :=
  match nth_error frames index with
  | Some (Png img) =>
      let canvas :=
        drawImage (stripCanvas st) img
          (Z.of_nat index * width dimensions)%Z 0%Z
          (width dimensions) (height dimensions) in
      let loaded := S (loadedImages st) in
      mkStripState canvas loaded
        (match resolvedWith st with
         | Some url => Some url
         | None =>
             if Nat.eqb loaded (List.length frames)
             then Some (toDataURL canvas) else None
         end)
  | _ => st
  end.

Definition createSpriteStrip (frames : list DataUrl) (dimensions : Dimensions)
    (loadOrder : list nat) : Promise DataUrl :=
  let stripCanvas :=
    createCanvas (width dimensions * Z.of_nat (List.length frames))%Z
      (height dimensions) in
  let st :=
    fold_left (onload frames dimensions) loadOrder
      (mkStripState stripCanvas 0 None) in
  match resolvedWith st with
  | Some url => Resolved url
  | None => NeverSettles
  end.

(** *** [generateSpriteStrip] *)

Definition generationFailedMessage : string :=
  "Failed to generate sprite strip. Supported formats: GLTF, FBX, OBJ".

(** [error instanceof Error ? error.message : '...'] *)
Definition errorMessageOf (error : Thrown) : string :=
  match error with
  | ErrorObject m => m
  | OtherValue _ => generationFailedMessage
  end.

(** [options.onGenerate?.(data)] *)
Definition callOnGenerate (opts : Options) (data : SpriteStripData)
  : Async unit :=
  match onGenerate opts with
  | Some f =>
      emit (CallOnGenerate data) ;;
      match f data with
      | Some e => throw e
      | None => ret tt
      end
  | None => ret tt
  end.

(** [if (options.onSubmit) await options.onSubmit (data)] *)
Definition callOnSubmit (opts : Options) (data : SpriteStripData)
  : Async unit :=
  match onSubmit opts with
  | Some f => emit (CallOnSubmit data) ;; await (f data)
  | None => ret tt
  end.

Definition makeSpriteStripData (w : World) (modelFile : File)
    (spriteStripUrl : DataUrl) (modelUrl : string) (frameCount : Z)
    (ratio : Ratio) (dimensions : Dimensions) : SpriteStripData :=
  mkSpriteStripData
    ("sprite_" ++ dateNow w ++ "_" ++ randomSuffix1 w)%string
    (stripExtension (fileName modelFile))
    ("Generated sprite strip from " ++ fileName modelFile)%string
    spriteStripUrl
    modelUrl
    frameCount
    ratio
    (isoNow w)
    ["generated"%string; "3d-model"%string]
    (mkMetadata (fileName modelFile) (fileSize modelFile)
       (fileType modelFile) (width dimensions) (height dimensions)
       (randomSuffix2 w)).

(** [appliedTexture || textureFile] *)
Definition textureToUseOf (appliedTexture textureFile : option File)
  : option File :=
  match appliedTexture with
  | Some t => Some t
  | None => textureFile
  end.

(** The [if (textureToUse) { try { .. } catch (textureError) { .. } }]
    block: the model it leaves behind. *)
Definition applyTextureBestEffort (w : World) (model : THREE.Object3D)
    (textureToUse : option File) : Async THREE.Object3D :=
  match textureToUse with
  | Some texture =>
      emit (Console LevelLog "Applying texture to model:"
              [ArgText (fileName texture)]) ;;
      try_catch
        (textured <- applyTextureToModel w model texture ;;
         emit (Console LevelLog "Texture successfully applied to model" []) ;;
         ret textured)
        (fun textureError =>
           emit (Console LevelWarn
                   "Failed to apply texture, continuing without texture:"
                   [ArgThrown textureError]) ;;
           (* Continue generation without texture rather than failing
              completely *)
           ret model)
  | None => ret model
  end.

(** The [try] block from [setProgress (20)] on, once the model is loaded
    and the texture step is over. *)
Definition renderAndPublish (opts : Options) (w : World) (modelFile : File)
    (model : THREE.Object3D) : Async (option SpriteStripData) :=
  let frameCount := orZ (frameCount opts) 18 in
  let ratio := orRatio (ratio opts) Ratio_16_9 in
  let dimensions := getCanvasDimensions ratio in
  let modelUrl := createObjectURL w modelFile in
  emit (SetProgress 20) ;;
  frames <-
    generateFrames opts model frameCount dimensions ratio
      (fun progress => [SetProgress (20 + (progress * 0.7))]) ;;
  (* 20-90% for frame generation *)
  emit (SetProgress 90) ;;
  spriteStripUrl <-
    await (createSpriteStrip frames dimensions (imageLoadOrder w)) ;;
  emit (SetProgress 100) ;;
  let spriteStripData :=
    makeSpriteStripData w modelFile spriteStripUrl modelUrl frameCount
      ratio dimensions in
  emit (SetGeneratedData (Some spriteStripData)) ;;
  emit (SetProgress 100) ;;
  callOnGenerate opts spriteStripData ;;
  callOnSubmit opts spriteStripData ;;
  ret (Some spriteStripData).

(** The [try] block. *)
Definition generateBody (opts : Options) (appliedTexture : option File)
    (w : World) (modelFile : File) (textureFile : option File)
  : Async (option SpriteStripData) :=
  let modelUrl := createObjectURL w modelFile in
  emit (SetProgress 10) ;;
  model <- loadModel w modelUrl ;;
  let textureToUse := textureToUseOf appliedTexture textureFile in
  model <- applyTextureBestEffort w model textureToUse ;;
  renderAndPublish opts w modelFile model.

(** The [catch] block. *)
Definition generateCatch (error : Thrown) : Async (option SpriteStripData) :=
  emit (Console LevelError "Sprite generation failed:" [ArgThrown error]) ;;
  emit (SetError (Some (errorMessageOf error))) ;;
  emit (SetGeneratedData None) ;;
  throw error.

Definition generateSpriteStrip (opts : Options) (appliedTexture : option File)
    (w : World) (modelFile : option File) (textureFile : option File)
  : Async (option SpriteStripData) :=
  match modelFile with
  | None => ret None
  | Some modelFile =>
      emit (SetIsGenerating true) ;;
      emit (SetProgress 0) ;;
      emit (SetError None) ;;
      finally
        (try_catch
           (generateBody opts appliedTexture w modelFile textureFile)
           generateCatch)
        [SetIsGenerating false]
  end.

(** The values passed to [setProgress], in order. *)
Fixpoint progressValues (l : list Event) : list R :=
  match l with
  | [] => []
  | SetProgress p :: rest => p :: progressValues rest
  | _ :: rest => progressValues rest
  end.

(** The model states handed to [renderer.render], in order. *)
Fixpoint renderedModels (l : list Event) : list Clone :=
  match l with
  | [] => []
  | RenderCall scene _ :: rest => sceneModel scene :: renderedModels rest
  | _ :: rest => renderedModels rest
  end.

(** The artifacts passed to [setGeneratedData], in order. *)
Fixpoint publishedData (l : list Event) : list SpriteStripData :=
  match l with
  | [] => []
  | SetGeneratedData (Some d) :: rest => d :: publishedData rest
  | _ :: rest => publishedData rest
  end.

(** The loaders called, in order. *)
Fixpoint loaderCalls (l : list Event) : list Format :=
  match l with
  | [] => []
  | LoaderCall f _ :: rest => f :: loaderCalls rest
  | _ :: rest => loaderCalls rest
  end.

(** ** Vocabulary of the properties *)

(** The bounding box of the model has a positive extent on every axis. *)
Definition positiveExtents (model : THREE.Object3D) : Prop :=
  let size := THREE.getSize (THREE.setFromObject model) in
  0 < THREE.x size /\ 0 < THREE.y size /\ 0 < THREE.z size.

(** The size the framing works with, and what it becomes once scaled. *)
Definition effectiveSize (model : THREE.Object3D) : R :=
  effectiveSizeOf (THREE.getSize (THREE.setFromObject model)).

Definition scaledExtent (model : THREE.Object3D) : R :=
  effectiveSize model * ((1.8 - 2 * 0.05) / effectiveSize model).

(** The camera distance in the words of the design: half of the 50 degree
    vertical field of view is 25 degrees; a frustum is [2 d tan 25] high at
    distance [d] and [aspectRatio] times as wide. *)
Definition halfFovRad : R := 25 * PI / 180.

Definition distanceToFitHeight (extent : R) : R :=
  extent / (2 * tan halfFovRad).

Definition distanceToFitWidth (extent aspectRatio : R) : R :=
  extent / (2 * tan halfFovRad * aspectRatio).

Definition safetyBuffer : R := 1 + 10 / 100.
Definition minimumDistance : R := 3.

Definition specCameraDistance (extent aspectRatio : R) : R :=
  Rmax (Rmax (distanceToFitHeight extent)
             (distanceToFitWidth extent aspectRatio) * safetyBuffer)
       minimumDistance.

(** A point within a thousandth of the origin on every axis. *)
Definition withinTolerance (c : THREE.Vector3) : Prop :=
  Rabs (THREE.x c) <= 0.001 /\ Rabs (THREE.y c) <= 0.001
  /\ Rabs (THREE.z c) <= 0.001.

(** The centre of the world-space bounding box of what is rendered lies
    within the tolerance.  The box of a clone without a pose is empty when
    the clone has no vertex, and [getCenter] then answers the zero vector;
    with a vertex, every coordinate of the box is infinite or [NaN], and
    so is its centre. *)
Definition centered (c : Clone) : Prop :=
  match c with
  | Posed o => withinTolerance (THREE.getCenter (THREE.setFromObject o))
  | Unposed _ meshes => flat_map THREE.vertices meshes = []
  end.

(** The model as frame [i] shows it: the prepared model [m0], turned by
    the frame's angle about the vertical axis from its centred position,
    then re-centred if the turn moved the centre. *)
Definition frameModel (m0 : Clone) (frameCount : Z) (i : nat) : Clone :=
  match m0 with
  | Posed o =>
      Posed (recenterIfOff
               (THREE.mkObject3D (THREE.position o)
                  (THREE.mkEuler 0 (frameRotation i frameCount) 0)
                  (THREE.scale o) (THREE.meshes o)))
  | Unposed _ meshes =>
      Unposed (THREE.mkEuler 0 (frameRotation i frameCount) 0) meshes
  end.

(** What no turn of the loop changes of the clone: its scale and its
    meshes. *)
Definition sameBody (c m0 : Clone) : Prop :=
  match c, m0 with
  | Posed o, Posed o0 =>
      THREE.scale o = THREE.scale o0 /\ THREE.meshes o = THREE.meshes o0
  | Unposed _ meshes, Unposed _ meshes0 => meshes = meshes0
  | _, _ => False
  end.

(** What frame [i] is made of: the render, the image pushed on [frames],
    and the events of the turn. *)
Definition frameScene (opts : Options) (m0 : Clone)
    (frameCount : Z) (i : nat) : Scene :=
  sceneOf opts (frameModel m0 frameCount i).

Definition frameImage (opts : Options) (m0 : Clone)
    (frameCount : Z) (dimensions : Dimensions) (camera : Camera) (i : nat)
  : DataUrl :=
  Png (mkBitmap (width dimensions) (height dimensions)
         (rasterize (frameScene opts m0 frameCount i) camera dimensions)).

Definition frameEvents (opts : Options) (m0 : Clone)
    (frameCount : Z) (camera : Camera) (onProgress : R -> list Event)
    (i : nat) : list Event :=
  RenderCall (frameScene opts m0 frameCount i) camera
  :: onProgress (INR i / IZR frameCount).

(** The camera [generateFrames] sets up. *)
Definition cameraOf (model : THREE.Object3D) (ratio : Ratio) : Camera :=
  mkCamera 50 (aspectRatioOf ratio) 0.1 1000
    (mkCameraPosition 0 0
       (cameraDistance (calculateModelTransform model (aspectRatioOf ratio)))).

(** Degrees to radians. *)
Definition degToRad (d : R) : R := d * PI / 180.

(** A callback that renders nothing itself. *)
Definition rendersNothing (onProgress : R -> list Event) : Prop :=
  forall p, renderedModels (onProgress p) = [].

(** The callback [generateSpriteStrip] passes. *)
Definition reportFrameProgress (progress : R) : list Event :=
  [SetProgress (20 + (progress * 0.7))].

(** A frame that decodes to an image of the expected size. *)
Definition frameSized (dimensions : Dimensions) (u : DataUrl) : Prop :=
  exists img, u = Png img
              /\ naturalWidth img = width dimensions
              /\ naturalHeight img = height dimensions.

(** A frame that decodes to an image, of whatever size. *)
Definition decodes (u : DataUrl) : Prop := exists img, u = Png img.

(** A frame of one colour. *)
Definition solidFrame (w h : Z) (c : Color) : DataUrl :=
  Png (mkBitmap w h (fun _ _ => c)).

(** A pixel drawn once onto a cleared canvas. *)
Definition drawnOnce (c : Color) : Color := source_over c transparentPixel.

(** The state of the strip while the images load: [loaded] lists the
    frames drawn so far, and pixel [(x, y)] of slot [i] is that pixel of
    frame [i] drawn once, or still clear. *)
Definition slotPixel (frames : list DataUrl) (loaded : list nat) (i : nat)
    (x y : Z) : Color :=
  match nth_error frames i with
  | Some (Png img) =>
      if existsb (Nat.eqb i) loaded
      then drawnOnce (pixelAt img x y) else transparentPixel
  | _ => transparentPixel
  end.

(** Reading C8: composition is rejected exactly when a frame has not the
    expected size. *)
Definition rejectsExactlyOnMismatch : Prop :=
  forall (frames : list DataUrl) (dimensions : Dimensions)
         (loadOrder : list nat),
    Permutation loadOrder (seq 0 (List.length frames)) ->
    ((exists e, createSpriteStrip frames dimensions loadOrder = Rejected e)
     <-> Exists (fun u => ~ frameSized dimensions u) frames).

(** Reading C3's last part: the reasons of the three decoders can be read
    back from the rejection of [loadModel]. *)
Definition rejectionCarriesReasons : Prop :=
  exists reasonsOf : Thrown -> list Thrown,
    forall (w : World) (url : string) (e1 e2 e3 : Thrown),
      gltfLoader w url = inr e1 ->
      fbxLoader w url = inr e2 ->
      objLoader w url = inr e3 ->
      exists err, snd (loadModel w url) = Rejected err
                  /\ reasonsOf err = [e1; e2; e3].

(** A world whose glTF loader answers [model], with nothing else to
    offer; and one in which every loader fails with the given reasons. *)
Definition worldLoading (model : THREE.Object3D) (order : list nat) : World :=
  mkWorld (fun f => ("blob:" ++ fileName f)%string)
    (fun _ => inl (mkGLTFResult model))
    (fun _ => inr (ErrorObject "not fbx"))
    (fun _ => inr (ErrorObject "not obj"))
    (fun _ => inr (OtherValue "error event"))
    order "1700000000000" "k3x9q2m1z" "p0o9i8u7y" "2023-11-14T22:13:20.000Z".

Definition worldFailing (e1 e2 e3 : Thrown) : World :=
  mkWorld (fun f => ("blob:" ++ fileName f)%string)
    (fun _ => inr e1) (fun _ => inr e2) (fun _ => inr e3)
    (fun _ => inr (OtherValue "error event"))
    [] "1700000000000" "k3x9q2m1z" "p0o9i8u7y" "2023-11-14T22:13:20.000Z".

Definition defaultOptions : Options :=
  mkOptions None None None None None None None.

(** Options whose submission hook fails. *)
Definition optionsSubmitFails (e : Thrown) : Options :=
  mkOptions None (Some (fun _ => Rejected e)) None None None None None.

Definition sampleFile : File := mkFile "chair.glb" 2048 "model/gltf-binary".
Definition sampleTexture : File := mkFile "wood.png" 512 "image/png".

(** How a run ends and what it reports. *)
Definition reachesDone (run : Async (option SpriteStripData)) : Prop :=
  exists d, snd run = Resolved (Some d).

Definition reportsHundred (run : Async (option SpriteStripData)) : Prop :=
  In 100 (progressValues (fst run)).

Definition publishesData (run : Async (option SpriteStripData)) : Prop :=
  exists d, In d (publishedData (fst run)).

(** A computation that neither reports progress nor publishes data. *)
Definition quiet {A : Type} (m : Async A) : Prop :=
  progressValues (fst m) = [] /\ publishedData (fst m) = [].

(** How the two callbacks end a run whose artifact is [d]. *)
Definition callbacksOutcome (opts : Options) (d : SpriteStripData)
  : Promise (option SpriteStripData) :=
  match snd (callOnGenerate opts d) with
  | Resolved _ =>
      match snd (callOnSubmit opts d) with
      | Resolved _ => Resolved (Some d)
      | Rejected e => Rejected e
      | NeverSettles => NeverSettles
      end
  | Rejected e => Rejected e
  | NeverSettles => NeverSettles
  end.

(** Reading C7. *)
Definition progressTracksDone : Prop :=
  forall (opts : Options) (appliedTexture : option File) (w : World)
         (modelFile textureFile : option File),
    let run := generateSpriteStrip opts appliedTexture w modelFile textureFile in
    StronglySorted Rle (progressValues (fst run))
    /\ (reportsHundred run <-> reachesDone run).

(** The progress values of a run that goes all the way. *)
Definition frameProgress (frameCount : Z) (i : nat) : R :=
  20 + (INR i / IZR frameCount) * 0.7.

Definition fullProgress (frameCount : Z) : list R :=
  [0; 10; 20]
    ++ map (frameProgress frameCount) (seq 0 (Z.to_nat frameCount))
    ++ [90; 100; 100].

(** Console output and URL bookkeeping, as opposed to what a run does to
    the state, the loaders, the renderer and the callbacks. *)
Definition isDiagnostic (ev : Event) : bool :=
  match ev with
  | Console _ _ _ => true
  | RevokeObjectURL _ => true
  | _ => false
  end.

Definition withoutDiagnostics (l : list Event) : list Event :=
  filter (fun ev => negb (isDiagnostic ev)) l.

(** The materials a model is rendered with. *)
Definition materialsOf (c : Clone) : list THREE.Material :=
  map THREE.material (cloneMeshes c).

(** The four pieces of state a run writes, with the values [useState]
    gives them, and what the setters do to them. *)
Record HookState := mkHookState { isGenerating : bool;
                                  progress : R;
                                  generatedData : option SpriteStripData;
                                  error : option string }.

Definition initialHookState : HookState := mkHookState false 0 None None.

Definition applyEvent (st : HookState) (ev : Event) : HookState :=
  match ev with
  | SetIsGenerating b =>
      mkHookState b (progress st) (generatedData st) (error st)
  | SetProgress p =>
      mkHookState (isGenerating st) p (generatedData st) (error st)
  | SetError e =>
      mkHookState (isGenerating st) (progress st) (generatedData st) e
  | SetGeneratedData d =>
      mkHookState (isGenerating st) (progress st) d (error st)
  | _ => st
  end.

Definition hookAfter (st : HookState) (l : list Event) : HookState :=
  fold_left applyEvent l st.

(** The events with which every run on a model file starts, and those of
    the [catch] block. *)
Definition runPrefix : list Event :=
  [SetIsGenerating true; SetProgress 0; SetError None; SetProgress 10].

Definition catchEvents (e : Thrown) : list Event :=
  [Console LevelError "Sprite generation failed:" [ArgThrown e];
   SetError (Some (errorMessageOf e));
   SetGeneratedData None].

(** How a run ends once the [try] block has ended with [r]: through the
    [catch] block when it threw, and through the [finally] block unless it
    never ended. *)
Definition settleEvents {A : Type} (r : Promise A) : list Event :=
  match r with
  | Resolved _ => [SetIsGenerating false]
  | Rejected e => catchEvents e ++ [SetIsGenerating false]
  | NeverSettles => []
  end.

(** The artifacts handed to the two callbacks, in order. *)
Fixpoint callbackCalls (l : list Event) : list (bool * SpriteStripData) :=
  match l with
  | [] => []
  | CallOnGenerate d :: rest => (false, d) :: callbackCalls rest
  | CallOnSubmit d :: rest => (true, d) :: callbackCalls rest
  | _ :: rest => callbackCalls rest
  end.

(** Whether the image made for frame [i] can fire [onload] at all. *)
Definition firesOnload (frames : list DataUrl) (i : nat) : bool :=
  match nth_error frames i with
  | Some (Png _) => true
  | _ => false
  end.

(** The object URLs revoked, in order. *)
Fixpoint revokedUrls (l : list Event) : list string :=
  match l with
  | [] => []
  | RevokeObjectURL url :: rest => url :: revokedUrls rest
  | _ :: rest => revokedUrls rest
  end.

(** A box scaled about the origin by [s], then moved by [c]. *)
Definition scaledAndMoved (s : R) (c : THREE.Vector3) (b : THREE.Box3)
  : THREE.Box3 :=
  match b with
  | THREE.EmptyBox => THREE.EmptyBox
  | THREE.Box lo hi =>
      THREE.Box (THREE.add (THREE.multiplyScalar lo s) c)
                (THREE.add (THREE.multiplyScalar hi s) c)
  end.

(** What [applyTextureToModel] leaves on every mesh. *)
Definition texturedMaterials (texture : string) (o : THREE.Object3D)
  : list THREE.Material :=
  map (fun _ => THREE.MeshLambertMaterial texture false) (THREE.meshes o).

(** The values the progress can take: the fixed stops of a run, and what
    the frame loop reports in between. *)
Definition progressStop (p : R) : Prop :=
  p = 0 \/ p = 10 \/ 20 <= p < 20.7 \/ p = 90 \/ p = 100.

(** Options that set the frame count only. *)
Definition optionsFrameCount (n : Z) : Options :=
  mkOptions None None None (Some n) None None None.

(** A model with at least one vertex, and the model scaled by [s] and put
    at the origin, turned as it is. *)
Definition hasVertex (o : THREE.Object3D) : Prop :=
  flat_map THREE.vertices (THREE.meshes o) <> [].

Definition scaledAtOrigin (s : R) (o : THREE.Object3D) : THREE.Object3D :=
  THREE.mkObject3D THREE.origin (THREE.rotation o) (THREE.setScalar s)
    (THREE.meshes o).

(** The scenes and cameras handed to [renderer.render], in order. *)
Fixpoint renderCalls (l : list Event) : list (Scene * Camera) :=
  match l with
  | [] => []
  | RenderCall scene camera :: rest => (scene, camera) :: renderCalls rest
  | _ :: rest => renderCalls rest
  end.

(** A world like [worldLoading] whose texture loader succeeds. *)
Definition worldTextured (model : THREE.Object3D) (order : list nat) : World :=
  mkWorld (fun f => ("blob:" ++ fileName f)%string)
    (fun _ => inl (mkGLTFResult model))
    (fun _ => inr (ErrorObject "not fbx"))
    (fun _ => inr (ErrorObject "not obj"))
    (fun url => inl ("texture of " ++ url)%string)
    order "1700000000000" "k3x9q2m1z" "p0o9i8u7y" "2023-11-14T22:13:20.000Z".

(** [handleSubmit] of the page: the run it awaits. *)
Definition handleSubmit (opts : Options) (w : World) (hook : Textures.State)
    (page : Page.State) : Async unit :=
  match Page.file page with
  | None => ret tt
  | Some file =>
      generateSpriteStrip opts (Textures.appliedTexture hook) w (Some file)
        (Page.textureToUse hook page) ;;
      ret tt
  end.

(** A model to try the functions on: two opposite corners of a box,
    under the identity transform. *)
Definition sampleBox : THREE.Object3D :=
  THREE.mkObject3D THREE.origin (THREE.mkEuler 0 0 0) (THREE.setScalar 1)
    [THREE.mkMesh "box"
       [THREE.mkVector3 0 0 0; THREE.mkVector3 2 4 6]
       (THREE.LoadedMaterial "default")].

(** Two models without a size: one whose only mesh is a face with its
    three corners at one point, which is what [OBJLoader] makes of the lines
    [v 1 2 3] and [f 1 1 1]; and one without geometry, the empty group it
    makes of a file in which it finds no vertex. *)
Definition singlePoint : THREE.Object3D :=
  THREE.mkObject3D THREE.origin (THREE.mkEuler 0 0 0) (THREE.setScalar 1)
    [THREE.mkMesh "point"
       [THREE.mkVector3 1 2 3; THREE.mkVector3 1 2 3; THREE.mkVector3 1 2 3]
       (THREE.LoadedMaterial "default")].

Definition emptyModel : THREE.Object3D :=
  THREE.mkObject3D THREE.origin (THREE.mkEuler 0 0 0) (THREE.setScalar 1) [].

(** * Properties *)

(** ** Framing: [calculateModelTransform] *)

Lemma sin_5_12_lower : 0.4 < sin (5 / 12).
Proof.
  assert (P := PI2_3_2).
  destruct (SIN (5 / 12)) as [H _]; try lra.
  eapply Rlt_le_trans; [|exact H].
  unfold sin_lb, sin_approx, sin_term. simpl. lra.
Qed.

Lemma tan_half_fov_lower : 0.4 < tan (fovRad / 2).
Proof.
  assert (P := PI2_3_2). assert (P4 := PI_4).
  unfold fovRad, fov.
  set (a := 50 * PI / 180 / 2).
  assert (Ha : 5 / 12 < a <= 5 / 9) by (unfold a; lra).
  assert (Hc : 0 < cos a) by (apply cos_gt_0; lra).
  assert (Hc1 : cos a <= 1) by apply COS_bound.
  assert (Hs : sin (5 / 12) < sin a) by (apply sin_increasing_1; lra).
  assert (Hs0 := sin_5_12_lower).
  unfold tan.
  apply Rlt_le_trans with (sin a); [lra|].
  apply (Rmult_le_reg_r (cos a)); [exact Hc|].
  unfold Rdiv. rewrite Rmult_assoc, Rinv_l by lra. nra.
Qed.

Lemma half_fov_eq : fovRad / 2 = halfFovRad.
Proof. unfold fovRad, fov, halfFovRad. lra. Qed.

Lemma maxDimOf_ge_x (size : THREE.Vector3) : THREE.x size <= maxDimOf size.
Proof.
  unfold maxDimOf, Math_max3.
  eapply Rle_trans; [apply Rmax_l|]. eapply Rle_trans; [|apply Rmax_l].
  apply Rle_refl.
Qed.

Lemma effectiveSize_positive (model : THREE.Object3D) :
  positiveExtents model -> 0 < effectiveSize model.
Proof.
  intros (Hx & _ & _). unfold effectiveSize, effectiveSizeOf.
  eapply Rlt_le_trans; [exact Hx|].
  eapply Rle_trans; [apply maxDimOf_ge_x|]. apply Rmax_r.
Qed.

Lemma scaledExtent_target (model : THREE.Object3D) :
  0 < effectiveSize model -> scaledExtent model = 1.7.
Proof.
  intros H. unfold scaledExtent, Rdiv.
  rewrite (Rmult_comm _ (/ effectiveSize model)), <- Rmult_assoc.
  rewrite Rinv_r by lra. lra.
Qed.

Lemma effectiveSize_nonneg (model : THREE.Object3D) : 0 <= effectiveSize model.
Proof.
  unfold effectiveSize, effectiveSizeOf.
  eapply Rle_trans; [|apply Rmax_l]. apply sqrt_pos.
Qed.

Lemma div_finite (x y : R) :
  y <> 0 -> JS.div (JS.Finite x) (JS.Finite y) = JS.Finite (x / y).
Proof.
  intros H. unfold JS.div. destruct (Req_dec_T y 0); [contradiction|].
  reflexivity.
Qed.

Lemma div_positive_by_zero (x : R) :
  0 < x -> JS.div (JS.Finite x) (JS.Finite 0) = JS.Infinity.
Proof.
  intros H. unfold JS.div. destruct (Req_dec_T 0 0) as [_|N]; [|lra].
  destruct (Rlt_dec 0 x); [reflexivity|contradiction].
Qed.

Lemma mul_zero_by_infinity : JS.mul (JS.Finite 0) JS.Infinity = JS.NaN.
Proof.
  unfold JS.mul. destruct (Req_dec_T 0 0) as [_|N]; [reflexivity|lra].
Qed.

(** The transform of a model with a size: every division has a divisor
    other than zero, and every number is a real number. *)
Lemma calculateModelTransform_sized (model : THREE.Object3D)
    (aspectRatio : R) :
  0 < effectiveSize model ->
  tscale (calculateModelTransform model aspectRatio)
  = JS.Finite (targetSize / effectiveSize model)
  /\ (aspectRatio <> 0 ->
      cameraDistance (calculateModelTransform model aspectRatio)
      = JS.Finite
          (Rmax (Rmax (scaledExtent model / (2 * tan (fovRad / 2)))
                      (scaledExtent model
                       / (2 * tan (fovRad / 2) * aspectRatio)) * 1.1)
                3.0)).
Proof.
  intros H. assert (Ht := tan_half_fov_lower).
  unfold calculateModelTransform, scaledExtent.
  fold (effectiveSizeOf (THREE.getSize (THREE.setFromObject model))).
  fold (effectiveSize model).
  cbn [tscale cameraDistance].
  rewrite (div_finite targetSize (effectiveSize model)) by lra.
  split; [reflexivity|]. intros Ha.
  cbn [JS.mul].
  rewrite !div_finite by nra.
  cbn [JS.max JS.mul]. unfold targetSize, framePadding.
  replace (1.8 - 0.05 * 2) with (1.8 - 2 * 0.05) by lra. reflexivity.
Qed.

(** The transform of a model without a size: the scale is [Infinity] and
    the camera distance [NaN], whatever the aspect ratio. *)
Lemma calculateModelTransform_sizeless (model : THREE.Object3D)
    (aspectRatio : R) :
  effectiveSize model = 0 ->
  tscale (calculateModelTransform model aspectRatio) = JS.Infinity
  /\ cameraDistance (calculateModelTransform model aspectRatio) = JS.NaN.
Proof.
  intros H.
  unfold calculateModelTransform.
  fold (effectiveSizeOf (THREE.getSize (THREE.setFromObject model))).
  fold (effectiveSize model).
  cbn [tscale cameraDistance]. rewrite H.
  rewrite div_positive_by_zero by (unfold targetSize, framePadding; lra).
  split; [reflexivity|].
  rewrite mul_zero_by_infinity. reflexivity.
Qed.

Lemma sampleBox_box :
  THREE.setFromObject sampleBox
  = THREE.Box (THREE.mkVector3 0 0 0) (THREE.mkVector3 2 4 6).
Proof.
  unfold THREE.setFromObject, THREE.worldPoints, THREE.setFromPoints.
  cbn [sampleBox THREE.meshes flat_map THREE.vertices app map fold_left
       THREE.expandByPoint].
  unfold THREE.localToWorld, THREE.applyEuler, THREE.rotateX, THREE.rotateY,
    THREE.rotateZ, THREE.multiply, THREE.add, THREE.vmin, THREE.vmax.
  cbn [sampleBox THREE.position THREE.rotation THREE.scale THREE.setScalar
       THREE.origin THREE.x THREE.y THREE.z THREE.ex THREE.ey THREE.ez].
  rewrite cos_0, sin_0.
  f_equal; f_equal;
    try (rewrite Rmin_left by lra); try (rewrite Rmax_right by lra); lra.
Qed.

Lemma sampleBox_positiveExtents : positiveExtents sampleBox.
Proof.
  unfold positiveExtents. rewrite sampleBox_box.
  cbn [THREE.getSize THREE.sub THREE.x THREE.y THREE.z]. lra.
Qed.

(** C5.  For a model whose bounding box has positive extents, the size the
    scale divides by is positive and is the larger of the diagonal of the
    extents and of their maximum; the scale is (1.8 - 2 * 0.05) over it;
    and the translation is the negated centre of the bounding box. *)
Theorem calculateModelTransform_scale_and_translation
    (model : THREE.Object3D) (aspectRatio : R) :
  positiveExtents model ->
  let box := THREE.setFromObject model in
  let size := THREE.getSize box in
  let diagonal :=
    sqrt (THREE.x size * THREE.x size + THREE.y size * THREE.y size
          + THREE.z size * THREE.z size) in
  let maxDimension :=
    Rmax (Rmax (THREE.x size) (THREE.y size)) (THREE.z size) in
  let transform := calculateModelTransform model aspectRatio in
  0 < Rmax diagonal maxDimension
  /\ tscale transform = (1.8 - 2 * 0.05) / Rmax diagonal maxDimension
  /\ tposition transform = THREE.negate (THREE.getCenter box).
Proof.
  intros Hpos box size diagonal maxDimension transform.
  split; [exact (effectiveSize_positive model Hpos)|].
  split; [|reflexivity].
  unfold transform.
  rewrite (proj1 (calculateModelTransform_sized model aspectRatio
                    (effectiveSize_positive model Hpos))).
  unfold effectiveSize, effectiveSizeOf, targetSize, framePadding,
    diagonalOf, maxDimOf, Math_max3.
  fold box. fold size. fold diagonal. fold maxDimension.
  do 2 f_equal. lra.
Qed.

(** C4.  For a model with a size (its effective size is positive) and a
    positive aspect ratio the camera distance is the one the design
    describes: the distances that fit the scaled model, 1.7 units, vertically
    and horizontally under the 50 degree field of view, the larger of them
    with the 10% buffer, and never less than 3.0.  For a model without a
    size (no geometry, or a single point) the target size is divided by
    zero, the scale is [Infinity], and the camera distance is [NaN] for
    every aspect ratio: the minimum of 3.0 is not applied to it. *)
Theorem calculateModelTransform_cameraDistance
    (model : THREE.Object3D) (aspectRatio : R) :
  (0 < effectiveSize model -> 0 < aspectRatio ->
   cameraDistance (calculateModelTransform model aspectRatio)
   = specCameraDistance (scaledExtent model) aspectRatio
   /\ scaledExtent model = 1.7
   /\ minimumDistance <= specCameraDistance (scaledExtent model) aspectRatio)
  /\ (effectiveSize model = 0 ->
      tscale (calculateModelTransform model aspectRatio) = JS.Infinity
      /\ cameraDistance (calculateModelTransform model aspectRatio) = JS.NaN).
Proof.
  split.
  - intros Hs Ha. split; [|split].
    + rewrite (proj2 (calculateModelTransform_sized model aspectRatio Hs))
        by lra.
      unfold specCameraDistance, distanceToFitHeight, distanceToFitWidth,
        safetyBuffer, minimumDistance.
      rewrite half_fov_eq.
      replace (1 + 10 / 100) with 1.1 by lra.
      replace 3.0 with 3 by lra.
      reflexivity.
    + exact (scaledExtent_target model Hs).
    + unfold specCameraDistance. apply Rmax_r.
  - exact (calculateModelTransform_sizeless model aspectRatio).
Qed.

(** With an aspect ratio of at least 1 the buffered fitting distance of a
    model with a size stays below 3. *)
Lemma cameraDistance_minimum (model : THREE.Object3D) (aspectRatio : R) :
  0 < effectiveSize model -> 1 <= aspectRatio ->
  cameraDistance (calculateModelTransform model aspectRatio) = 3.0.
Proof.
  intros He Ha.
  assert (Hext := scaledExtent_target model He).
  assert (Ht := tan_half_fov_lower).
  rewrite (proj2 (calculateModelTransform_sized model aspectRatio He))
    by lra.
  rewrite Hext. f_equal.
  set (t := tan (fovRad / 2)) in *.
  assert (Hw : 1.7 / (2 * t * aspectRatio) <= 1.7 / (2 * t)).
  { unfold Rdiv. apply Rmult_le_compat_l; [lra|].
    apply Rinv_le_contravar; nra. }
  rewrite (Rmax_left _ _ Hw).
  apply Rmax_right.
  assert (Hd : 1.7 / (2 * t) < 2.5).
  { apply (Rmult_lt_reg_r (2 * t)); [lra|].
    unfold Rdiv. rewrite Rmult_assoc, Rinv_l by lra. lra. }
  lra.
Qed.

Lemma aspectRatioOf_ge_1 (ratio : Ratio) : 1 <= aspectRatioOf ratio.
Proof. destruct ratio; cbn [aspectRatioOf]; lra. Qed.

(** C10.  For a model whose bounding box has positive extents and an
    aspect ratio of at least 1 (so for each of 16:9, 4:3, 1:1 and auto)
    the camera distance is exactly 3.0: the scaled extent is 1.7, the
    buffered fitting distance stays below 3, and the minimum applies. *)
Theorem calculateModelTransform_cameraDistance_is_minimum
    (model : THREE.Object3D) :
  positiveExtents model ->
  (forall aspectRatio, 1 <= aspectRatio ->
     cameraDistance (calculateModelTransform model aspectRatio) = 3.0)
  /\ (forall ratio,
        cameraDistance (calculateModelTransform model (aspectRatioOf ratio))
        = 3.0).
Proof.
  intros Hpos.
  assert (Hgen : forall aspectRatio, 1 <= aspectRatio ->
     cameraDistance (calculateModelTransform model aspectRatio) = 3.0).
  { intros a Ha.
    exact (cameraDistance_minimum model a
             (effectiveSize_positive model Hpos) Ha). }
  split; [exact Hgen|].
  intros ratio. apply Hgen. destruct ratio; cbn [aspectRatioOf]; lra.
Qed.

(** ** The frame loop: [generateFrames] *)

Lemma recenterIfOff_scale (o : THREE.Object3D) :
  THREE.scale (recenterIfOff o) = THREE.scale o.
Proof. unfold recenterIfOff. destruct (offCenter _); reflexivity. Qed.

Lemma recenterIfOff_meshes (o : THREE.Object3D) :
  THREE.meshes (recenterIfOff o) = THREE.meshes o.
Proof. unfold recenterIfOff. destruct (offCenter _); reflexivity. Qed.

Lemma recenterIfOff_rotation (o : THREE.Object3D) :
  THREE.rotation (recenterIfOff o) = THREE.rotation o.
Proof. unfold recenterIfOff. destruct (offCenter _); reflexivity. Qed.

Section FrameLoop.

Variable opts : Options.
Variable frameCount : Z.
Variable dimensions : Dimensions.
Variable camera : Camera.
Variable m0 : Clone.
Variable onProgress : R -> list Event.

Let step :=
  frameStep opts frameCount dimensions camera (clonePosition m0)
    onProgress.

Lemma sameBody_refl : sameBody m0 m0.
Proof. destruct m0; cbn [sameBody]; auto. Qed.

Lemma sameBody_frameModel (i : nat) : sameBody (frameModel m0 frameCount i) m0.
Proof.
  destruct m0; cbn [sameBody frameModel]; [|reflexivity].
  rewrite recenterIfOff_scale, recenterIfOff_meshes. auto.
Qed.

(** A turn of the loop depends on the state it finds only through the
    scale and the meshes of the model, which no turn changes. *)
Lemma frameStep_spec (st : LoopState) (i : nat) :
  sameBody (modelClone st) m0 ->
  step st i
  = mkLoopState (frameModel m0 frameCount i)
      (frames st ++ [frameImage opts m0 frameCount dimensions camera i])
      (loopEvents st
         ++ frameEvents opts m0 frameCount camera onProgress i).
Proof.
  intros Hb. unfold step, frameStep, frameImage, frameEvents, frameScene.
  destruct st as [c fs evs]. cbn [modelClone frames loopEvents] in *.
  destruct c as [o|r ms], m0 as [o0|r0 ms0]; cbn [sameBody] in Hb;
    try contradiction.
  - destruct Hb as [Hs Hm].
    cbn [clonePosition copyPosition setRotation cloneRotation recenterClone
         frameModel].
    unfold THREE.withPosition, THREE.withRotation.
    cbn [THREE.position THREE.rotation THREE.scale THREE.meshes THREE.ex
         THREE.ez].
    rewrite Hs, Hm. reflexivity.
  - subst ms0.
    cbn [clonePosition copyPosition setRotation cloneRotation recenterClone
         frameModel THREE.ex THREE.ez].
    reflexivity.
Qed.

Lemma frameLoop_spec (n : nat) :
  fold_left step (seq 0 n) (mkLoopState m0 [] [])
  = mkLoopState
      (match n with
       | O => m0
       | S k => frameModel m0 frameCount k
       end)
      (map (frameImage opts m0 frameCount dimensions camera) (seq 0 n))
      (flat_map (frameEvents opts m0 frameCount camera onProgress)
         (seq 0 n)).
Proof.
  induction n as [|n IH]; [reflexivity|].
  rewrite seq_S, fold_left_app, IH. cbn [fold_left Nat.add].
  rewrite frameStep_spec.
  - rewrite map_app, flat_map_app. cbn [map flat_map].
    rewrite app_nil_r. reflexivity.
  - destruct n; cbn [modelClone];
      [apply sameBody_refl|apply sameBody_frameModel].
Qed.

End FrameLoop.

Lemma generateFrames_spec (opts : Options) (model : THREE.Object3D)
    (frameCount : Z) (dimensions : Dimensions) (ratio : Ratio)
    (onProgress : R -> list Event) :
  let m0 :=
    prepareModel model (calculateModelTransform model (aspectRatioOf ratio)) in
  let camera := cameraOf model ratio in
  generateFrames opts model frameCount dimensions ratio onProgress
  = (flat_map (frameEvents opts m0 frameCount camera onProgress)
       (seq 0 (Z.to_nat frameCount)),
     Resolved
       (map (frameImage opts m0 frameCount dimensions camera)
          (seq 0 (Z.to_nat frameCount)))).
Proof.
  intros m0 camera. unfold generateFrames.
  fold m0. fold (cameraOf model ratio). fold camera.
  rewrite frameLoop_spec. reflexivity.
Qed.

(** *** Re-centring *)

Lemma Rmin_plus_r (a b d : R) : Rmin (a + d) (b + d) = Rmin a b + d.
Proof. unfold Rmin. destruct (Rle_dec _ _), (Rle_dec _ _); lra. Qed.

Lemma Rmax_plus_r (a b d : R) : Rmax (a + d) (b + d) = Rmax a b + d.
Proof. unfold Rmax. destruct (Rle_dec _ _), (Rle_dec _ _); lra. Qed.

Lemma expandByPoint_translate (b : THREE.Box3) (p d : THREE.Vector3) :
  THREE.expandByPoint (THREE.translate b d) (THREE.add p d)
  = THREE.translate (THREE.expandByPoint b p) d.
Proof.
  destruct b as [|lo hi]; [reflexivity|].
  unfold THREE.expandByPoint, THREE.translate, THREE.vmin, THREE.vmax,
    THREE.add.
  cbn [THREE.x THREE.y THREE.z].
  rewrite !Rmin_plus_r, !Rmax_plus_r. reflexivity.
Qed.

Lemma fold_expandByPoint_translate (ps : list THREE.Vector3)
    (b : THREE.Box3) (d : THREE.Vector3) :
  fold_left THREE.expandByPoint (map (fun p => THREE.add p d) ps)
    (THREE.translate b d)
  = THREE.translate (fold_left THREE.expandByPoint ps b) d.
Proof.
  revert b. induction ps as [|p ps IH]; intros b; [reflexivity|].
  cbn [map fold_left]. rewrite expandByPoint_translate. apply IH.
Qed.

(** Moving the object moves its world box by as much. *)
Lemma setFromObject_moved (o : THREE.Object3D) (c : THREE.Vector3) :
  THREE.setFromObject
    (THREE.withPosition o (THREE.sub (THREE.position o) c))
  = THREE.translate (THREE.setFromObject o) (THREE.negate c).
Proof.
  unfold THREE.setFromObject, THREE.setFromPoints, THREE.worldPoints.
  change THREE.EmptyBox with (THREE.translate THREE.EmptyBox (THREE.negate c))
    at 1.
  rewrite <- fold_expandByPoint_translate, map_map.
  f_equal. apply map_ext. intros p.
  unfold THREE.localToWorld, THREE.withPosition, THREE.add, THREE.sub,
    THREE.negate.
  cbn [THREE.position THREE.rotation THREE.scale THREE.x THREE.y THREE.z].
  f_equal; lra.
Qed.

Lemma withinTolerance_origin : withinTolerance THREE.origin.
Proof.
  unfold withinTolerance, THREE.origin. cbn [THREE.x THREE.y THREE.z].
  rewrite Rabs_R0. lra.
Qed.

Lemma getCenter_translate_back (b : THREE.Box3) :
  THREE.getCenter (THREE.translate b (THREE.negate (THREE.getCenter b)))
  = THREE.origin.
Proof.
  destruct b as [|lo hi]; [reflexivity|].
  unfold THREE.getCenter, THREE.translate, THREE.multiplyScalar, THREE.add,
    THREE.negate, THREE.origin.
  cbn [THREE.x THREE.y THREE.z]. f_equal; lra.
Qed.

Lemma offCenter_false (c : THREE.Vector3) :
  offCenter c = false -> withinTolerance c.
Proof.
  unfold offCenter, withinTolerance.
  destruct (Rgt_dec (Rabs (THREE.x c)) 0.001);
    destruct (Rgt_dec (Rabs (THREE.y c)) 0.001);
    destruct (Rgt_dec (Rabs (THREE.z c)) 0.001);
    cbn [orb]; try discriminate; intros _; lra.
Qed.

(** The check-and-correct step always leaves a posed model centred. *)
Lemma recenterIfOff_centered (o : THREE.Object3D) : centered (recenterIfOff o).
Proof.
  unfold recenterIfOff. cbn [centered].
  destruct (offCenter (THREE.getCenter (THREE.setFromObject o))) eqn:Hoff.
  - rewrite setFromObject_moved, getCenter_translate_back.
    apply withinTolerance_origin.
  - apply offCenter_false. exact Hoff.
Qed.

Lemma frameModel_centered (o : THREE.Object3D) (frameCount : Z) (i : nat) :
  centered (frameModel (Posed o) frameCount i).
Proof. cbn [frameModel]. apply recenterIfOff_centered. Qed.

Lemma frameModel_rotation (m0 : Clone) (frameCount : Z) (i : nat) :
  cloneRotation (frameModel m0 frameCount i)
  = THREE.mkEuler 0 (frameRotation i frameCount) 0.
Proof.
  destruct m0; cbn [frameModel cloneRotation]; [|reflexivity].
  rewrite recenterIfOff_rotation. reflexivity.
Qed.

(** Why a clone given a scale that is no real number has no pose: no
    coordinate of a point of it is a real number, wherever the clone is put
    and however it is turned; and the least, the greatest and the middle of
    coordinates that are no real numbers are none either.  So the centre of
    its bounding box, when it has a vertex, is not within any tolerance of
    the origin. *)
Lemma mul_not_finite (a b : JS.Number) :
  ~ JS.isFinite a \/ ~ JS.isFinite b -> ~ JS.isFinite (JS.mul a b).
Proof.
  intros H [r Hr].
  destruct a as [x| | |], b as [y| | |]; cbn [JS.mul] in Hr;
    unfold JS.signed in Hr;
    repeat match type of Hr with
           | context [Req_dec_T ?u ?v] => destruct (Req_dec_T u v)
           | context [Rlt_dec ?u ?v] => destruct (Rlt_dec u v)
           end;
    try discriminate Hr;
    destruct H as [H|H]; apply H; eexists; reflexivity.
Qed.

Lemma add_not_finite (a b : JS.Number) :
  ~ JS.isFinite a \/ ~ JS.isFinite b -> ~ JS.isFinite (JS.add a b).
Proof.
  intros H [r Hr].
  destruct a as [x| | |], b as [y| | |]; cbn [JS.add] in Hr;
    try discriminate Hr;
    destruct H as [H|H]; apply H; eexists; reflexivity.
Qed.

Lemma min_max_not_finite (a b : JS.Number) :
  ~ JS.isFinite a -> ~ JS.isFinite b ->
  ~ JS.isFinite (JS.min a b) /\ ~ JS.isFinite (JS.max a b).
Proof.
  intros Ha Hb.
  split; intros [r Hr];
    destruct a as [x| | |], b as [y| | |]; cbn [JS.min JS.max] in Hr;
    try discriminate Hr;
    solve [apply Ha; eexists; reflexivity|apply Hb; eexists; reflexivity].
Qed.

Lemma unposed_has_no_centre (scale : JS.Number) :
  ~ JS.isFinite scale ->
  (forall r0 r1 r2 position v,
     ~ JS.isFinite (worldCoordinate scale r0 r1 r2 position v))
  /\ (forall a b, ~ JS.isFinite a -> ~ JS.isFinite b ->
        ~ JS.isFinite (JS.min a b) /\ ~ JS.isFinite (JS.max a b))
  /\ (forall lo hi, ~ JS.isFinite lo ->
        ~ JS.isFinite (centreCoordinate lo hi)).
Proof.
  intros Hs. split; [|split].
  - intros r0 r1 r2 position v. unfold worldCoordinate.
    apply add_not_finite. left.
    apply add_not_finite. left.
    apply add_not_finite. left.
    apply mul_not_finite. left.
    apply mul_not_finite. right. exact Hs.
  - exact min_max_not_finite.
  - intros lo hi Hlo. unfold centreCoordinate.
    apply mul_not_finite. left. apply add_not_finite. left. exact Hlo.
Qed.

(** What enters the loop: a posed clone for a model with a size, a clone
    without a pose for a model without one. *)
Lemma prepareModel_sized (model : THREE.Object3D) (aspectRatio : R) :
  0 < effectiveSize model ->
  prepareModel model (calculateModelTransform model aspectRatio)
  = Posed (poseModel model
             (tposition (calculateModelTransform model aspectRatio))
             (targetSize / effectiveSize model)).
Proof.
  intros H. unfold prepareModel.
  rewrite (proj1 (calculateModelTransform_sized model aspectRatio H)).
  reflexivity.
Qed.

Lemma prepareModel_sizeless (model : THREE.Object3D) (aspectRatio : R) :
  effectiveSize model = 0 ->
  prepareModel model (calculateModelTransform model aspectRatio)
  = Unposed (THREE.rotation model) (THREE.meshes model).
Proof.
  intros H. unfold prepareModel.
  rewrite (proj1 (calculateModelTransform_sizeless model aspectRatio H)).
  reflexivity.
Qed.

Lemma renderedModels_app (l1 l2 : list Event) :
  renderedModels (l1 ++ l2) = renderedModels l1 ++ renderedModels l2.
Proof.
  induction l1 as [|ev l1 IH]; [reflexivity|].
  destruct ev; cbn [app renderedModels]; rewrite IH; reflexivity.
Qed.

Lemma renderedModels_frames (opts : Options) (m0 : Clone)
    (frameCount : Z) (camera : Camera) (onProgress : R -> list Event)
    (l : list nat) :
  rendersNothing onProgress ->
  renderedModels
    (flat_map (frameEvents opts m0 frameCount camera onProgress) l)
  = map (frameModel m0 frameCount) l.
Proof.
  intros Hcb. induction l as [|i l IH]; [reflexivity|].
  cbn [flat_map map]. rewrite renderedModels_app, IH.
  unfold frameEvents at 1. cbn [renderedModels]. rewrite Hcb.
  reflexivity.
Qed.

Lemma reportFrameProgress_rendersNothing : rendersNothing reportFrameProgress.
Proof. intros p. reflexivity. Qed.

(** C2.  [renderer.render] is called once per frame.  For a model with
    a size (its effective size is positive), and for one without a vertex,
    the centre of the world-space bounding box is within 0.001 of the
    origin on every axis at each call.  For a model whose vertices are one
    single point the effective size is zero, the clone is scaled by
    [Infinity], and at no call is the centre within the tolerance: it is
    not a triple of real numbers, and the check of the loop compares it
    with 0.001 to no effect. *)
Theorem generateFrames_renders_centered (opts : Options)
    (model : THREE.Object3D) (frameCount : Z) (dimensions : Dimensions)
    (ratio : Ratio) (onProgress : R -> list Event) :
  rendersNothing onProgress ->
  let rendered :=
    renderedModels
      (fst (generateFrames opts model frameCount dimensions ratio onProgress))
  in
  List.length rendered = Z.to_nat frameCount
  /\ (0 < effectiveSize model \/ ~ hasVertex model ->
      Forall centered rendered)
  /\ (effectiveSize model = 0 -> hasVertex model ->
      Forall (fun c => ~ centered c) rendered).
Proof.
  intros Hcb rendered. unfold rendered.
  rewrite generateFrames_spec. cbn [fst].
  rewrite renderedModels_frames by exact Hcb.
  split; [|split].
  - rewrite length_map, length_seq. reflexivity.
  - intros H. apply Forall_forall. intros o Ho. apply in_map_iff in Ho.
    destruct Ho as (i & <- & _).
    destruct (Rle_lt_or_eq_dec _ _ (effectiveSize_nonneg model)) as [Hs|Hz].
    + rewrite prepareModel_sized by exact Hs. apply frameModel_centered.
    + rewrite prepareModel_sizeless by (symmetry; exact Hz).
      destruct H as [H|H]; [lra|].
      cbn [frameModel centered]. unfold hasVertex in H.
      destruct (flat_map THREE.vertices (THREE.meshes model));
        [reflexivity|]. exfalso. apply H. discriminate.
  - intros Hz Hv. apply Forall_forall. intros o Ho. apply in_map_iff in Ho.
    destruct Ho as (i & <- & _).
    rewrite prepareModel_sizeless by exact Hz.
    cbn [frameModel centered]. exact Hv.
Qed.

(** *** Frame angles *)

Lemma frameRotation_degrees (i : nat) (frameCount : Z) :
  frameRotation i frameCount = degToRad (INR i * (360 / IZR frameCount)).
Proof. reflexivity. Qed.

Lemma step_positive (frameCount : Z) :
  (1 <= frameCount)%Z -> 0 < 360 / IZR frameCount.
Proof.
  intros H. apply IZR_le in H. apply Rdiv_lt_0_compat; lra.
Qed.

Lemma degToRad_increasing (a b : R) : a < b -> degToRad a < degToRad b.
Proof.
  intros H. unfold degToRad. assert (P := PI_RGT_0).
  apply Rmult_lt_compat_r; [lra|]. apply Rmult_lt_compat_r; lra.
Qed.

Lemma frame_degrees_below_360 (i : nat) (frameCount : Z) :
  (1 <= frameCount)%Z -> (i < Z.to_nat frameCount)%nat ->
  INR i * (360 / IZR frameCount) < 360.
Proof.
  intros H Hi.
  assert (Hn : 0 < IZR frameCount) by (apply IZR_lt; lia).
  assert (Hlt : INR i < IZR frameCount).
  { rewrite INR_IZR_INZ. apply IZR_lt. lia. }
  unfold Rdiv. rewrite (Rmult_comm 360), <- Rmult_assoc.
  apply (Rmult_lt_reg_r (IZR frameCount)); [exact Hn|].
  assert (Hpos : 0 <= INR i) by apply pos_INR.
  replace (INR i * / IZR frameCount * 360 * IZR frameCount)
    with (INR i * 360 * (IZR frameCount * / IZR frameCount)) by ring.
  rewrite Rinv_r by lra. lra.
Qed.

(** C6.  For a frame count of at least 1 the loop produces exactly that
    many frames and renders, in index order; the model of frame [i] is
    turned about the vertical axis only, by [i * (360 / frameCount)] degrees
    taken in radians, and frame [i] is the image of that render; the angle
    of frame 0 is 0, the angles increase strictly, and none reaches 360
    degrees. *)
Theorem generateFrames_count_order_angles (opts : Options)
    (model : THREE.Object3D) (frameCount : Z) (dimensions : Dimensions)
    (ratio : Ratio) (onProgress : R -> list Event) :
  (1 <= frameCount)%Z ->
  rendersNothing onProgress ->
  let run := generateFrames opts model frameCount dimensions ratio onProgress in
  let n := Z.to_nat frameCount in
  let angle := fun i : nat => degToRad (INR i * (360 / IZR frameCount)) in
  exists (frames : list DataUrl) (scenes : list Scene),
    snd run = Resolved frames
    /\ List.length frames = n
    /\ List.length scenes = n
    /\ renderedModels (fst run) = map sceneModel scenes
    /\ frames
       = map (fun scene =>
                Png (mkBitmap (width dimensions) (height dimensions)
                       (rasterize scene (cameraOf model ratio) dimensions)))
           scenes
    /\ map (fun scene => cloneRotation (sceneModel scene)) scenes
       = map (fun i => THREE.mkEuler 0 (angle i) 0) (seq 0 n)
    /\ angle 0%nat = 0
    /\ (forall i j : nat, (i < j)%nat -> angle i < angle j)
    /\ (forall i : nat, (i < n)%nat -> angle i < degToRad 360).
Proof.
  intros Hfc Hcb run n angle.
  set (m0 := prepareModel model
               (calculateModelTransform model (aspectRatioOf ratio))).
  exists (map (frameImage opts m0 frameCount dimensions (cameraOf model ratio))
            (seq 0 n)).
  exists (map (frameScene opts m0 frameCount) (seq 0 n)).
  unfold run. rewrite generateFrames_spec. fold m0. fold n.
  cbn [fst snd].
  repeat split.
  - rewrite length_map, length_seq. reflexivity.
  - rewrite length_map, length_seq. reflexivity.
  - rewrite renderedModels_frames by exact Hcb.
    rewrite map_map. reflexivity.
  - rewrite map_map. reflexivity.
  - rewrite map_map. apply map_ext. intros i.
    unfold frameScene, sceneOf. cbn [sceneModel].
    rewrite frameModel_rotation, frameRotation_degrees. reflexivity.
  - unfold angle, degToRad. cbn [INR]. lra.
  - intros i j Hij. unfold angle. apply degToRad_increasing.
    apply Rmult_lt_compat_r; [apply step_positive; exact Hfc|].
    apply lt_INR. exact Hij.
  - intros i Hi. unfold angle. apply degToRad_increasing.
    apply frame_degrees_below_360; assumption.
Qed.

(** ** Compositing: [createSpriteStrip] *)

(** A pixel of slot [i] lies in the rectangle drawn for frame [idx] exactly
    when [i] is [idx]. *)
Lemma inSlot_eqb (W H x y : Z) (i idx : nat) :
  (0 <= x < W)%Z -> (0 <= y < H)%Z ->
  ((Z.of_nat idx * W <=? Z.of_nat i * W + x)
   && (Z.of_nat i * W + x <? Z.of_nat idx * W + W)
   && (0 <=? y) && (y <? 0 + H))%Z
  = Nat.eqb i idx.
Proof.
  intros Hx Hy. destruct (Nat.eqb_spec i idx) as [->|Hne].
  - repeat (apply andb_true_intro; split);
      first [apply Z.leb_le | apply Z.ltb_lt]; lia.
  - destruct (Z.leb_spec (Z.of_nat idx * W) (Z.of_nat i * W + x)) as [Hlo|Hlo];
      [|reflexivity].
    destruct (Z.ltb_spec (Z.of_nat i * W + x) (Z.of_nat idx * W + W)) as [Hhi|Hhi];
      [|reflexivity].
    exfalso. apply Hne.
    assert (Hlt : (Z.of_nat i < Z.of_nat idx + 1)%Z) by nia.
    assert (Hgt : (Z.of_nat idx < Z.of_nat i + 1)%Z) by nia.
    lia.
Qed.

Lemma existsb_eqb_In (i : nat) (l : list nat) :
  existsb (Nat.eqb i) l = true <-> In i l.
Proof.
  rewrite existsb_exists. split.
  - intros (j & Hj & Heq). apply Nat.eqb_eq in Heq. subst. exact Hj.
  - intros Hi. exists i. split; [exact Hi|apply Nat.eqb_refl].
Qed.

Lemma existsb_eqb_not_In (i : nat) (l : list nat) :
  ~ In i l -> existsb (Nat.eqb i) l = false.
Proof.
  intros Hni. destruct (existsb (Nat.eqb i) l) eqn:E; [|reflexivity].
  apply existsb_eqb_In in E. contradiction.
Qed.

Section Strip.

Variable frames : list DataUrl.
Variable dimensions : Dimensions.

Let W := width dimensions.
Let H := height dimensions.
Let n := List.length frames.
Let start :=
  mkStripState (createCanvas (W * Z.of_nat n)%Z H) 0 None.

Lemma decodes_nth (i : nat) :
  Forall decodes frames -> (i < n)%nat ->
  exists img, nth_error frames i = Some (Png img).
Proof.
  intros Hdec Hi. destruct (nth_error frames i) as [u|] eqn:E.
  - rewrite Forall_forall in Hdec.
    destruct (Hdec u (nth_error_In _ _ E)) as (img & ->).
    exists img. reflexivity.
  - apply nth_error_None in E. unfold n in Hi. lia.
Qed.

Lemma sized_nth (i : nat) (img : Bitmap) :
  Forall (frameSized dimensions) frames ->
  nth_error frames i = Some (Png img) ->
  naturalWidth img = W /\ naturalHeight img = H.
Proof.
  intros Hs E. rewrite Forall_forall in Hs.
  destruct (Hs _ (nth_error_In _ _ E)) as (img' & Heq & Hw & Hh).
  injection Heq as <-. auto.
Qed.

Lemma loaded_prefix (done : list nat) (idx : nat) :
  NoDup (done ++ [idx]) ->
  (forall i, In i (done ++ [idx]) -> (i < n)%nat) ->
  NoDup done /\ ~ In idx done /\ (idx < n)%nat
  /\ (forall i, In i done -> (i < n)%nat)
  /\ (List.length done < n)%nat.
Proof.
  intros Hnd Hin.
  assert (Hincl : incl (done ++ [idx]) (seq 0 n)).
  { intros j Hj. apply in_seq. specialize (Hin j Hj). lia. }
  apply (NoDup_incl_length Hnd) in Hincl.
  rewrite length_seq, length_app in Hincl. cbn [List.length] in Hincl.
  repeat split.
  - apply NoDup_app_remove_r in Hnd. exact Hnd.
  - intros Hc. apply NoDup_remove_2 in Hnd. apply Hnd.
    rewrite app_nil_r. exact Hc.
  - apply Hin, in_or_app. right. left. reflexivity.
  - intros i Hi. apply Hin, in_or_app. left. exact Hi.
  - lia.
Qed.

(** The counter and the promise after the images listed in [loaded] have
    fired [onload], in that order: the promise is resolved by the last of
    the images, with the canvas as it is then. *)
Lemma onload_fold_count (loaded : list nat) :
  Forall decodes frames ->
  NoDup loaded ->
  (forall i, In i loaded -> (i < n)%nat) ->
  let st := fold_left (onload frames dimensions) loaded start in
  loadedImages st = List.length loaded
  /\ canvasWidth (stripCanvas st) = (W * Z.of_nat n)%Z
  /\ canvasHeight (stripCanvas st) = H
  /\ resolvedWith st
     = if (Nat.eqb (List.length loaded) n) && negb (Nat.eqb n 0)
       then Some (toDataURL (stripCanvas st)) else None.
Proof.
  intros Hdec.
  induction loaded as [|idx done IH] using rev_ind; intros Hnd Hin st.
  - unfold st. cbn. repeat split. destruct n; reflexivity.
  - destruct (loaded_prefix done idx Hnd Hin)
      as (Hd & Hfresh & Hidx & Hin' & Hlen).
    destruct (IH Hd Hin') as (Hl & Hcw & Hch & Hres).
    clear IH. unfold st. rewrite fold_left_app. cbn [fold_left].
    set (st0 := fold_left (onload frames dimensions) done start) in *.
    destruct (decodes_nth idx Hdec Hidx) as (img & Himg).
    unfold onload. rewrite Himg.
    cbn [loadedImages stripCanvas resolvedWith drawImage canvasWidth
         canvasHeight].
    fold n. repeat split.
    + rewrite Hl, length_app. cbn [List.length]. lia.
    + exact Hcw.
    + exact Hch.
    + rewrite Hres, Hl, length_app. cbn [List.length].
      replace (List.length done + 1)%nat with (S (List.length done)) by lia.
      replace (Nat.eqb (List.length done) n) with false
        by (symmetry; apply Nat.eqb_neq; lia).
      cbn [andb].
      destruct (Nat.eqb_spec (S (List.length done)) n) as [E|E];
        [|reflexivity].
      replace (Nat.eqb n 0) with false
        by (symmetry; apply Nat.eqb_neq; lia).
      reflexivity.
Qed.

(** The pixels of the canvas at that point, when the frames have the
    expected size: every slot holds its frame unscaled, or is still
    clear. *)
Lemma onload_fold_pixels (loaded : list nat) :
  Forall (frameSized dimensions) frames ->
  NoDup loaded ->
  (forall i, In i loaded -> (i < n)%nat) ->
  let st := fold_left (onload frames dimensions) loaded start in
  forall i x y, (0 <= x < W)%Z -> (0 <= y < H)%Z ->
    canvasPixel (stripCanvas st) (Z.of_nat i * W + x)%Z y
    = slotPixel frames loaded i x y.
Proof.
  intros sized.
  assert (Hdec : Forall decodes frames).
  { eapply Forall_impl; [|exact sized].
    intros u (img & -> & _). exists img. reflexivity. }
  induction loaded as [|idx done IH] using rev_ind; intros Hnd Hin st.
  - unfold st. cbn [fold_left start stripCanvas createCanvas canvasPixel].
    intros i x y _ _. unfold slotPixel.
    destruct (nth_error frames i) as [[img|s]|]; reflexivity.
  - destruct (loaded_prefix done idx Hnd Hin)
      as (Hd & Hfresh & Hidx & Hin' & Hlen).
    specialize (IH Hd Hin'). cbn zeta in IH.
    unfold st. rewrite fold_left_app. cbn [fold_left].
    set (st0 := fold_left (onload frames dimensions) done start) in *.
    destruct (decodes_nth idx Hdec Hidx) as (img & Himg).
    destruct (sized_nth idx img sized Himg) as (Hiw & Hih).
    unfold onload. rewrite Himg.
    cbn [stripCanvas drawImage canvasPixel].
    fold W. fold H.
    intros i x y Hx Hy.
    rewrite (inSlot_eqb W H x y i idx Hx Hy).
    rewrite (IH i x y Hx Hy).
    unfold slotPixel. rewrite existsb_app. cbn [existsb].
    rewrite orb_false_r.
    destruct (Nat.eqb_spec i idx) as [->|Hne].
    + rewrite Himg, (existsb_eqb_not_In idx done Hfresh). cbn [orb].
      rewrite Hiw, Hih. unfold drawnOnce.
      replace (Z.of_nat idx * W + x - Z.of_nat idx * W)%Z with x by lia.
      rewrite Z.sub_0_r, !Z.div_mul by lia. reflexivity.
    + rewrite orb_false_r. reflexivity.
Qed.

End Strip.

Lemma loadOrder_facts (frames : list DataUrl) (loadOrder : list nat) :
  Permutation loadOrder (seq 0 (List.length frames)) ->
  NoDup loadOrder
  /\ (forall i, In i loadOrder <-> (i < List.length frames)%nat)
  /\ List.length loadOrder = List.length frames.
Proof.
  intros Hp. repeat split.
  - apply (Permutation_NoDup (Permutation_sym Hp)), seq_NoDup.
  - intros Hi. apply (Permutation_in _ Hp), in_seq in Hi. lia.
  - intros Hi. apply (Permutation_in _ (Permutation_sym Hp)), in_seq. lia.
  - rewrite (Permutation_length Hp). apply length_seq.
Qed.

Lemma createSpriteStrip_resolves (frames : list DataUrl)
    (dimensions : Dimensions) (loadOrder : list nat) :
  Forall decodes frames ->
  (1 <= List.length frames)%nat ->
  Permutation loadOrder (seq 0 (List.length frames)) ->
  createSpriteStrip frames dimensions loadOrder
  = Resolved
      (toDataURL
         (stripCanvas
            (fold_left (onload frames dimensions) loadOrder
               (mkStripState
                  (createCanvas
                     (width dimensions * Z.of_nat (List.length frames))%Z
                     (height dimensions)) 0 None)))).
Proof.
  intros Hdec Hn Hp.
  destruct (loadOrder_facts frames loadOrder Hp) as (Hnd & Hin & Hlen).
  destruct (onload_fold_count frames dimensions loadOrder Hdec Hnd
              (fun i Hi => proj1 (Hin i) Hi)) as (_ & _ & _ & Hres).
  unfold createSpriteStrip. rewrite Hres, Hlen, Nat.eqb_refl.
  replace (Nat.eqb (List.length frames) 0) with false
    by (symmetry; apply Nat.eqb_neq; lia).
  reflexivity.
Qed.

(** C1.  When there is at least one frame, every frame is an image of
    [frameWidth] by [frameHeight], and all images load (in whatever order),
    the strip is [frameWidth * frameCount] wide and [frameHeight] high, and
    its pixel [(i * frameWidth + x, y)] is pixel [(x, y)] of frame [i], drawn
    once onto the cleared canvas: frame [i] sits at offset [i * frameWidth]
    over the full height, unscaled and under no other frame; the slots cover
    every column of the strip and no two of them share one. *)
Theorem createSpriteStrip_layout (frames : list DataUrl)
    (dimensions : Dimensions) (loadOrder : list nat) :
  (1 <= List.length frames)%nat ->
  Forall (frameSized dimensions) frames ->
  Permutation loadOrder (seq 0 (List.length frames)) ->
  let frameWidth := width dimensions in
  let frameHeight := height dimensions in
  let frameCount := Z.of_nat (List.length frames) in
  exists strip : Bitmap,
    createSpriteStrip frames dimensions loadOrder = Resolved (Png strip)
    /\ naturalWidth strip = (frameWidth * frameCount)%Z
    /\ naturalHeight strip = frameHeight
    /\ (forall (i : nat) (img : Bitmap) (x y : Z),
          nth_error frames i = Some (Png img) ->
          (0 <= x < frameWidth)%Z -> (0 <= y < frameHeight)%Z ->
          pixelAt strip (Z.of_nat i * frameWidth + x)%Z y
          = drawnOnce (pixelAt img x y))
    /\ (forall column : Z,
          (0 <= column < frameWidth * frameCount)%Z ->
          exists (i : nat) (x : Z),
            (i < List.length frames)%nat /\ (0 <= x < frameWidth)%Z
            /\ column = (Z.of_nat i * frameWidth + x)%Z)
    /\ (forall (i j : nat) (x x' : Z),
          (0 <= x < frameWidth)%Z -> (0 <= x' < frameWidth)%Z ->
          (Z.of_nat i * frameWidth + x = Z.of_nat j * frameWidth + x')%Z ->
          i = j /\ x = x').
Proof.
  intros Hn Hsized Hp frameWidth frameHeight frameCount.
  assert (Hdec : Forall decodes frames).
  { eapply Forall_impl; [|exact Hsized].
    intros u (img & -> & _). exists img. reflexivity. }
  destruct (loadOrder_facts frames loadOrder Hp) as (Hnd & Hin & Hlen).
  assert (Hin' := fun i Hi => proj1 (Hin i) Hi).
  destruct (onload_fold_count frames dimensions loadOrder Hdec Hnd Hin')
    as (_ & Hcw & Hch & _).
  assert (Hpx := onload_fold_pixels frames dimensions loadOrder Hsized
                   Hnd Hin').
  cbn zeta in Hpx.
  eexists. split.
  { rewrite (createSpriteStrip_resolves frames dimensions loadOrder Hdec Hn Hp).
    unfold toDataURL. reflexivity. }
  cbn [naturalWidth naturalHeight pixelAt].
  split; [exact Hcw|]. split; [exact Hch|]. split; [|split].
  - intros i img x y Hnth Hx Hy. unfold frameWidth, frameHeight in *.
    rewrite (Hpx i x y Hx Hy). unfold slotPixel. rewrite Hnth.
    assert (Hi : In i loadOrder).
    { apply Hin. apply nth_error_Some. rewrite Hnth. discriminate. }
    apply existsb_eqb_In in Hi. rewrite Hi. reflexivity.
  - intros column Hc. unfold frameCount in Hc.
    assert (Hw : (0 < frameWidth)%Z) by nia.
    exists (Z.to_nat (column / frameWidth)), (column mod frameWidth)%Z.
    assert (Hq : (0 <= column / frameWidth)%Z) by (apply Z.div_pos; lia).
    assert (Hm := Z.mod_pos_bound column frameWidth Hw).
    assert (Hd := Z.div_mod column frameWidth ltac:(lia)).
    rewrite Z2Nat.id by exact Hq.
    repeat split; try lia.
    assert (Hlt : (column / frameWidth < Z.of_nat (List.length frames))%Z).
    { apply Z.div_lt_upper_bound; lia. }
    lia.
  - intros i j x x' Hx Hx' Heq.
    assert (Hij : Z.of_nat i = Z.of_nat j) by nia.
    split; [lia|]. rewrite Hij in Heq. lia.
Qed.

(** C8, amended.  [createSpriteStrip] never rejects, whatever the frames:
    it has no check of their size.  It resolves as soon as there is at least
    one frame and every frame decodes and loads, whether or not the sizes
    agree with the expected ones; in particular it does when they agree. *)
Theorem createSpriteStrip_never_rejects (frames : list DataUrl)
    (dimensions : Dimensions) (loadOrder : list nat) :
  (forall e, createSpriteStrip frames dimensions loadOrder <> Rejected e)
  /\ ((1 <= List.length frames)%nat ->
      Forall decodes frames ->
      Permutation loadOrder (seq 0 (List.length frames)) ->
      exists strip : Bitmap,
        createSpriteStrip frames dimensions loadOrder = Resolved (Png strip)
        /\ naturalWidth strip
           = (width dimensions * Z.of_nat (List.length frames))%Z
        /\ naturalHeight strip = height dimensions).
Proof.
  split.
  - intros e. unfold createSpriteStrip.
    destruct (resolvedWith _); discriminate.
  - intros Hn Hdec Hp.
    destruct (loadOrder_facts frames loadOrder Hp) as (Hnd & Hin & Hlen).
    destruct (onload_fold_count frames dimensions loadOrder Hdec Hnd
                (fun i Hi => proj1 (Hin i) Hi)) as (_ & Hcw & Hch & _).
    eexists. split.
    { rewrite (createSpriteStrip_resolves frames dimensions loadOrder Hdec Hn Hp).
      unfold toDataURL. reflexivity. }
    cbn [naturalWidth naturalHeight]. split; [exact Hcw|exact Hch].
Qed.

(** ** Loading: [loadModel] *)

(** C3, amended.  The decoders are tried in the order glTF, FBX, OBJ; the
    first that succeeds ends the load with its result and no later decoder
    is called; none is called twice.  When all three fail the load is
    rejected with one fixed message, which names the three formats; the
    three reasons go to the console and are not part of the rejection. *)
Theorem loadModel_fallback_order (w : World) (url : string) :
  let run := loadModel w url in
  match gltfLoader w url with
  | inl gltf =>
      snd run = Resolved (gltfScene gltf) /\ loaderCalls (fst run) = [GLTF]
  | inr gltfError =>
      match fbxLoader w url with
      | inl fbx =>
          snd run = Resolved fbx /\ loaderCalls (fst run) = [GLTF; FBX]
      | inr fbxError =>
          match objLoader w url with
          | inl object =>
              snd run = Resolved object
              /\ loaderCalls (fst run) = [GLTF; FBX; OBJ]
          | inr objError =>
              snd run
              = Rejected
                  (ErrorObject
                     "Failed to load 3D model. Supported formats: GLTF, FBX, OBJ")
              /\ loaderCalls (fst run) = [GLTF; FBX; OBJ]
              /\ In (Console LevelError "All model loaders failed:"
                       [ArgThrown gltfError; ArgThrown fbxError;
                        ArgThrown objError])
                    (fst run)
          end
      end
  end.
Proof.
  unfold loadModel.
  destruct (gltfLoader w url) as [gltf|e1]; [cbn; auto|].
  destruct (fbxLoader w url) as [fbx|e2]; [cbn; auto|].
  destruct (objLoader w url) as [obj|e3]; cbn; auto 10.
Qed.

(** ** The run: [generateSpriteStrip] *)

Lemma progressValues_app (l1 l2 : list Event) :
  progressValues (l1 ++ l2) = progressValues l1 ++ progressValues l2.
Proof.
  induction l1 as [|ev l1 IH]; [reflexivity|].
  destruct ev; cbn [app progressValues]; rewrite IH; reflexivity.
Qed.

Lemma publishedData_app (l1 l2 : list Event) :
  publishedData (l1 ++ l2) = publishedData l1 ++ publishedData l2.
Proof.
  induction l1 as [|ev l1 IH]; [reflexivity|].
  destruct ev as [| | | | | | |[d|]| |]; cbn [app publishedData];
    rewrite IH; reflexivity.
Qed.

Lemma quiet_loadModel (w : World) (url : string) : quiet (loadModel w url).
Proof.
  unfold quiet, loadModel.
  destruct (gltfLoader w url); [split; reflexivity|].
  destruct (fbxLoader w url); [split; reflexivity|].
  destruct (objLoader w url); split; reflexivity.
Qed.

Lemma loadModel_settles (w : World) (url : string) :
  snd (loadModel w url) <> NeverSettles.
Proof.
  unfold loadModel.
  destruct (gltfLoader w url); [discriminate|].
  destruct (fbxLoader w url); [discriminate|].
  destruct (objLoader w url); discriminate.
Qed.

Lemma progressValues_appliedLog (ms : list THREE.Mesh) :
  progressValues (map appliedLog ms) = []
  /\ publishedData (map appliedLog ms) = []
  /\ renderedModels (map appliedLog ms) = []
  /\ withoutDiagnostics (map appliedLog ms) = [].
Proof.
  induction ms as [|m ms (IH1 & IH2 & IH3 & IH4)]; [repeat split|].
  cbn [map appliedLog progressValues publishedData renderedModels].
  repeat split; assumption.
Qed.

(** The texture step always ends with a model: the textured one, or the
    one it was given when the texture does not load. *)
Lemma applyTextureBestEffort_result (w : World) (model : THREE.Object3D)
    (textureToUse : option File) :
  quiet (applyTextureBestEffort w model textureToUse)
  /\ withoutDiagnostics (fst (applyTextureBestEffort w model textureToUse)) = []
  /\ snd (applyTextureBestEffort w model textureToUse)
     = Resolved
         match textureToUse with
         | Some texture =>
             match textureLoader w (createObjectURL w texture) with
             | inl loaded =>
                 THREE.traverseMeshes (texturedMesh loaded) model
             | inr _ => model
             end
         | None => model
         end.
Proof.
  unfold quiet, applyTextureBestEffort.
  destruct textureToUse as [texture|]; [|repeat split].
  unfold applyTextureToModel.
  destruct (textureLoader w (createObjectURL w texture)) as [loaded|err].
  - destruct (progressValues_appliedLog (THREE.meshes model))
      as (H1 & H2 & H3 & H4).
    cbn [bind emit ret await_events try_catch fst snd app].
    unfold withoutDiagnostics in *.
    cbn [progressValues publishedData filter isDiagnostic negb].
    rewrite !progressValues_app, !publishedData_app, !filter_app.
    rewrite H1, H2, H4. repeat split.
  - repeat split.
Qed.

Lemma quiet_callOnGenerate (opts : Options) (d : SpriteStripData) :
  quiet (callOnGenerate opts d).
Proof.
  unfold quiet, callOnGenerate.
  destruct (onGenerate opts) as [f|]; [|split; reflexivity].
  destruct (f d); split; reflexivity.
Qed.

Lemma quiet_callOnSubmit (opts : Options) (d : SpriteStripData) :
  quiet (callOnSubmit opts d).
Proof.
  unfold quiet, callOnSubmit.
  destruct (onSubmit opts) as [f|]; [|split; reflexivity].
  destruct (f d); split; reflexivity.
Qed.

Lemma generateFrames_reports (opts : Options) (model : THREE.Object3D)
    (frameCount : Z) (dimensions : Dimensions) (ratio : Ratio) :
  let run :=
    generateFrames opts model frameCount dimensions ratio
      (fun progress => [SetProgress (20 + (progress * 0.7))]) in
  progressValues (fst run)
  = map (frameProgress frameCount) (seq 0 (Z.to_nat frameCount))
  /\ publishedData (fst run) = []
  /\ exists frames, snd run = Resolved frames
                    /\ List.length frames = Z.to_nat frameCount
                    /\ Forall (frameSized dimensions) frames.
Proof.
  intros run. unfold run. rewrite generateFrames_spec. cbn [fst snd].
  split; [|split].
  - induction (seq 0 (Z.to_nat frameCount)) as [|i l IH]; [reflexivity|].
    cbn [flat_map map frameEvents app progressValues]. rewrite IH.
    reflexivity.
  - induction (seq 0 (Z.to_nat frameCount)) as [|i l IH]; [reflexivity|].
    cbn [flat_map frameEvents app publishedData]. exact IH.
  - eexists. split; [reflexivity|]. split.
    + rewrite length_map, length_seq. reflexivity.
    + apply Forall_forall. intros u Hu. apply in_map_iff in Hu.
      destruct Hu as (i & <- & _). unfold frameImage, frameSized.
      eexists. split; [reflexivity|]. split; reflexivity.
Qed.

Lemma fst_bind {A B : Type} (m : Async A) (k : A -> Async B) :
  fst (bind m k)
  = fst m ++ match snd m with Resolved a => fst (k a) | _ => [] end.
Proof.
  destruct m as [l [a|e|]]; cbn [bind fst snd]; [|rewrite app_nil_r; reflexivity..].
  destruct (k a); reflexivity.
Qed.

Lemma snd_bind {A B : Type} (m : Async A) (k : A -> Async B) :
  snd (bind m k)
  = match snd m with
    | Resolved a => snd (k a)
    | Rejected e => Rejected e
    | NeverSettles => NeverSettles
    end.
Proof.
  destruct m as [l [a|e|]]; cbn [bind fst snd]; try reflexivity.
  destruct (k a); reflexivity.
Qed.

(** The second half of the [try] block, by how composition ends: the
    frames rendered, and then either the strip, the two reports of 100, the
    artifact and the callbacks, or nothing more. *)
Lemma renderAndPublish_summary (opts : Options) (w : World)
    (modelFile : File) (model : THREE.Object3D) :
  let rest := renderAndPublish opts w modelFile model in
  let count := orZ (frameCount opts) 18 in
  let ratio := orRatio (ratio opts) Ratio_16_9 in
  let dimensions := getCanvasDimensions ratio in
  let perFrame := map (frameProgress count) (seq 0 (Z.to_nat count)) in
  exists frames,
    snd (generateFrames opts model count dimensions ratio reportFrameProgress)
    = Resolved frames
    /\ match createSpriteStrip frames dimensions (imageLoadOrder w) with
       | Resolved url =>
           let d :=
             makeSpriteStripData w modelFile url (createObjectURL w modelFile)
               count ratio dimensions in
           progressValues (fst rest) = 20 :: perFrame ++ [90; 100; 100]
           /\ publishedData (fst rest) = [d]
           /\ snd rest = callbacksOutcome opts d
       | Rejected e =>
           progressValues (fst rest) = 20 :: perFrame ++ [90]
           /\ publishedData (fst rest) = []
           /\ snd rest = Rejected e
       | NeverSettles =>
           progressValues (fst rest) = 20 :: perFrame ++ [90]
           /\ publishedData (fst rest) = []
           /\ snd rest = NeverSettles
       end.
Proof.
  intros rest count ratio dimensions perFrame.
  unfold rest, renderAndPublish. fold count. fold ratio. fold dimensions.
  rewrite !fst_bind, !snd_bind. cbn [emit fst snd].
  destruct (generateFrames_reports opts model count dimensions ratio)
    as (Hfp & Hfd & frames & Hfr & _).
  fold perFrame in Hfp. change (fun progress : R => [SetProgress (20 + progress * 0.7)])
    with reportFrameProgress in *.
  exists frames. split; [exact Hfr|].
  destruct (generateFrames opts model count dimensions ratio
              reportFrameProgress) as [fe fr].
  cbn [fst snd] in Hfp, Hfd, Hfr |- *. subst fr.
  rewrite !fst_bind, !snd_bind. cbn [emit await fst snd].
  destruct (createSpriteStrip frames dimensions (imageLoadOrder w))
    as [url|e|].
  2,3: rewrite !progressValues_app, !publishedData_app;
       cbn [progressValues publishedData];
       rewrite Hfp, Hfd; cbn [app]; rewrite ?app_nil_r; repeat split.
  set (d := makeSpriteStripData w modelFile url (createObjectURL w modelFile)
              count ratio dimensions).
  cbn zeta. fold d.
  rewrite !fst_bind, !snd_bind. cbn [emit ret fst snd].
  unfold callbacksOutcome.
  destruct (quiet_callOnGenerate opts d) as (Hgp & Hgd).
  destruct (quiet_callOnSubmit opts d) as (Hsp & Hsd).
  destruct (callOnGenerate opts d) as [ge gr].
  destruct (callOnSubmit opts d) as [se sr].
  cbn [fst snd] in Hgp, Hgd, Hsp, Hsd |- *.
  rewrite !progressValues_app, !publishedData_app.
  cbn [progressValues publishedData].
  rewrite Hfp, Hfd, Hgp, Hgd.
  destruct gr as [[]|e|]; [destruct sr as [[]|e|]| |];
    rewrite ?progressValues_app, ?publishedData_app, ?Hsp, ?Hsd;
    cbn [app progressValues publishedData]; rewrite ?app_nil_r;
    repeat split.
Qed.

(** The [try] block as a whole: what it reports and publishes and how it
    ends, by whether the load succeeds. *)
Lemma generateBody_stages (opts : Options) (appliedTexture : option File)
    (w : World) (modelFile : File) (textureFile : option File) :
  let body := generateBody opts appliedTexture w modelFile textureFile in
  let load := loadModel w (createObjectURL w modelFile) in
  match snd load with
  | Resolved loaded =>
      exists model,
        snd (applyTextureBestEffort w loaded
               (textureToUseOf appliedTexture textureFile))
        = Resolved model
        /\ let rest := renderAndPublish opts w modelFile model in
           progressValues (fst body) = 10 :: progressValues (fst rest)
           /\ publishedData (fst body) = publishedData (fst rest)
           /\ snd body = snd rest
  | Rejected e =>
      progressValues (fst body) = [10] /\ publishedData (fst body) = []
      /\ snd body = Rejected e
  | NeverSettles =>
      progressValues (fst body) = [10] /\ publishedData (fst body) = []
      /\ snd body = NeverSettles
  end.
Proof.
  intros body load. unfold body, load, generateBody.
  rewrite !fst_bind, !snd_bind. cbn [emit fst snd].
  destruct (quiet_loadModel w (createObjectURL w modelFile)) as (Hlp & Hld).
  destruct (loadModel w (createObjectURL w modelFile)) as [le [loaded|e|]];
    cbn [fst snd] in Hlp, Hld |- *.
  2,3: cbn [app progressValues publishedData];
       rewrite app_nil_r, Hlp, Hld; repeat split.
  destruct (applyTextureBestEffort_result w loaded
              (textureToUseOf appliedTexture textureFile))
    as ((Htp & Htd) & _ & Htr).
  match type of Htr with _ = Resolved ?m => set (model := m) in * end.
  exists model. split; [exact Htr|].
  rewrite !fst_bind, !snd_bind.
  destruct (applyTextureBestEffort w loaded
              (textureToUseOf appliedTexture textureFile)) as [te tr].
  cbn [fst snd] in Htp, Htd, Htr |- *. subst tr.
  rewrite !progressValues_app, !publishedData_app.
  cbn [progressValues publishedData].
  rewrite Hlp, Hld, Htp, Htd. repeat split.
Qed.

(** Around the [try] block: progress 0 first; the [catch] and [finally]
    blocks report no progress, publish no artifact (they clear it) and
    leave the outcome as it is. *)
Lemma generateSpriteStrip_wraps (opts : Options)
    (appliedTexture : option File) (w : World) (modelFile : File)
    (textureFile : option File) :
  let run :=
    generateSpriteStrip opts appliedTexture w (Some modelFile) textureFile in
  let body := generateBody opts appliedTexture w modelFile textureFile in
  progressValues (fst run) = 0 :: progressValues (fst body)
  /\ publishedData (fst run) = publishedData (fst body)
  /\ snd run = snd body.
Proof.
  intros run body. unfold run, generateSpriteStrip. fold body.
  destruct body as [l [r|e|]];
    cbn [bind emit try_catch finally generateCatch throw fst snd app
         progressValues publishedData];
    rewrite ?progressValues_app, ?publishedData_app;
    cbn [progressValues publishedData]; rewrite ?app_nil_r;
    repeat split.
Qed.

(** *** Progress is monotone *)

Lemma StronglySorted_app_l (l1 l2 : list R) :
  StronglySorted Rle (l1 ++ l2) -> StronglySorted Rle l1.
Proof.
  induction l1 as [|a l1 IH]; intros Hs; [constructor|].
  cbn [app] in Hs. inversion Hs as [|? ? Hs' Hf]; subst.
  constructor; [apply IH; exact Hs'|].
  apply Forall_app in Hf. apply Hf.
Qed.

Lemma StronglySorted_app (l1 l2 : list R) :
  StronglySorted Rle l1 -> StronglySorted Rle l2 ->
  (forall a b, In a l1 -> In b l2 -> a <= b) ->
  StronglySorted Rle (l1 ++ l2).
Proof.
  intros H1 H2 H12. induction H1 as [|a l1 Hs IH Hf]; [exact H2|].
  cbn [app]. constructor.
  - apply IH. intros a' b Ha Hb. apply H12; [right; exact Ha|exact Hb].
  - apply Forall_app. split; [exact Hf|].
    apply Forall_forall. intros b Hb. apply H12; [left; reflexivity|exact Hb].
Qed.

Lemma frameProgress_monotone (frameCount : Z) (i j : nat) :
  (0 < frameCount)%Z -> (i <= j)%nat ->
  frameProgress frameCount i <= frameProgress frameCount j.
Proof.
  intros Hfc Hij. unfold frameProgress.
  assert (Hn : 0 < IZR frameCount) by (apply IZR_lt; exact Hfc).
  assert (Hle : INR i <= INR j) by (apply le_INR; exact Hij).
  assert (Hinv : 0 < / IZR frameCount) by (apply Rinv_0_lt_compat; exact Hn).
  unfold Rdiv. nra.
Qed.

Lemma frameProgress_bounds (frameCount : Z) (i : nat) :
  (i < Z.to_nat frameCount)%nat ->
  20 <= frameProgress frameCount i <= 21.
Proof.
  intros Hi. unfold frameProgress.
  assert (Hfc : (0 < frameCount)%Z) by lia.
  assert (Hn : 0 < IZR frameCount) by (apply IZR_lt; exact Hfc).
  assert (H0 : 0 <= INR i) by apply pos_INR.
  assert (Hlt : INR i < IZR frameCount).
  { rewrite INR_IZR_INZ. apply IZR_lt. lia. }
  assert (Hq : 0 <= INR i / IZR frameCount <= 1).
  { split.
    - apply Rmult_le_pos; [exact H0|]. apply Rlt_le, Rinv_0_lt_compat, Hn.
    - apply (Rmult_le_reg_r (IZR frameCount)); [exact Hn|].
      unfold Rdiv. rewrite Rmult_assoc, Rinv_l by lra. lra. }
  lra.
Qed.

Lemma perFrame_sorted (frameCount : Z) (a len : nat) :
  (a + len <= Z.to_nat frameCount)%nat ->
  StronglySorted Rle (map (frameProgress frameCount) (seq a len)).
Proof.
  revert a. induction len as [|len IH]; intros a Hb; [constructor|].
  cbn [seq map]. constructor; [apply IH; lia|].
  apply Forall_forall. intros v Hv. apply in_map_iff in Hv.
  destruct Hv as (j & <- & Hj). apply in_seq in Hj.
  apply frameProgress_monotone; lia.
Qed.

Lemma fullProgress_sorted (frameCount : Z) :
  StronglySorted Rle (fullProgress frameCount).
Proof.
  unfold fullProgress.
  assert (Hb : forall v,
             In v (map (frameProgress frameCount)
                     (seq 0 (Z.to_nat frameCount))) ->
             20 <= v <= 21).
  { intros v Hv. apply in_map_iff in Hv. destruct Hv as (j & <- & Hj).
    apply in_seq in Hj. apply frameProgress_bounds. lia. }
  apply StronglySorted_app; [|apply StronglySorted_app|].
  - repeat constructor; lra.
  - apply perFrame_sorted. lia.
  - repeat constructor; lra.
  - intros a b Ha Hb'. specialize (Hb a Ha).
    cbn [In] in Hb'. destruct Hb' as [<-|[<-|[<-|[]]]]; lra.
  - intros a b Ha Hb'. apply in_app_or in Hb'.
    assert (Ha' : 0 <= a <= 20).
    { cbn [In] in Ha. destruct Ha as [<-|[<-|[<-|[]]]]; lra. }
    destruct Hb' as [Hb'|Hb'].
    + specialize (Hb b Hb'). lra.
    + cbn [In] in Hb'. destruct Hb' as [<-|[<-|[<-|[]]]]; lra.
Qed.

Lemma hundred_not_before_composition (frameCount : Z) :
  ~ In 100
      (0 :: 10 :: 20
         :: map (frameProgress frameCount) (seq 0 (Z.to_nat frameCount))
         ++ [90]).
Proof.
  intros Hin. cbn [In] in Hin.
  destruct Hin as [H|[H|[H|Hin]]]; try lra.
  apply in_app_or in Hin. destruct Hin as [Hin|Hin].
  - apply in_map_iff in Hin. destruct Hin as (j & Hj & Hs).
    apply in_seq in Hs.
    assert (Hb := frameProgress_bounds frameCount j ltac:(lia)). lra.
  - cbn [In] in Hin. destruct Hin as [H|[]]. lra.
Qed.

(** The three ways a run on a model file can go. *)
Lemma generateSpriteStrip_cases (opts : Options)
    (appliedTexture : option File) (w : World) (modelFile : File)
    (textureFile : option File) :
  let run :=
    generateSpriteStrip opts appliedTexture w (Some modelFile) textureFile in
  let load := loadModel w (createObjectURL w modelFile) in
  let count := orZ (frameCount opts) 18 in
  let perFrame := map (frameProgress count) (seq 0 (Z.to_nat count)) in
  ((forall m, snd load <> Resolved m)
   /\ progressValues (fst run) = [0; 10]
   /\ publishedData (fst run) = []
   /\ ~ reachesDone run)
  \/ ((exists m, snd load = Resolved m)
      /\ progressValues (fst run) = 0 :: 10 :: 20 :: perFrame ++ [90]
      /\ publishedData (fst run) = []
      /\ ~ reachesDone run)
  \/ ((exists m, snd load = Resolved m)
      /\ exists d,
           progressValues (fst run) = fullProgress count
           /\ publishedData (fst run) = [d]
           /\ snd run = callbacksOutcome opts d).
Proof.
  intros run load count perFrame.
  destruct (generateSpriteStrip_wraps opts appliedTexture w modelFile
              textureFile) as (Hp & Hd & Hs).
  fold run in Hp, Hd, Hs.
  assert (Hb := generateBody_stages opts appliedTexture w modelFile
                  textureFile).
  cbn zeta in Hb. fold load in Hb.
  unfold reachesDone. rewrite Hp, Hd, Hs.
  destruct (snd load) as [loaded|e|].
  - destruct Hb as (model & _ & Hbp & Hbd & Hbs).
    rewrite Hbp, Hbd, Hbs.
    destruct (renderAndPublish_summary opts w modelFile model)
      as (frames & _ & Hr).
    fold count in Hr. fold perFrame in Hr.
    destruct (createSpriteStrip frames _ (imageLoadOrder w)) as [url|e|].
    + right. right. split; [eexists; reflexivity|].
      destruct Hr as (Hrp & Hrd & Hrs). eexists.
      rewrite Hrp, Hrd, Hrs. repeat split.
    + right. left. split; [eexists; reflexivity|].
      destruct Hr as (Hrp & Hrd & Hrs). rewrite Hrp, Hrd, Hrs.
      repeat split. intros (d & Hd'). discriminate.
    + right. left. split; [eexists; reflexivity|].
      destruct Hr as (Hrp & Hrd & Hrs). rewrite Hrp, Hrd, Hrs.
      repeat split. intros (d & Hd'). discriminate.
  - left. destruct Hb as (Hbp & Hbd & Hbs). rewrite Hbp, Hbd, Hbs.
    repeat split; try discriminate. intros (d & Hd'). discriminate.
  - left. destruct Hb as (Hbp & Hbd & Hbs). rewrite Hbp, Hbd, Hbs.
    repeat split; try discriminate. intros (d & Hd'). discriminate.
Qed.

Lemma callbacksOutcome_done (opts : Options) (d d' : SpriteStripData) :
  callbacksOutcome opts d = Resolved (Some d') -> d' = d.
Proof.
  unfold callbacksOutcome.
  destruct (snd (callOnGenerate opts d)); try discriminate.
  destruct (snd (callOnSubmit opts d)); try discriminate.
  intros H. injection H as <-. reflexivity.
Qed.

(** C7, amended.  Over any run the progress values never decrease, and a run
    that reaches Done has reported 100.  100 is reported exactly when the
    artifact is published, which is after the strip is composed and before
    the callbacks: so a run whose model does not load never reports 100,
    while a run that fails in [onGenerate] or in the awaited [onSubmit] has
    reported it. *)
Theorem progress_monotone_hundred_with_artifact (opts : Options)
    (appliedTexture : option File) (w : World)
    (modelFile textureFile : option File) :
  let run := generateSpriteStrip opts appliedTexture w modelFile textureFile in
  StronglySorted Rle (progressValues (fst run))
  /\ (reachesDone run -> reportsHundred run)
  /\ (reportsHundred run <-> publishesData run)
  /\ (forall file,
        modelFile = Some file ->
        (forall m, snd (loadModel w (createObjectURL w file)) <> Resolved m) ->
        ~ reportsHundred run)
  /\ (forall d,
        publishedData (fst run) = [d] -> snd run = callbacksOutcome opts d).
Proof.
  intros run. unfold run, reportsHundred, publishesData.
  destruct modelFile as [file|].
  2: { cbn [generateSpriteStrip ret fst snd progressValues publishedData].
       unfold reachesDone. cbn [snd].
       repeat split; try (intros; discriminate); try constructor.
       - intros (d & Hd). discriminate.
       - intros [].
       - intros (d & []). }
  destruct (generateSpriteStrip_cases opts appliedTexture w file textureFile)
    as [(Hl & Hp & Hd & Hn)|[(Hl & Hp & Hd & Hn)|(Hl & d & Hp & Hd & Hs)]];
    rewrite Hp, Hd.
  - repeat split.
    + repeat constructor; lra.
    + intros Hdone. contradiction.
    + cbn [In]. intros [H|[H|[]]]; lra.
    + intros (d & []).
    + intros file' _ _. cbn [In]. intros [H|[H|[]]]; lra.
    + intros d Hd'. discriminate.
  - repeat split.
    + apply (StronglySorted_app_l _ [100; 100]).
      assert (Hf := fullProgress_sorted (orZ (frameCount opts) 18)).
      unfold fullProgress in Hf. cbn [app] in Hf |- *.
      rewrite <- app_assoc. exact Hf.
    + intros Hdone. contradiction.
    + intros H. exfalso. exact (hundred_not_before_composition _ H).
    + intros (d & []).
    + intros file' _ _. apply hundred_not_before_composition.
    + intros d Hd'. discriminate.
  - assert (Hin : In 100 (fullProgress (orZ (frameCount opts) 18))).
    { unfold fullProgress. cbn [app]. right. right. right.
      apply in_or_app. right. right. left. reflexivity. }
    repeat split.
    + apply fullProgress_sorted.
    + intros _. exact Hin.
    + intros _. exists d. left. reflexivity.
    + intros _. exact Hin.
    + intros file' Hfile Hno. injection Hfile as <-.
      destruct Hl as (m & Hm). exfalso. exact (Hno m Hm).
    + intros d' Hd'. injection Hd' as <-. exact Hs.
Qed.

(** ** Best-effort texturing *)

(** What the texture step does when the texture does not load. *)
Lemma applyTextureBestEffort_failure (w : World) (model : THREE.Object3D)
    (texture : File) (err : Thrown) :
  textureLoader w (createObjectURL w texture) = inr err ->
  applyTextureBestEffort w model (Some texture)
  = ([Console LevelLog "Applying texture to model:"
        [ArgText (fileName texture)];
      Console LevelError "Failed to load texture:" [ArgThrown err];
      RevokeObjectURL (createObjectURL w texture);
      Console LevelWarn
        "Failed to apply texture, continuing without texture:"
        [ArgThrown (ErrorObject "Failed to load texture file")]],
     Resolved model).
Proof.
  intros Hfail. unfold applyTextureBestEffort, applyTextureToModel.
  rewrite Hfail. reflexivity.
Qed.

Lemma renderedModels_withoutDiagnostics (l : list Event) :
  renderedModels (withoutDiagnostics l) = renderedModels l.
Proof.
  unfold withoutDiagnostics. induction l as [|ev l IH]; [reflexivity|].
  destruct ev; cbn [filter isDiagnostic negb renderedModels];
    rewrite ?IH; reflexivity.
Qed.

Lemma progressValues_withoutDiagnostics (l : list Event) :
  progressValues (withoutDiagnostics l) = progressValues l.
Proof.
  unfold withoutDiagnostics. induction l as [|ev l IH]; [reflexivity|].
  destruct ev; cbn [filter isDiagnostic negb progressValues];
    rewrite ?IH; reflexivity.
Qed.

Lemma withoutDiagnostics_app (l1 l2 : list Event) :
  withoutDiagnostics (l1 ++ l2)
  = withoutDiagnostics l1 ++ withoutDiagnostics l2.
Proof. apply filter_app. Qed.

(** The blocks around the [try] block treat two bodies alike when these end
    alike and differ in diagnostics only. *)
Lemma wrapper_congruence (b1 b2 : Async (option SpriteStripData)) :
  snd b1 = snd b2 ->
  withoutDiagnostics (fst b1) = withoutDiagnostics (fst b2) ->
  let wrap := fun b : Async (option SpriteStripData) =>
    emit (SetIsGenerating true) ;;
    emit (SetProgress 0) ;;
    emit (SetError None) ;;
    finally (try_catch b generateCatch) [SetIsGenerating false] in
  snd (wrap b1) = snd (wrap b2)
  /\ withoutDiagnostics (fst (wrap b1)) = withoutDiagnostics (fst (wrap b2)).
Proof.
  destruct b1 as [l1 r1], b2 as [l2 r2]. cbn [fst snd].
  intros <- Hl.
  destruct r1 as [r|e|];
    cbn [bind emit try_catch finally generateCatch throw fst snd app];
    (split; [reflexivity|]);
    change (?a :: ?b :: ?c :: ?l) with ([a; b; c] ++ l);
    rewrite !withoutDiagnostics_app, Hl; reflexivity.
Qed.

(** Rendering never touches the meshes. *)
Lemma prepareModel_meshes (model : THREE.Object3D) (t : ModelTransform) :
  cloneMeshes (prepareModel model t) = THREE.meshes model.
Proof.
  unfold prepareModel. destruct (tscale t); cbn [cloneMeshes];
    try reflexivity.
  unfold poseModel. rewrite recenterIfOff_meshes. reflexivity.
Qed.

Lemma frameModel_meshes (m0 : Clone) (frameCount : Z) (i : nat) :
  cloneMeshes (frameModel m0 frameCount i) = cloneMeshes m0.
Proof.
  destruct m0; cbn [frameModel cloneMeshes]; [|reflexivity].
  rewrite recenterIfOff_meshes. reflexivity.
Qed.

Lemma renderedModels_callbacks (opts : Options) (d : SpriteStripData) :
  renderedModels (fst (callOnGenerate opts d)) = []
  /\ renderedModels (fst (callOnSubmit opts d)) = [].
Proof.
  unfold callOnGenerate, callOnSubmit.
  destruct (onGenerate opts) as [f|]; [destruct (f d)|];
    (destruct (onSubmit opts) as [g|]; [destruct (g d)|]);
    split; reflexivity.
Qed.

Lemma renderAndPublish_renders (opts : Options) (w : World)
    (modelFile : File) (model : THREE.Object3D) :
  Forall (fun o => materialsOf o = materialsOf model)
    (renderedModels (fst (renderAndPublish opts w modelFile model))).
Proof.
  unfold renderAndPublish.
  rewrite !fst_bind. cbn [emit fst snd].
  change (fun progress : R => [SetProgress (20 + progress * 0.7)])
    with reportFrameProgress.
  rewrite generateFrames_spec. cbn [fst snd].
  rewrite !fst_bind. cbn [emit await fst snd].
  rewrite !renderedModels_app.
  rewrite (renderedModels_frames _ _ _ _ _ _ reportFrameProgress_rendersNothing).
  cbn [renderedModels app].
  apply Forall_app. split.
  - apply Forall_forall. intros o Ho. apply in_map_iff in Ho.
    destruct Ho as (i & <- & _). unfold materialsOf.
    rewrite frameModel_meshes, prepareModel_meshes. reflexivity.
  - destruct (createSpriteStrip _ _ _) as [url|e|]; [|constructor..].
    rewrite !fst_bind. cbn [emit ret fst snd].
    rewrite !renderedModels_app. cbn [renderedModels app].
    destruct (renderedModels_callbacks opts
                (makeSpriteStripData w modelFile url
                   (createObjectURL w modelFile) (orZ (frameCount opts) 18)
                   (orRatio (ratio opts) Ratio_16_9)
                   (getCanvasDimensions (orRatio (ratio opts) Ratio_16_9))))
      as (Hg & Hs).
    rewrite Hg. cbn [app].
    destruct (snd (callOnGenerate opts _)); [|constructor..].
    rewrite renderedModels_app, Hs. cbn [app].
    destruct (snd (callOnSubmit opts _)); constructor.
Qed.

Lemma renderedModels_loadModel (w : World) (url : string) :
  renderedModels (fst (loadModel w url)) = [].
Proof.
  unfold loadModel.
  destruct (gltfLoader w url); [reflexivity|].
  destruct (fbxLoader w url); [reflexivity|].
  destruct (objLoader w url); reflexivity.
Qed.

Lemma generateSpriteStrip_events (opts : Options)
    (appliedTexture : option File) (w : World) (modelFile : File)
    (textureFile : option File) :
  let run :=
    generateSpriteStrip opts appliedTexture w (Some modelFile) textureFile in
  let body := generateBody opts appliedTexture w modelFile textureFile in
  renderedModels (fst run) = renderedModels (fst body)
  /\ (forall ev, In ev (fst body) -> In ev (fst run)).
Proof.
  intros run body. unfold run, generateSpriteStrip. fold body.
  destruct body as [l [r|e|]];
    cbn [bind emit try_catch finally generateCatch throw fst snd app];
    (split;
     [cbn [renderedModels]; rewrite ?renderedModels_app;
      cbn [renderedModels]; rewrite ?app_nil_r; reflexivity
     |intros ev Hev; right; right; right;
      try (apply in_or_app; left); try (apply in_or_app; left); exact Hev]).
Qed.

(** The [try] block when the texture does not load, next to the same block
    without a texture: the same model goes on to be rendered. *)
Lemma generateBody_texture_failure (opts : Options) (w : World)
    (modelFile : File) (appliedTexture textureFile : option File)
    (texture : File) (err : Thrown) :
  textureToUseOf appliedTexture textureFile = Some texture ->
  textureLoader w (createObjectURL w texture) = inr err ->
  let body := generateBody opts appliedTexture w modelFile textureFile in
  let plain := generateBody opts None w modelFile None in
  snd body = snd plain
  /\ withoutDiagnostics (fst body) = withoutDiagnostics (fst plain)
  /\ (forall loaded,
        snd (loadModel w (createObjectURL w modelFile)) = Resolved loaded ->
        renderedModels (fst body)
        = renderedModels (fst (renderAndPublish opts w modelFile loaded))
        /\ In (Console LevelWarn
                 "Failed to apply texture, continuing without texture:"
                 [ArgThrown (ErrorObject "Failed to load texture file")])
              (fst body)).
Proof.
  intros Htu Hfail body plain. unfold body, plain, generateBody.
  rewrite Htu. cbn [textureToUseOf].
  rewrite !fst_bind, !snd_bind. cbn [emit fst snd].
  assert (Hlr := renderedModels_loadModel w (createObjectURL w modelFile)).
  destruct (loadModel w (createObjectURL w modelFile)) as [le [loaded|e|]];
    cbn [fst snd] in Hlr |- *.
  2,3: (split; [reflexivity|split; [reflexivity|]]);
       intros ? Hl; discriminate Hl.
  rewrite !fst_bind, !snd_bind.
  rewrite (applyTextureBestEffort_failure w loaded texture err Hfail).
  cbn [applyTextureBestEffort ret fst snd].
  split; [reflexivity|]. split.
  - rewrite !withoutDiagnostics_app. reflexivity.
  - intros loaded' Hl. injection Hl as <-. split.
    + rewrite !renderedModels_app, Hlr. reflexivity.
    + cbn [app]. right. apply in_or_app. right.
      right. right. right. left. reflexivity.
Qed.

(** C9.  When a run without a texture succeeds, the run on the same input
    with a texture that fails to load succeeds with the same artifact; apart
    from console output and URL bookkeeping it performs the same events, so
    it renders the same scenes, with the materials the loader gave the
    model; and the failure is recorded as a warning. *)
Theorem texture_failure_keeps_outcome (opts : Options) (w : World)
    (modelFile appliedTexture textureFile : option File) (texture : File)
    (err : Thrown) (d : SpriteStripData) :
  textureToUseOf appliedTexture textureFile = Some texture ->
  textureLoader w (createObjectURL w texture) = inr err ->
  let plain := generateSpriteStrip opts None w modelFile None in
  let run := generateSpriteStrip opts appliedTexture w modelFile textureFile in
  snd plain = Resolved (Some d) ->
  snd run = Resolved (Some d)
  /\ withoutDiagnostics (fst run) = withoutDiagnostics (fst plain)
  /\ (exists file loaded,
        modelFile = Some file
        /\ snd (loadModel w (createObjectURL w file)) = Resolved loaded
        /\ Forall (fun o => materialsOf o = materialsOf loaded)
             (renderedModels (fst run)))
  /\ In (Console LevelWarn
           "Failed to apply texture, continuing without texture:"
           [ArgThrown (ErrorObject "Failed to load texture file")])
        (fst run).
Proof.
  intros Htu Hfail plain run Hdone.
  destruct modelFile as [file|]; [|discriminate Hdone].
  destruct (generateBody_texture_failure opts w file appliedTexture
              textureFile texture err Htu Hfail) as (Hs & He & Hl).
  destruct (wrapper_congruence _ _ Hs He) as (Hws & Hwe).
  change (snd run = snd plain) in Hws.
  change (withoutDiagnostics (fst run) = withoutDiagnostics (fst plain))
    in Hwe.
  split; [rewrite Hws; exact Hdone|]. split; [exact Hwe|].
  destruct (generateSpriteStrip_events opts appliedTexture w file textureFile)
    as (Hrr & Hin).
  fold run in Hrr, Hin.
  assert (Hload : exists loaded,
             snd (loadModel w (createObjectURL w file)) = Resolved loaded).
  { destruct (generateSpriteStrip_cases opts None w file None)
      as [(_ & _ & _ & Hn)|[(_ & _ & _ & Hn)|(Hm & _)]];
      [exfalso; apply Hn; exists d; exact Hdone..|exact Hm]. }
  destruct Hload as (loaded & Hload).
  destruct (Hl loaded Hload) as (Hren & Hwarn).
  split.
  - exists file, loaded. repeat split; [exact Hload|].
    rewrite Hrr, Hren. apply renderAndPublish_renders.
  - apply Hin. exact Hwarn.
Qed.

(** A run whose model loads and whose frame images all load composes the
    strip, reports every progress value and publishes the artifact; the
    callbacks then decide how it ends. *)
Lemma composition_completes (opts : Options) (appliedTexture : option File)
    (w : World) (modelFile : File) (textureFile : option File)
    (loaded : THREE.Object3D) :
  let run :=
    generateSpriteStrip opts appliedTexture w (Some modelFile) textureFile in
  let count := orZ (frameCount opts) 18 in
  snd (loadModel w (createObjectURL w modelFile)) = Resolved loaded ->
  (1 <= count)%Z ->
  Permutation (imageLoadOrder w) (seq 0 (Z.to_nat count)) ->
  exists d,
    progressValues (fst run) = fullProgress count
    /\ publishedData (fst run) = [d]
    /\ snd run = callbacksOutcome opts d.
Proof.
  intros run count Hload Hcount Hperm.
  destruct (generateSpriteStrip_wraps opts appliedTexture w modelFile
              textureFile) as (Hp & Hd & Hs).
  fold run in Hp, Hd, Hs.
  assert (Hb := generateBody_stages opts appliedTexture w modelFile
                  textureFile).
  cbn zeta in Hb. rewrite Hload in Hb.
  destruct Hb as (model & _ & Hbp & Hbd & Hbs).
  destruct (renderAndPublish_summary opts w modelFile model)
    as (frames & Hfr & Hr).
  destruct (generateFrames_reports opts model count
              (getCanvasDimensions (orRatio (ratio opts) Ratio_16_9))
              (orRatio (ratio opts) Ratio_16_9))
    as (_ & _ & frames' & Hfr' & Hlen & Hsized).
  change (fun progress : R => [SetProgress (20 + progress * 0.7)])
    with reportFrameProgress in Hfr'.
  fold count in Hfr. rewrite Hfr in Hfr'. injection Hfr' as <-.
  assert (Hdec : Forall decodes frames).
  { eapply Forall_impl; [|exact Hsized].
    intros u (img & -> & _). exists img. reflexivity. }
  rewrite <- Hlen in Hperm.
  rewrite (createSpriteStrip_resolves frames _ (imageLoadOrder w) Hdec
             ltac:(lia) Hperm) in Hr.
  cbn zeta in Hr. destruct Hr as (Hrp & Hrd & Hrs).
  eexists. rewrite Hp, Hd, Hs, Hbp, Hbd, Hbs, Hrp, Hrd, Hrs.
  repeat split.
Qed.

(** * Further properties of the hook *)

(** ** The events of a run, in full *)

(** Every run on a model file, spelled out by how its stages end. *)
Lemma generateSpriteStrip_shape (opts : Options)
    (appliedTexture : option File) (w : World) (modelFile : File)
    (textureFile : option File) :
  let run :=
    generateSpriteStrip opts appliedTexture w (Some modelFile) textureFile in
  let count := orZ (frameCount opts) 18 in
  let ratio := orRatio (ratio opts) Ratio_16_9 in
  let dimensions := getCanvasDimensions ratio in
  let url := createObjectURL w modelFile in
  let load := loadModel w url in
  match snd load with
  | Resolved loaded =>
      let texturing :=
        applyTextureBestEffort w loaded
          (textureToUseOf appliedTexture textureFile) in
      exists model frames,
        snd texturing = Resolved model
        /\ snd (generateFrames opts model count dimensions ratio
                  reportFrameProgress) = Resolved frames
        /\ let rendering :=
             fst (generateFrames opts model count dimensions ratio
                    reportFrameProgress) in
           let upTo90 :=
             runPrefix ++ fst load ++ fst texturing
               ++ [SetProgress 20] ++ rendering ++ [SetProgress 90] in
           match createSpriteStrip frames dimensions (imageLoadOrder w) with
           | Resolved strip =>
               let d :=
                 makeSpriteStripData w modelFile strip url count ratio
                   dimensions in
               let generate := callOnGenerate opts d in
               let submit := callOnSubmit opts d in
               let published :=
                 upTo90 ++ [SetProgress 100; SetGeneratedData (Some d);
                            SetProgress 100] ++ fst generate in
               match snd generate with
               | Resolved _ =>
                   run = (published ++ fst submit ++ settleEvents (snd submit),
                          match snd submit with
                          | Resolved _ => Resolved (Some d)
                          | Rejected e => Rejected e
                          | NeverSettles => NeverSettles
                          end)
               | Rejected e =>
                   run = (published ++ settleEvents (@Rejected unit e),
                          Rejected e)
               | NeverSettles => run = (published, NeverSettles)
               end
           | Rejected e =>
               run = (upTo90 ++ settleEvents (@Rejected unit e), Rejected e)
           | NeverSettles => run = (upTo90, NeverSettles)
           end
  | Rejected e =>
      run = (runPrefix ++ fst load ++ settleEvents (@Rejected unit e),
             Rejected e)
  | NeverSettles => run = (runPrefix ++ fst load, NeverSettles)
  end.
Proof.
  intros run count ratio dimensions url load.
  unfold run, generateSpriteStrip, generateBody, load. fold url.
  destruct (loadModel w url) as [le [loaded|e|]];
    cbn [bind emit try_catch finally generateCatch throw fst snd app
         settleEvents catchEvents runPrefix].
  2,3: repeat first [rewrite <- app_assoc | progress cbn [app]]; reflexivity.
  destruct (applyTextureBestEffort_result w loaded
              (textureToUseOf appliedTexture textureFile))
    as (_ & _ & Htr).
  match type of Htr with _ = Resolved ?m => set (model := m) in * end.
  destruct (applyTextureBestEffort w loaded
              (textureToUseOf appliedTexture textureFile)) as [te tr].
  cbn [snd] in Htr. subst tr.
  cbn [bind emit fst snd app].
  unfold renderAndPublish. fold count. fold ratio. fold dimensions. fold url.
  change (fun progress : R => [SetProgress (20 + progress * 0.7)])
    with reportFrameProgress.
  destruct (generateFrames opts model count dimensions ratio
              reportFrameProgress) as [fe [frames|e|]] eqn:Hgf.
  2,3: exfalso; rewrite generateFrames_spec in Hgf; discriminate Hgf.
  exists model, frames. cbn zeta. rewrite !Hgf.
  split; [reflexivity|]. split; [reflexivity|].
  cbn [bind emit await fst snd app].
  destruct (createSpriteStrip frames dimensions (imageLoadOrder w))
    as [strip|e|];
    cbn [bind emit ret await try_catch finally generateCatch throw fst snd app
         settleEvents catchEvents runPrefix].
  2,3: repeat first [rewrite <- app_assoc | progress cbn [app]]; reflexivity.
  set (d := makeSpriteStripData w modelFile strip url count ratio dimensions).
  destruct (callOnGenerate opts d) as [ge [[]|e|]];
    [destruct (callOnSubmit opts d) as [se [[]|e|]]| |];
    cbn [bind emit ret await try_catch finally generateCatch throw fst snd app
         settleEvents catchEvents runPrefix];
    repeat first [rewrite <- app_assoc | progress cbn [app]];
    rewrite ?app_nil_r; reflexivity.
Qed.

(** ** When composition completes *)

Lemma onload_keeps_size (frames : list DataUrl) (dimensions : Dimensions)
    (st : StripState) (index : nat) :
  let st' := onload frames dimensions st index in
  canvasWidth (stripCanvas st') = canvasWidth (stripCanvas st)
  /\ canvasHeight (stripCanvas st') = canvasHeight (stripCanvas st)
  /\ (loadedImages st'
      = loadedImages st + (if firesOnload frames index then 1 else 0))%nat
  /\ (forall u, resolvedWith st' = Some u ->
        resolvedWith st = Some u
        \/ (u = toDataURL (stripCanvas st')
            /\ loadedImages st' = List.length frames)).
Proof.
  unfold onload, firesOnload.
  destruct (nth_error frames index) as [[img|s]|]; cbn zeta;
    try (repeat split; try lia; intros u Hu; left; exact Hu).
  cbn [stripCanvas loadedImages resolvedWith drawImage canvasWidth
       canvasHeight].
  repeat split; try lia.
  intros u Hu. destruct (resolvedWith st) as [u0|]; [left; exact Hu|].
  right. destruct (Nat.eqb_spec (S (loadedImages st)) (List.length frames))
    as [E|E]; [|discriminate Hu].
  injection Hu as <-. split; [reflexivity|exact E].
Qed.

(** While the images load: the canvas keeps its size, the counter counts
    the images that fired, and a resolved promise holds a snapshot of that
    size taken when the counter stood at the number of frames. *)
Lemma onload_fold_any (frames : list DataUrl) (dimensions : Dimensions)
    (loadOrder : list nat) (st : StripState) :
  let st' := fold_left (onload frames dimensions) loadOrder st in
  canvasWidth (stripCanvas st') = canvasWidth (stripCanvas st)
  /\ canvasHeight (stripCanvas st') = canvasHeight (stripCanvas st)
  /\ (loadedImages st'
      = loadedImages st
        + List.length (filter (firesOnload frames) loadOrder))%nat
  /\ (forall u, resolvedWith st' = Some u ->
        resolvedWith st = Some u
        \/ (exists strip,
              u = Png strip
              /\ naturalWidth strip = canvasWidth (stripCanvas st)
              /\ naturalHeight strip = canvasHeight (stripCanvas st))
           /\ (List.length frames <= loadedImages st')%nat).
Proof.
  revert st. induction loadOrder as [|i l IH]; intros st.
  - cbn. repeat split; try lia. intros u Hu. left. exact Hu.
  - cbn [fold_left filter].
    destruct (onload_keeps_size frames dimensions st i)
      as (Hw & Hh & Hl & Hr).
    destruct (IH (onload frames dimensions st i)) as (Hw' & Hh' & Hl' & Hr').
    cbn zeta in *. rewrite Hw', Hh', Hl', Hl, Hw, Hh.
    repeat split.
    + destruct (firesOnload frames i); cbn [List.length]; lia.
    + intros u Hu. destruct (Hr' u Hu) as [Hprev|Hnew].
      * destruct (Hr u Hprev) as [Hst|(-> & Hn)]; [left; exact Hst|].
        right. split.
        -- eexists. split; [reflexivity|]. cbn [naturalWidth naturalHeight].
           rewrite Hw, Hh. split; reflexivity.
        -- rewrite <- Hn. lia.
      * right. destruct Hnew as ((strip & -> & Hsw & Hsh) & Hn).
        split.
        -- exists strip. rewrite Hsw, Hsh, Hw, Hh. repeat split.
        -- rewrite Hl', Hl in Hn. exact Hn.
Qed.

(** With no frames there is no image to wait for, and nothing resolves the
    promise. *)
Lemma createSpriteStrip_empty (dimensions : Dimensions) (loadOrder : list nat) :
  createSpriteStrip [] dimensions loadOrder = NeverSettles.
Proof.
  unfold createSpriteStrip.
  assert (Hnone : forall l st,
             resolvedWith st = None ->
             resolvedWith (fold_left (onload [] dimensions) l st) = None).
  { induction l as [|j l IH]; intros st Hst; [exact Hst|].
    cbn [fold_left]. apply IH. unfold onload.
    destruct j; cbn [nth_error]; exact Hst. }
  rewrite Hnone; reflexivity.
Qed.

(** A resolved promise holds a strip as wide as all frames and as high as
    one, and there was a frame. *)
Lemma createSpriteStrip_resolved_size (frames : list DataUrl)
    (dimensions : Dimensions) (loadOrder : list nat) (u : DataUrl) :
  createSpriteStrip frames dimensions loadOrder = Resolved u ->
  (1 <= List.length frames)%nat
  /\ exists strip,
       u = Png strip
       /\ naturalWidth strip
          = (width dimensions * Z.of_nat (List.length frames))%Z
       /\ naturalHeight strip = height dimensions.
Proof.
  intros Hres. split.
  - destruct frames as [|f fs]; [|cbn; lia].
    rewrite createSpriteStrip_empty in Hres. discriminate Hres.
  - unfold createSpriteStrip in Hres.
    set (start := mkStripState _ 0 None) in Hres.
    destruct (onload_fold_any frames dimensions loadOrder start)
      as (_ & _ & _ & Hr).
    cbn zeta in Hr.
    destruct (resolvedWith
                (fold_left (onload frames dimensions) loadOrder start))
      as [u'|] eqn:E; [|discriminate Hres].
    injection Hres as ->.
    destruct (Hr u eq_refl) as [Hc|((strip & -> & Hsw & Hsh) & _)];
      [discriminate Hc|].
    exists strip. repeat split; assumption.
Qed.

(** X1.  [createSpriteStrip] resolves only when every frame has decoded and
    loaded: if its promise resolves although each image fires [onload] at
    most once, then there is at least one frame, every frame is an image,
    every frame's [onload] is among the events, and the strip has the width
    of all frames and the height of one. *)
Theorem createSpriteStrip_resolves_only_when_all_loaded
    (frames : list DataUrl) (dimensions : Dimensions) (loadOrder : list nat)
    (u : DataUrl) :
  NoDup loadOrder ->
  createSpriteStrip frames dimensions loadOrder = Resolved u ->
  (1 <= List.length frames)%nat
  /\ Forall decodes frames
  /\ (forall i, (i < List.length frames)%nat -> In i loadOrder)
  /\ exists strip,
       u = Png strip
       /\ naturalWidth strip
          = (width dimensions * Z.of_nat (List.length frames))%Z
       /\ naturalHeight strip = height dimensions.
Proof.
  intros Hnd Hres.
  destruct (createSpriteStrip_resolved_size _ _ _ _ Hres) as (Hpos & _).
  unfold createSpriteStrip in Hres.
  set (start := mkStripState _ 0 None) in Hres.
  destruct (onload_fold_any frames dimensions loadOrder start)
    as (_ & _ & Hl & Hr).
  cbn zeta in Hl, Hr.
  destruct (resolvedWith (fold_left (onload frames dimensions) loadOrder start))
    as [u'|] eqn:E; [|discriminate Hres].
  injection Hres as ->.
  destruct (Hr u eq_refl) as [Hc|((strip & -> & Hsw & Hsh) & Hn)];
    [discriminate Hc|].
  rewrite Hl in Hn. cbn [start loadedImages Nat.add] in Hn.
  set (fired := filter (firesOnload frames) loadOrder) in *.
  assert (Hfnd : NoDup fired) by (apply NoDup_filter; exact Hnd).
  assert (Hincl : incl fired (seq 0 (List.length frames))).
  { intros i Hi. apply filter_In in Hi. destruct Hi as (_ & Hf).
    apply in_seq. unfold firesOnload in Hf.
    destruct (nth_error frames i) eqn:En; [|discriminate Hf].
    assert (i < List.length frames)%nat
      by (apply nth_error_Some; rewrite En; discriminate).
    lia. }
  assert (Hback : incl (seq 0 (List.length frames)) fired).
  { apply NoDup_length_incl; [exact Hfnd| |exact Hincl].
    rewrite length_seq. exact Hn. }
  assert (Hall : forall i, (i < List.length frames)%nat ->
                   In i loadOrder /\ firesOnload frames i = true).
  { intros i Hi. apply filter_In. apply Hback, in_seq. lia. }
  split; [exact Hpos|]. split; [|split].
  - apply Forall_forall. intros f Hf. apply In_nth_error in Hf.
    destruct Hf as (i & Hi).
    assert (Hlt : (i < List.length frames)%nat)
      by (apply nth_error_Some; rewrite Hi; discriminate).
    destruct (Hall i Hlt) as (_ & Hfires). unfold firesOnload in Hfires.
    rewrite Hi in Hfires. destruct f as [img|s]; [|discriminate Hfires].
    exists img. reflexivity.
  - intros i Hi. apply Hall. exact Hi.
  - exists strip. repeat split; assumption.
Qed.

(** ** What a finished run hands over *)

(** X2.  A run that reaches Done returns an artifact that agrees with
    itself: its strip image is [metadata.width * frameCount] wide and
    [metadata.height] high, these are the dimensions of its ratio, its frame
    count is the configured one (18 by default) and at least 1, its title is
    the file name without its extension, and it is the artifact that was
    published.  This holds for every order in which the images load. *)
Theorem done_artifact_is_consistent (opts : Options)
    (appliedTexture : option File) (w : World)
    (modelFile textureFile : option File) (d : SpriteStripData) :
  let run := generateSpriteStrip opts appliedTexture w modelFile textureFile in
  snd run = Resolved (Some d) ->
  exists file strip,
    modelFile = Some file
    /\ spriteStripUrl d = Png strip
    /\ naturalWidth strip
       = (metaWidth (metadata d) * dataFrameCount d)%Z
    /\ naturalHeight strip = metaHeight (metadata d)
    /\ mkDimensions (metaWidth (metadata d)) (metaHeight (metadata d))
       = getCanvasDimensions (dataRatio d)
    /\ dataRatio d = orRatio (ratio opts) Ratio_16_9
    /\ dataFrameCount d = orZ (frameCount opts) 18
    /\ (1 <= dataFrameCount d)%Z
    /\ title d = stripExtension (fileName file)
    /\ modelUrl d = createObjectURL w file
    /\ publishedData (fst run) = [d].
Proof.
  intros run Hdone.
  destruct modelFile as [file|]; [|discriminate Hdone].
  exists file.
  assert (Hshape := generateSpriteStrip_shape opts appliedTexture w file
                      textureFile).
  cbn zeta in Hshape. fold run in Hshape.
  destruct (quiet_loadModel w (createObjectURL w file)) as (_ & Hlq).
  destruct (snd (loadModel w (createObjectURL w file))) as [loaded|e|];
    [|rewrite Hshape in Hdone; discriminate Hdone..].
  destruct Hshape as (model & frames & Htex & Hgf & Hshape).
  destruct (applyTextureBestEffort_result w loaded
              (textureToUseOf appliedTexture textureFile))
    as ((_ & Htq) & _ & _).
  destruct (generateFrames_reports opts model (orZ (frameCount opts) 18)
              (getCanvasDimensions (orRatio (ratio opts) Ratio_16_9))
              (orRatio (ratio opts) Ratio_16_9))
    as (_ & Hfq & frames' & Hgf' & Hlen & _).
  change (fun progress : R => [SetProgress (20 + progress * 0.7)])
    with reportFrameProgress in Hgf', Hfq.
  rewrite Hgf in Hgf'. injection Hgf' as <-.
  destruct (createSpriteStrip frames _ (imageLoadOrder w)) as [url|e|] eqn:Hc;
    [|rewrite Hshape in Hdone; discriminate Hdone..].
  destruct (createSpriteStrip_resolved_size frames _ _ url Hc)
    as (Hn & strip & -> & Hsw & Hsh).
  exists strip.
  set (d0 := makeSpriteStripData w file (Png strip) (createObjectURL w file)
               (orZ (frameCount opts) 18) (orRatio (ratio opts) Ratio_16_9)
               (getCanvasDimensions (orRatio (ratio opts) Ratio_16_9))) in *.
  destruct (quiet_callOnGenerate opts d0) as (_ & Hgq).
  destruct (quiet_callOnSubmit opts d0) as (_ & Hsq).
  assert (Hd : d = d0 /\ publishedData (fst run) = [d0]).
  { destruct (snd (callOnGenerate opts d0)) as [[]|e|];
      [|rewrite Hshape in Hdone; discriminate Hdone..].
    rewrite Hshape in Hdone |- *. cbn [fst snd] in Hdone |- *.
    split.
    - destruct (snd (callOnSubmit opts d0)) as [[]|e|];
        [injection Hdone as <-; reflexivity|discriminate Hdone..].
    - unfold runPrefix.
      repeat (rewrite publishedData_app; cbn [publishedData]).
      rewrite Hlq, Htq, Hfq, Hgq, Hsq.
      destruct (snd (callOnSubmit opts d0)) as [[]|e|]; reflexivity. }
  destruct Hd as (-> & Hpub).
  assert (Hcount : Z.of_nat (List.length frames) = orZ (frameCount opts) 18)
    by lia.
  unfold d0 at 1 2 3 4 5 6 7 8 9 10.
  cbn [makeSpriteStripData spriteStripUrl metadata metaWidth metaHeight
       dataFrameCount dataRatio title modelUrl].
  rewrite Hsw, Hsh, Hcount.
  repeat split; try reflexivity; try lia.
  - destruct (getCanvasDimensions _); reflexivity.
  - exact Hpub.
Qed.

(** ** The state a run leaves *)

Lemma hookAfter_app (st : HookState) (l1 l2 : list Event) :
  hookAfter st (l1 ++ l2) = hookAfter (hookAfter st l1) l2.
Proof. apply fold_left_app. Qed.

Lemma hookAfter_cons (st : HookState) (ev : Event) (l : list Event) :
  hookAfter st (ev :: l) = hookAfter (applyEvent st ev) l.
Proof. reflexivity. Qed.

Lemma hookAfter_nil (st : HookState) : hookAfter st [] = st.
Proof. reflexivity. Qed.

Lemma callbackCalls_app (l1 l2 : list Event) :
  callbackCalls (l1 ++ l2) = callbackCalls l1 ++ callbackCalls l2.
Proof.
  induction l1 as [|ev l1 IH]; [reflexivity|].
  destruct ev; cbn [app callbackCalls]; rewrite IH; reflexivity.
Qed.

Lemma loadModel_inert (w : World) (url : string) :
  callbackCalls (fst (loadModel w url)) = []
  /\ forall st, hookAfter st (fst (loadModel w url)) = st.
Proof.
  unfold loadModel.
  destruct (gltfLoader w url); [split; reflexivity|].
  destruct (fbxLoader w url); [split; reflexivity|].
  destruct (objLoader w url); split; reflexivity.
Qed.

Lemma appliedLog_inert (ms : list THREE.Mesh) :
  callbackCalls (map appliedLog ms) = []
  /\ forall st, hookAfter st (map appliedLog ms) = st.
Proof.
  induction ms as [|m ms (IH1 & IH2)]; [split; reflexivity|].
  split; [exact IH1|]. intros st. apply (IH2 st).
Qed.

Lemma applyTextureBestEffort_inert (w : World) (model : THREE.Object3D)
    (textureToUse : option File) :
  let l := fst (applyTextureBestEffort w model textureToUse) in
  callbackCalls l = [] /\ forall st, hookAfter st l = st.
Proof.
  unfold applyTextureBestEffort.
  destruct textureToUse as [texture|]; [|split; reflexivity].
  unfold applyTextureToModel.
  destruct (textureLoader w (createObjectURL w texture)) as [loaded|err];
    [|split; reflexivity].
  destruct (appliedLog_inert (THREE.meshes model)) as (H1 & H2).
  cbn [bind emit ret await_events try_catch fst snd app].
  split.
  - cbn [callbackCalls]. rewrite !callbackCalls_app, H1. reflexivity.
  - intros st. unfold hookAfter at 1. cbn [fold_left applyEvent].
    fold (hookAfter st
            ((map appliedLog (THREE.meshes model)
              ++ [RevokeObjectURL (createObjectURL w texture);
                  Console LevelLog "Texture application completed" []])
             ++ [Console LevelLog "Texture successfully applied to model"
                   []])).
    rewrite !hookAfter_app, H2. reflexivity.
Qed.

(** Rendering writes the progress only. *)
Lemma generateFrames_state (opts : Options) (model : THREE.Object3D)
    (frameCount : Z) (dimensions : Dimensions) (ratio : Ratio)
    (st : HookState) :
  let l :=
    fst (generateFrames opts model frameCount dimensions ratio
           reportFrameProgress) in
  callbackCalls l = []
  /\ isGenerating (hookAfter st l) = isGenerating st
  /\ generatedData (hookAfter st l) = generatedData st
  /\ error (hookAfter st l) = error st.
Proof.
  cbn zeta. rewrite generateFrames_spec. cbn [fst].
  generalize (seq 0 (Z.to_nat frameCount)). intros l. revert st.
  induction l as [|i l IH]; intros st; [repeat split|].
  cbn [flat_map frameEvents reportFrameProgress app].
  destruct (IH (applyEvent
                  (applyEvent st
                     (RenderCall
                        (frameScene opts
                           (prepareModel model
                              (calculateModelTransform model
                                 (aspectRatioOf ratio))) frameCount i)
                        (cameraOf model ratio)))
                  (SetProgress (20 + INR i / IZR frameCount * 0.7))))
    as (Hc & Hg & Hd & He).
  split; [exact Hc|].
  unfold hookAfter in *. cbn [fold_left]. rewrite Hg, Hd, He.
  repeat split.
Qed.

Lemma callbacks_inert (opts : Options) (d : SpriteStripData) :
  (forall st, hookAfter st (fst (callOnGenerate opts d)) = st)
  /\ (forall st, hookAfter st (fst (callOnSubmit opts d)) = st)
  /\ callbackCalls (fst (callOnGenerate opts d))
     = match onGenerate opts with
       | Some _ => [(false, d)]
       | None => []
       end
  /\ callbackCalls (fst (callOnSubmit opts d))
     = match onSubmit opts with
       | Some _ => [(true, d)]
       | None => []
       end.
Proof.
  unfold callOnGenerate, callOnSubmit.
  destruct (onGenerate opts) as [f|]; [destruct (f d)|];
    (destruct (onSubmit opts) as [g|]; [destruct (g d)|]);
    repeat split.
Qed.

(** X3.  The state after a run on a model file, whatever it was before.
    A run that returns leaves [isGenerating] false, progress 100, the
    artifact in [generatedData] and no error.  A run that throws leaves
    [isGenerating] false, no artifact (even when one had been published
    before a callback failed) and the thrown error's message, or the generic
    message when what was thrown is not an [Error].  A run that never
    settles leaves [isGenerating] true. *)
Theorem run_leaves_state (opts : Options) (appliedTexture : option File)
    (w : World) (modelFile : File) (textureFile : option File)
    (st : HookState) :
  let run :=
    generateSpriteStrip opts appliedTexture w (Some modelFile) textureFile in
  let final := hookAfter st (fst run) in
  match snd run with
  | Resolved r =>
      exists d, r = Some d
                /\ isGenerating final = false
                /\ progress final = 100
                /\ generatedData final = Some d
                /\ error final = None
  | Rejected e =>
      isGenerating final = false
      /\ generatedData final = None
      /\ error final = Some (errorMessageOf e)
  | NeverSettles =>
      isGenerating final = true /\ error final = None
  end.
Proof.
  intros run final. unfold final.
  assert (Hshape := generateSpriteStrip_shape opts appliedTexture w modelFile
                      textureFile).
  cbn zeta in Hshape. fold run in Hshape.
  set (url := createObjectURL w modelFile) in *.
  destruct (loadModel_inert w url) as (_ & Hli).
  destruct (snd (loadModel w url)) as [loaded|e|].
  2,3: rewrite Hshape; cbn [fst snd settleEvents];
       rewrite !hookAfter_app, Hli; repeat split.
  destruct Hshape as (model & frames & _ & _ & Hshape).
  destruct (applyTextureBestEffort_inert w loaded
              (textureToUseOf appliedTexture textureFile)) as (_ & Hti).
  cbn zeta in Hti.
  set (count := orZ (frameCount opts) 18) in *.
  set (ratio := orRatio (Pipeline.ratio opts) Ratio_16_9) in *.
  set (dimensions := getCanvasDimensions ratio) in *.
  assert (Hfg := fun s => proj1 (proj2 (generateFrames_state opts model count
                                          dimensions ratio s))).
  assert (Hfd := fun s => proj1 (proj2 (proj2 (generateFrames_state opts model
                                                 count dimensions ratio s)))).
  assert (Hfe := fun s => proj2 (proj2 (proj2 (generateFrames_state opts model
                                                 count dimensions ratio s)))).
  cbn zeta in Hfg, Hfd, Hfe.
  set (fe := fst (generateFrames opts model count dimensions ratio
                    reportFrameProgress)) in *.
  destruct (createSpriteStrip frames dimensions (imageLoadOrder w))
    as [strip|e|].
  2,3: rewrite Hshape; cbn [fst snd settleEvents];
       unfold runPrefix, catchEvents;
       rewrite !hookAfter_app, Hli, Hti;
       repeat rewrite hookAfter_cons; rewrite ?hookAfter_nil;
       cbn [applyEvent isGenerating progress generatedData error];
       rewrite ?Hfg, ?Hfd, ?Hfe;
       cbn [applyEvent isGenerating progress generatedData error];
       repeat split.
  set (d := makeSpriteStripData w modelFile strip url count ratio dimensions)
    in *.
  destruct (callbacks_inert opts d) as (Hgi & Hsi & _ & _).
  destruct (snd (callOnGenerate opts d)) as [[]|e|];
    [destruct (snd (callOnSubmit opts d)) as [[]|e|]| |];
    rewrite Hshape; cbn [fst snd settleEvents];
    try (exists d; split; [reflexivity|]);
    unfold runPrefix, catchEvents;
    rewrite !hookAfter_app, ?Hli, ?Hti, ?Hgi, ?Hsi;
    repeat rewrite hookAfter_cons; rewrite ?hookAfter_nil;
    cbn [applyEvent isGenerating progress generatedData error];
    rewrite ?Hgi, ?Hsi;
    repeat rewrite hookAfter_cons; rewrite ?hookAfter_nil;
    cbn [applyEvent isGenerating progress generatedData error];
    rewrite ?Hfg, ?Hfd, ?Hfe;
    cbn [applyEvent isGenerating progress generatedData error];
    repeat split.
Qed.

(** ** A frame count below zero *)

Lemma renderedModels_texturing (w : World) (model : THREE.Object3D)
    (textureToUse : option File) :
  renderedModels (fst (applyTextureBestEffort w model textureToUse)) = [].
Proof.
  rewrite <- renderedModels_withoutDiagnostics.
  destruct (applyTextureBestEffort_result w model textureToUse)
    as (_ & -> & _).
  reflexivity.
Qed.

(** X4.  [frameCount || 18] lets a negative frame count through.  The frame
    loop then does not run, [createSpriteStrip] waits for the images of an
    empty list, and the run never settles: once the model has loaded it
    renders nothing, reports 0, 10, 20 and 90, and stops there, with
    [isGenerating] left on since the [finally] block is never reached. *)
Theorem negative_frameCount_never_settles (opts : Options)
    (appliedTexture : option File) (w : World) (modelFile : File)
    (textureFile : option File) (n : Z) (loaded : THREE.Object3D)
    (st : HookState) :
  frameCount opts = Some n -> (n < 0)%Z ->
  snd (loadModel w (createObjectURL w modelFile)) = Resolved loaded ->
  let run :=
    generateSpriteStrip opts appliedTexture w (Some modelFile) textureFile in
  snd run = NeverSettles
  /\ progressValues (fst run) = [0; 10; 20; 90]
  /\ renderedModels (fst run) = []
  /\ isGenerating (hookAfter st (fst run)) = true.
Proof.
  intros Hn Hneg Hload run.
  assert (Hshape := generateSpriteStrip_shape opts appliedTexture w modelFile
                      textureFile).
  cbn zeta in Hshape. fold run in Hshape.
  destruct (quiet_loadModel w (createObjectURL w modelFile)) as (Hlp & _).
  assert (Hlr := renderedModels_loadModel w (createObjectURL w modelFile)).
  destruct (loadModel_inert w (createObjectURL w modelFile)) as (_ & Hli).
  rewrite Hload in Hshape.
  destruct Hshape as (model & frames & _ & Hgf & Hshape).
  destruct (applyTextureBestEffort_result w loaded
              (textureToUseOf appliedTexture textureFile))
    as ((Htp & _) & _ & _).
  assert (Htr := renderedModels_texturing w loaded
                   (textureToUseOf appliedTexture textureFile)).
  destruct (applyTextureBestEffort_inert w loaded
              (textureToUseOf appliedTexture textureFile)) as (_ & Hti).
  cbn zeta in Hti.
  assert (Hcount : orZ (frameCount opts) 18 = n).
  { rewrite Hn. cbn [orZ]. destruct (Z.eqb_spec n 0); [lia|reflexivity]. }
  rewrite Hcount in Hgf, Hshape.
  rewrite generateFrames_spec in Hgf, Hshape. cbn [fst snd] in Hgf, Hshape.
  replace (Z.to_nat n) with 0%nat in Hgf, Hshape by lia.
  cbn [seq map flat_map] in Hgf, Hshape.
  injection Hgf as <-. rewrite createSpriteStrip_empty in Hshape.
  rewrite Hshape. cbn [fst snd]. unfold runPrefix.
  split; [reflexivity|]. split; [|split].
  - rewrite !progressValues_app, Hlp, Htp. reflexivity.
  - rewrite !renderedModels_app, Hlr, Htr. reflexivity.
  - rewrite !hookAfter_app, Hli, Hti. reflexivity.
Qed.

(** ** The values the progress takes *)

Lemma frameProgress_below (frameCount : Z) (i : nat) :
  (i < Z.to_nat frameCount)%nat ->
  20 <= frameProgress frameCount i < 20.7.
Proof.
  intros Hi. unfold frameProgress.
  assert (Hfc : (0 < frameCount)%Z) by lia.
  assert (Hn : 0 < IZR frameCount) by (apply IZR_lt; exact Hfc).
  assert (H0 : 0 <= INR i) by apply pos_INR.
  assert (Hlt : INR i < IZR frameCount).
  { rewrite INR_IZR_INZ. apply IZR_lt. lia. }
  assert (Hq : 0 <= INR i / IZR frameCount < 1).
  { split.
    - apply Rmult_le_pos; [exact H0|]. apply Rlt_le, Rinv_0_lt_compat, Hn.
    - apply (Rmult_lt_reg_r (IZR frameCount)); [exact Hn|].
      unfold Rdiv. rewrite Rmult_assoc, Rinv_l by lra. lra. }
  lra.
Qed.

Lemma perFrame_stops (frameCount : Z) :
  Forall progressStop
    (map (frameProgress frameCount) (seq 0 (Z.to_nat frameCount))).
Proof.
  apply Forall_forall. intros v Hv. apply in_map_iff in Hv.
  destruct Hv as (j & <- & Hj). apply in_seq in Hj.
  right. right. left. apply frameProgress_below. lia.
Qed.

(** X5.  Every value a run passes to [setProgress] is 0, 10, 90, 100, or
    lies in the interval from 20 to 20.7 (20.7 excluded): the frame loop
    reports [i / frameCount], a fraction below one, and the run adds 0.7
    times that fraction to 20.  While the frames are rendered the progress
    therefore stays below 21, and then goes to 90 in one step. *)
Theorem progress_values_are_stops (opts : Options)
    (appliedTexture : option File) (w : World)
    (modelFile textureFile : option File) :
  Forall progressStop
    (progressValues
       (fst (generateSpriteStrip opts appliedTexture w modelFile textureFile))).
Proof.
  destruct modelFile as [file|]; [|constructor].
  assert (H0 : progressStop 0) by (left; reflexivity).
  assert (H10 : progressStop 10) by (right; left; reflexivity).
  assert (H20 : progressStop 20) by (right; right; left; lra).
  assert (H90 : progressStop 90) by (right; right; right; left; reflexivity).
  assert (H100 : progressStop 100)
    by (right; right; right; right; reflexivity).
  destruct (generateSpriteStrip_cases opts appliedTexture w file textureFile)
    as [(_ & -> & _)|[(_ & -> & _)|(_ & d & -> & _)]].
  - repeat (apply Forall_cons; [assumption|]). apply Forall_nil.
  - do 3 (apply Forall_cons; [assumption|]).
    apply Forall_app. split; [apply perFrame_stops|].
    repeat (apply Forall_cons; [assumption|]). apply Forall_nil.
  - unfold fullProgress. apply Forall_app. split; [|apply Forall_app; split].
    + repeat (apply Forall_cons; [assumption|]). apply Forall_nil.
    + apply perFrame_stops.
    + repeat (apply Forall_cons; [assumption|]). apply Forall_nil.
Qed.

(** ** The callbacks *)

Lemma publishedData_settle {A : Type} (r : Promise A) :
  publishedData (settleEvents r) = []
  /\ callbackCalls (settleEvents r) = [].
Proof. destruct r; split; reflexivity. Qed.

(** X6.  The callbacks of a run.  Either nothing is published and no callback
    is called, or exactly one artifact is published and the callbacks get
    that artifact and no other: [onGenerate] once if it is configured, and
    after it [onSubmit] once if it is configured and [onGenerate] has
    returned.  A run whose [onGenerate] throws never calls [onSubmit]. *)
Theorem callbacks_receive_published_artifact (opts : Options)
    (appliedTexture : option File) (w : World)
    (modelFile textureFile : option File) :
  let run := generateSpriteStrip opts appliedTexture w modelFile textureFile in
  (publishedData (fst run) = [] /\ callbackCalls (fst run) = [])
  \/ exists d,
       publishedData (fst run) = [d]
       /\ callbackCalls (fst run)
          = match onGenerate opts with
            | Some _ => [(false, d)]
            | None => []
            end
            ++ match snd (callOnGenerate opts d), onSubmit opts with
               | Resolved _, Some _ => [(true, d)]
               | _, _ => []
               end.
Proof.
  intros run. destruct modelFile as [file|]; [|left; split; reflexivity].
  assert (Hshape := generateSpriteStrip_shape opts appliedTexture w file
                      textureFile).
  cbn zeta in Hshape. fold run in Hshape.
  set (url := createObjectURL w file) in *.
  destruct (quiet_loadModel w url) as (_ & Hlp).
  destruct (loadModel_inert w url) as (Hlc & _).
  destruct (snd (loadModel w url)) as [loaded|e|].
  2,3: left; rewrite Hshape; cbn [fst]; unfold runPrefix;
       rewrite !publishedData_app, !callbackCalls_app, Hlp, Hlc;
       split; reflexivity.
  destruct Hshape as (model & frames & _ & _ & Hshape).
  destruct (applyTextureBestEffort_result w loaded
              (textureToUseOf appliedTexture textureFile))
    as ((_ & Htp) & _ & _).
  destruct (applyTextureBestEffort_inert w loaded
              (textureToUseOf appliedTexture textureFile)) as (Htc & _).
  cbn zeta in Htc.
  set (count := orZ (frameCount opts) 18) in *.
  set (ratio := orRatio (Pipeline.ratio opts) Ratio_16_9) in *.
  set (dimensions := getCanvasDimensions ratio) in *.
  destruct (generateFrames_reports opts model count dimensions ratio)
    as (_ & Hfp & _).
  change (fun progress : R => [SetProgress (20 + progress * 0.7)])
    with reportFrameProgress in Hfp.
  destruct (generateFrames_state opts model count dimensions ratio
              initialHookState) as (Hfc & _).
  cbn zeta in Hfc.
  set (fe := fst (generateFrames opts model count dimensions ratio
                    reportFrameProgress)) in *.
  destruct (createSpriteStrip frames dimensions (imageLoadOrder w))
    as [strip|e|].
  2,3: left; rewrite Hshape; cbn [fst]; unfold runPrefix;
       rewrite !publishedData_app, !callbackCalls_app,
         Hlp, Hlc, Htp, Htc, Hfp, Hfc;
       split; reflexivity.
  set (d := makeSpriteStripData w file strip url count ratio dimensions) in *.
  right. exists d.
  destruct (quiet_callOnGenerate opts d) as (_ & Hgp).
  destruct (quiet_callOnSubmit opts d) as (_ & Hsp).
  destruct (callbacks_inert opts d) as (_ & _ & Hgc & Hsc).
  destruct (snd (callOnGenerate opts d)) as [[]|e|];
    rewrite Hshape; cbn [fst]; unfold runPrefix;
    rewrite !publishedData_app, !callbackCalls_app,
      Hlp, Hlc, Htp, Htc, Hfp, Hfc, Hgp, Hgc;
    rewrite ?Hsp, ?Hsc;
    rewrite ?(proj1 (publishedData_settle _)),
      ?(proj2 (publishedData_settle _));
    cbn [publishedData callbackCalls app]; rewrite ?app_nil_r;
    (split; [reflexivity|]);
    destruct (onGenerate opts), (onSubmit opts); reflexivity.
Qed.

(** ** Texturing *)

Lemma revokedUrls_app (l1 l2 : list Event) :
  revokedUrls (l1 ++ l2) = revokedUrls l1 ++ revokedUrls l2.
Proof.
  induction l1 as [|ev l1 IH]; [reflexivity|].
  destruct ev; cbn [app revokedUrls]; rewrite IH; reflexivity.
Qed.

Lemma revokedUrls_appliedLog (ms : list THREE.Mesh) :
  revokedUrls (map appliedLog ms) = [].
Proof. induction ms as [|m ms IH]; [reflexivity|exact IH]. Qed.

Lemma vertices_textured (texture : string) (ms : list THREE.Mesh) :
  flat_map THREE.vertices (map (texturedMesh texture) ms)
  = flat_map THREE.vertices ms.
Proof.
  induction ms as [|m ms IH]; [reflexivity|].
  cbn [map flat_map texturedMesh THREE.vertices]. rewrite IH. reflexivity.
Qed.

(** A new material moves no vertex: the world box stays what it was. *)
Lemma setFromObject_textured (texture : string) (o : THREE.Object3D) :
  THREE.setFromObject (THREE.traverseMeshes (texturedMesh texture) o)
  = THREE.setFromObject o.
Proof.
  unfold THREE.setFromObject, THREE.worldPoints, THREE.traverseMeshes,
    THREE.withMeshes.
  cbn [THREE.meshes]. rewrite vertices_textured. reflexivity.
Qed.

Lemma materialsOf_textured (texture : string) (o : THREE.Object3D) :
  materialsOf (THREE.traverseMeshes (texturedMesh texture) o)
  = texturedMaterials texture o.
Proof.
  unfold materialsOf, texturedMaterials, THREE.traverseMeshes,
    THREE.withMeshes.
  cbn [cloneMeshes THREE.meshes]. rewrite map_map. reflexivity.
Qed.

(** X7.  [applyTextureToModel] revokes the object URL it created exactly
    once, whether the texture loads or not.  When the texture loads, every
    mesh of the model ends up with a [MeshLambertMaterial] holding that
    texture, not transparent, one line is logged per mesh, and the model's
    position, rotation, scale and world bounding box are what they were.
    When it does not load, the promise is rejected with the fixed message
    and nothing is logged per mesh. *)
Theorem applyTextureToModel_outcomes (w : World) (model : THREE.Object3D)
    (textureFile : File) :
  let url := createObjectURL w textureFile in
  let run := applyTextureToModel w model textureFile in
  revokedUrls (fst run) = [url]
  /\ match textureLoader w url with
     | inl texture =>
         exists textured,
           snd run = Resolved textured
           /\ materialsOf textured = texturedMaterials texture model
           /\ THREE.position textured = THREE.position model
           /\ THREE.rotation textured = THREE.rotation model
           /\ THREE.scale textured = THREE.scale model
           /\ THREE.setFromObject textured = THREE.setFromObject model
           /\ (forall child, In child (THREE.meshes model) ->
                 In (appliedLog child) (fst run))
     | inr _ =>
         snd run = Rejected (ErrorObject "Failed to load texture file")
         /\ (forall child, ~ In (appliedLog child) (fst run))
     end.
Proof.
  intros url run. unfold run, applyTextureToModel. fold url.
  destruct (textureLoader w url) as [texture|err].
  - cbn [bind emit ret await_events fst snd app].
    split.
    + cbn [revokedUrls]. rewrite revokedUrls_app, revokedUrls_appliedLog.
      reflexivity.
    + eexists. split; [reflexivity|].
      split; [apply materialsOf_textured|].
      split; [reflexivity|]. split; [reflexivity|]. split; [reflexivity|].
      split; [apply setFromObject_textured|].
      intros child Hc. right. apply in_or_app. left.
      apply in_map. exact Hc.
  - cbn [bind emit throw fst snd app]. split; [reflexivity|].
    split; [reflexivity|].
    intros child [H|[H|[]]]; discriminate H.
Qed.

(** Framing commutes with texturing. *)
Lemma calculateModelTransform_textured (texture : string)
    (o : THREE.Object3D) (aspectRatio : R) :
  calculateModelTransform (THREE.traverseMeshes (texturedMesh texture) o)
    aspectRatio
  = calculateModelTransform o aspectRatio.
Proof.
  unfold calculateModelTransform. rewrite setFromObject_textured.
  reflexivity.
Qed.

Lemma recenterIfOff_textured (texture : string) (o : THREE.Object3D) :
  recenterIfOff (THREE.traverseMeshes (texturedMesh texture) o)
  = THREE.traverseMeshes (texturedMesh texture) (recenterIfOff o).
Proof.
  unfold recenterIfOff. rewrite setFromObject_textured.
  destruct (offCenter _); reflexivity.
Qed.

Lemma poseModel_textured (texture : string) (o : THREE.Object3D)
    (position : THREE.Vector3) (scale : R) :
  poseModel (THREE.traverseMeshes (texturedMesh texture) o) position scale
  = THREE.traverseMeshes (texturedMesh texture) (poseModel o position scale).
Proof.
  unfold poseModel. cbn zeta.
  rewrite <- recenterIfOff_textured. f_equal.
  change (THREE.withScale
            (THREE.withPosition
               (THREE.traverseMeshes (texturedMesh texture) o) position)
            (THREE.setScalar scale))
    with (THREE.traverseMeshes (texturedMesh texture)
            (THREE.withScale (THREE.withPosition o position)
               (THREE.setScalar scale))).
  rewrite setFromObject_textured. reflexivity.
Qed.

Lemma prepareModel_textured (texture : string) (o : THREE.Object3D)
    (t : ModelTransform) :
  prepareModel (THREE.traverseMeshes (texturedMesh texture) o) t
  = traverseCloneMeshes (texturedMesh texture) (prepareModel o t).
Proof.
  unfold prepareModel.
  destruct (tscale t); cbn [traverseCloneMeshes]; try reflexivity.
  rewrite poseModel_textured. reflexivity.
Qed.

Lemma frameModel_textured (texture : string) (m0 : Clone)
    (frameCount : Z) (i : nat) :
  frameModel (traverseCloneMeshes (texturedMesh texture) m0) frameCount i
  = traverseCloneMeshes (texturedMesh texture) (frameModel m0 frameCount i).
Proof.
  destruct m0; cbn [frameModel traverseCloneMeshes]; [|reflexivity].
  rewrite <- recenterIfOff_textured. reflexivity.
Qed.

Lemma materialsOf_traversed (texture : string) (c : Clone) :
  materialsOf (traverseCloneMeshes (texturedMesh texture) c)
  = map (fun _ => THREE.MeshLambertMaterial texture false) (cloneMeshes c).
Proof.
  unfold materialsOf.
  destruct c; cbn [traverseCloneMeshes cloneMeshes THREE.traverseMeshes
                   THREE.withMeshes THREE.meshes];
    rewrite map_map; reflexivity.
Qed.

Lemma renderedModels_settle {A : Type} (r : Promise A) :
  renderedModels (settleEvents r) = [].
Proof. destruct r; reflexivity. Qed.

(** The models a run renders: none unless the model loads, and otherwise
    the frames of the model the texture step leaves. *)
Lemma renderedModels_run (opts : Options) (appliedTexture : option File)
    (w : World) (modelFile : File) (textureFile : option File)
    (loaded model : THREE.Object3D) :
  let run :=
    generateSpriteStrip opts appliedTexture w (Some modelFile) textureFile in
  let count := orZ (frameCount opts) 18 in
  let ratio := orRatio (ratio opts) Ratio_16_9 in
  snd (loadModel w (createObjectURL w modelFile)) = Resolved loaded ->
  snd (applyTextureBestEffort w loaded
         (textureToUseOf appliedTexture textureFile)) = Resolved model ->
  renderedModels (fst run)
  = map (frameModel
           (prepareModel model
              (calculateModelTransform model (aspectRatioOf ratio))) count)
      (seq 0 (Z.to_nat count)).
Proof.
  intros run count ratio Hload Htex.
  assert (Hshape := generateSpriteStrip_shape opts appliedTexture w modelFile
                      textureFile).
  cbn zeta in Hshape. fold run in Hshape. fold count in Hshape.
  fold ratio in Hshape.
  assert (Hlr := renderedModels_loadModel w (createObjectURL w modelFile)).
  rewrite Hload in Hshape.
  destruct Hshape as (model' & frames & Htex' & _ & Hshape).
  rewrite Htex in Htex'. injection Htex' as <-.
  assert (Htr := renderedModels_texturing w loaded
                   (textureToUseOf appliedTexture textureFile)).
  rewrite generateFrames_spec in Hshape. cbn [fst snd] in Hshape.
  assert (Hfr := renderedModels_frames opts
                   (prepareModel model
                      (calculateModelTransform model (aspectRatioOf ratio)))
                   count (cameraOf model ratio) reportFrameProgress
                   (seq 0 (Z.to_nat count))
                   reportFrameProgress_rendersNothing).
  destruct (createSpriteStrip frames _ (imageLoadOrder w)) as [strip|e|].
  2,3: rewrite Hshape; cbn [fst]; unfold runPrefix;
       rewrite !renderedModels_app, ?renderedModels_settle, Hlr, Htr, Hfr;
       cbn [renderedModels app]; rewrite ?app_nil_r; reflexivity.
  match type of Hshape with
  | context [callOnGenerate opts ?d0] =>
      destruct (renderedModels_callbacks opts d0) as (Hg & Hs);
      destruct (snd (callOnGenerate opts d0)) as [[]|e|]
  end;
    rewrite Hshape; cbn [fst]; unfold runPrefix;
    rewrite !renderedModels_app, ?renderedModels_settle, Hlr, Htr, Hfr, Hg,
      ?Hs;
    cbn [renderedModels app]; rewrite ?app_nil_r; reflexivity.
Qed.

(** X8.  A run with a texture that loads renders the frames of the run
    without a texture, with every mesh given the textured material and
    nothing else changed: same count, same positions, rotations and scales.
    The texture staged in the hook ([appliedTexture]) is the one used when
    there is one, and the [textureFile] argument otherwise. *)
Theorem textured_run_renders_textured_frames (opts : Options)
    (appliedTexture : option File) (w : World) (modelFile : File)
    (textureFile : option File) (loaded : THREE.Object3D) (t : File)
    (texture : string) :
  snd (loadModel w (createObjectURL w modelFile)) = Resolved loaded ->
  textureToUseOf appliedTexture textureFile = Some t ->
  textureLoader w (createObjectURL w t) = inl texture ->
  let run :=
    generateSpriteStrip opts appliedTexture w (Some modelFile) textureFile in
  let plain := generateSpriteStrip opts None w (Some modelFile) None in
  renderedModels (fst run)
  = map (traverseCloneMeshes (texturedMesh texture))
      (renderedModels (fst plain))
  /\ List.length (renderedModels (fst run))
     = Z.to_nat (orZ (frameCount opts) 18)
  /\ Forall (fun o => materialsOf o = texturedMaterials texture loaded)
       (renderedModels (fst run)).
Proof.
  intros Hload Htu Hok run plain.
  assert (Htex : snd (applyTextureBestEffort w loaded
                        (textureToUseOf appliedTexture textureFile))
                 = Resolved (THREE.traverseMeshes (texturedMesh texture)
                               loaded)).
  { destruct (applyTextureBestEffort_result w loaded
                (textureToUseOf appliedTexture textureFile))
      as (_ & _ & ->).
    rewrite Htu, Hok. reflexivity. }
  assert (Hrun := renderedModels_run opts appliedTexture w modelFile
                    textureFile loaded _ Hload Htex).
  assert (Hplain := renderedModels_run opts None w modelFile None loaded
                      loaded Hload eq_refl).
  cbn zeta in Hrun, Hplain. fold run in Hrun. fold plain in Hplain.
  rewrite calculateModelTransform_textured, prepareModel_textured in Hrun.
  assert (Heq : renderedModels (fst run)
                = map (traverseCloneMeshes (texturedMesh texture))
                    (renderedModels (fst plain))).
  { rewrite Hrun, Hplain, map_map. apply map_ext. intros i.
    apply frameModel_textured. }
  split; [exact Heq|]. split.
  - rewrite Hrun, length_map, length_seq. reflexivity.
  - rewrite Hrun. apply Forall_forall. intros o Ho.
    apply in_map_iff in Ho. destruct Ho as (i & <- & _).
    rewrite frameModel_textured, materialsOf_traversed.
    unfold texturedMaterials.
    rewrite frameModel_meshes, prepareModel_meshes. reflexivity.
Qed.

(** ** Centring and scaling, exactly *)

Lemma offCenter_origin : offCenter THREE.origin = false.
Proof.
  unfold offCenter, THREE.origin. cbn [THREE.x THREE.y THREE.z].
  rewrite Rabs_R0. destruct (Rgt_dec 0 0.001); [lra|reflexivity].
Qed.

Lemma recenterIfOff_fixed (o : THREE.Object3D) :
  THREE.getCenter (THREE.setFromObject o) = THREE.origin ->
  recenterIfOff o = o.
Proof.
  intros Hc. unfold recenterIfOff. rewrite Hc, offCenter_origin. reflexivity.
Qed.

Lemma recentred_exactly (o : THREE.Object3D) :
  THREE.getCenter
    (THREE.setFromObject
       (THREE.withPosition o
          (THREE.sub (THREE.position o)
             (THREE.getCenter (THREE.setFromObject o)))))
  = THREE.origin.
Proof. rewrite setFromObject_moved. apply getCenter_translate_back. Qed.

(** X9.  The check-and-correct step is idempotent: a second pass right
    after the first finds the centre within the tolerance (at the origin, if
    the first pass moved the model) and changes nothing. *)
Theorem recenterIfOff_idempotent (o : THREE.Object3D) :
  recenterIfOff (recenterIfOff o) = recenterIfOff o.
Proof.
  destruct (offCenter (THREE.getCenter (THREE.setFromObject o))) eqn:Hoff.
  - assert (E : recenterIfOff o
                = THREE.withPosition o
                    (THREE.sub (THREE.position o)
                       (THREE.getCenter (THREE.setFromObject o))))
      by (unfold recenterIfOff; rewrite Hoff; reflexivity).
    rewrite E. apply recenterIfOff_fixed. apply recentred_exactly.
  - assert (E : recenterIfOff o = o)
      by (unfold recenterIfOff; rewrite Hoff; reflexivity).
    rewrite E. exact E.
Qed.

Lemma fold_expandByPoint_box (ps : list THREE.Vector3)
    (lo hi : THREE.Vector3) :
  exists lo' hi',
    fold_left THREE.expandByPoint ps (THREE.Box lo hi) = THREE.Box lo' hi'.
Proof.
  revert lo hi. induction ps as [|p ps IH]; intros lo hi.
  - exists lo, hi. reflexivity.
  - cbn [fold_left THREE.expandByPoint]. apply IH.
Qed.

Lemma setFromObject_box (o : THREE.Object3D) :
  hasVertex o ->
  exists lo hi, THREE.setFromObject o = THREE.Box lo hi.
Proof.
  unfold hasVertex, THREE.setFromObject, THREE.setFromPoints,
    THREE.worldPoints.
  destruct (flat_map THREE.vertices (THREE.meshes o)) as [|v vs];
    [intros H; contradiction H; reflexivity|intros _].
  cbn [map fold_left THREE.expandByPoint]. apply fold_expandByPoint_box.
Qed.

(** The world box of a model put at [p] is that of the model put at the
    origin, moved by [p]. *)
Lemma setFromObject_at (o : THREE.Object3D) (p : THREE.Vector3) :
  THREE.setFromObject (THREE.withPosition o p)
  = THREE.translate (THREE.setFromObject (THREE.withPosition o THREE.origin))
      p.
Proof.
  unfold THREE.setFromObject, THREE.setFromPoints, THREE.worldPoints.
  change THREE.EmptyBox with (THREE.translate THREE.EmptyBox p) at 1.
  rewrite <- fold_expandByPoint_translate, map_map.
  f_equal. apply map_ext. intros q.
  unfold THREE.localToWorld, THREE.withPosition, THREE.add, THREE.origin.
  cbn [THREE.position THREE.rotation THREE.scale THREE.meshes THREE.x THREE.y
       THREE.z].
  f_equal; lra.
Qed.

Lemma getCenter_translate (lo hi d : THREE.Vector3) :
  THREE.getCenter (THREE.translate (THREE.Box lo hi) d)
  = THREE.add (THREE.getCenter (THREE.Box lo hi)) d.
Proof.
  unfold THREE.getCenter, THREE.translate, THREE.multiplyScalar, THREE.add.
  cbn [THREE.x THREE.y THREE.z]. f_equal; lra.
Qed.

Lemma poseModel_unfolded (model : THREE.Object3D)
    (position : THREE.Vector3) (scale : R) :
  let placed :=
    THREE.mkObject3D position (THREE.rotation model)
      (THREE.setScalar scale) (THREE.meshes model) in
  poseModel model position scale
  = THREE.withPosition placed
      (THREE.sub position
         (THREE.getCenter (THREE.setFromObject placed))).
Proof.
  intros placed. unfold poseModel. cbn zeta.
  change (THREE.withScale (THREE.withPosition model position)
            (THREE.setScalar scale)) with placed.
  apply recenterIfOff_fixed.
  change position with (THREE.position placed) at 1.
  apply recentred_exactly.
Qed.

Lemma sqrt_zero_sum : sqrt (0 * 0 + 0 * 0 + 0 * 0) = 0.
Proof. replace (0 * 0 + 0 * 0 + 0 * 0) with 0 by lra. apply sqrt_0. Qed.

(** A model with a size has a vertex. *)
Lemma effectiveSize_hasVertex (model : THREE.Object3D) :
  0 < effectiveSize model -> hasVertex model.
Proof.
  intros H Hv. revert H.
  unfold effectiveSize, THREE.setFromObject, THREE.worldPoints. rewrite Hv.
  cbn [map THREE.setFromPoints fold_left THREE.getSize].
  unfold effectiveSizeOf, diagonalOf, maxDimOf, Math_max3, THREE.origin.
  cbn [THREE.x THREE.y THREE.z]. rewrite sqrt_zero_sum.
  rewrite !(Rmax_left 0 0) by lra. lra.
Qed.

(** X10.  Where [generateFrames] puts a model with a size (one whose
    effective size is positive) before the first frame.  The scale is a
    real number, the target size over the effective size, and the clone has
    a pose.  After the fine-tuning step the centre of the world box is at
    the origin exactly, so the verification that follows never moves the
    model.  The model keeps its rotation and gets the computed scale on all
    three axes.  And the position it ends at is minus the centre the
    scaled model has when put at the origin: the position
    [calculateModelTransform] returned is cancelled by the fine-tuning and
    has no influence on it. *)
Theorem prepareModel_centres_exactly (model : THREE.Object3D)
    (aspectRatio : R) :
  0 < effectiveSize model ->
  let scale := (1.8 - 2 * 0.05) / effectiveSize model in
  exists prepared,
    prepareModel model (calculateModelTransform model aspectRatio)
    = Posed prepared
    /\ THREE.getCenter (THREE.setFromObject prepared) = THREE.origin
    /\ THREE.rotation prepared = THREE.rotation model
    /\ THREE.scale prepared = THREE.setScalar scale
    /\ THREE.meshes prepared = THREE.meshes model
    /\ THREE.position prepared
       = THREE.negate
           (THREE.getCenter
              (THREE.setFromObject (scaledAtOrigin scale model))).
Proof.
  intros Hpos scale.
  assert (Hv := effectiveSize_hasVertex model Hpos).
  assert (Hscale : targetSize / effectiveSize model = scale).
  { unfold scale, targetSize, framePadding. f_equal. lra. }
  rewrite prepareModel_sized by exact Hpos. rewrite Hscale.
  set (position := tposition (calculateModelTransform model aspectRatio)).
  eexists. split; [reflexivity|].
  rewrite poseModel_unfolded. cbn zeta.
  set (placed := THREE.mkObject3D position (THREE.rotation model)
                   (THREE.setScalar scale) (THREE.meshes model)).
  split.
  { change position with (THREE.position placed) at 1.
    apply recentred_exactly. }
  split; [reflexivity|]. split; [reflexivity|]. split; [reflexivity|].
  cbn [THREE.withPosition THREE.position].
  change placed
    with (THREE.withPosition (scaledAtOrigin scale model) position).
  rewrite setFromObject_at.
  change (THREE.withPosition (scaledAtOrigin scale model) THREE.origin)
    with (scaledAtOrigin scale model).
  destruct (setFromObject_box (scaledAtOrigin scale model) Hv)
    as (lo & hi & ->).
  rewrite getCenter_translate.
  unfold THREE.sub, THREE.add, THREE.negate.
  cbn [THREE.x THREE.y THREE.z]. f_equal; lra.
Qed.

Lemma Rmin_scale (a b s c : R) :
  0 <= s -> Rmin (a * s + c) (b * s + c) = Rmin a b * s + c.
Proof. intros Hs. unfold Rmin. destruct (Rle_dec _ _), (Rle_dec _ _); nra. Qed.

Lemma Rmax_scale (a b s c : R) :
  0 <= s -> Rmax (a * s + c) (b * s + c) = Rmax a b * s + c.
Proof. intros Hs. unfold Rmax. destruct (Rle_dec _ _), (Rle_dec _ _); nra. Qed.

Lemma fold_expandByPoint_scaled (ps : list THREE.Vector3) (b : THREE.Box3)
    (s : R) (c : THREE.Vector3) :
  0 <= s ->
  fold_left THREE.expandByPoint
    (map (fun q => THREE.add (THREE.multiplyScalar q s) c) ps)
    (scaledAndMoved s c b)
  = scaledAndMoved s c (fold_left THREE.expandByPoint ps b).
Proof.
  intros Hs. revert b. induction ps as [|p ps IH]; intros b; [reflexivity|].
  cbn [map fold_left]. rewrite <- IH. f_equal.
  destruct b as [|lo hi]; [reflexivity|].
  unfold THREE.expandByPoint, scaledAndMoved, THREE.vmin, THREE.vmax,
    THREE.add, THREE.multiplyScalar.
  cbn [THREE.x THREE.y THREE.z].
  rewrite !Rmin_scale, !Rmax_scale by exact Hs. reflexivity.
Qed.

(** Rotation is linear, so a model of unit scale that is given the scale
    [s] on all axes and put at [p] has the world box of the original, scaled
    by [s] and moved. *)
Lemma setFromObject_rescaled (o : THREE.Object3D) (s : R)
    (p : THREE.Vector3) :
  THREE.scale o = THREE.setScalar 1 -> 0 <= s ->
  THREE.setFromObject
    (THREE.mkObject3D p (THREE.rotation o) (THREE.setScalar s)
       (THREE.meshes o))
  = scaledAndMoved s
      (THREE.sub p (THREE.multiplyScalar (THREE.position o) s))
      (THREE.setFromObject o).
Proof.
  intros Hunit Hs.
  unfold THREE.setFromObject, THREE.setFromPoints, THREE.worldPoints.
  rewrite <- (fold_expandByPoint_scaled _ THREE.EmptyBox s _ Hs), map_map.
  cbn [scaledAndMoved THREE.meshes]. f_equal. apply map_ext. intros v.
  unfold THREE.localToWorld. rewrite Hunit.
  cbn [THREE.position THREE.rotation THREE.scale].
  unfold THREE.applyEuler, THREE.rotateX, THREE.rotateY, THREE.rotateZ,
    THREE.multiply, THREE.setScalar, THREE.add, THREE.sub,
    THREE.multiplyScalar.
  cbn [THREE.x THREE.y THREE.z]. f_equal; ring.
Qed.

Lemma getSize_scaledAndMoved (s : R) (c : THREE.Vector3) (b : THREE.Box3) :
  THREE.getSize (scaledAndMoved s c b)
  = THREE.multiplyScalar (THREE.getSize b) s.
Proof.
  destruct b as [|lo hi];
    unfold THREE.getSize, scaledAndMoved, THREE.multiplyScalar, THREE.sub,
      THREE.add, THREE.origin;
    cbn [THREE.x THREE.y THREE.z]; f_equal; lra.
Qed.

Lemma effectiveSizeOf_scaled (v : THREE.Vector3) (s : R) :
  0 <= s ->
  effectiveSizeOf (THREE.multiplyScalar v s) = effectiveSizeOf v * s.
Proof.
  intros Hs. unfold effectiveSizeOf, diagonalOf, maxDimOf, Math_max3,
    THREE.multiplyScalar.
  cbn [THREE.x THREE.y THREE.z].
  replace (THREE.x v * s * (THREE.x v * s) + THREE.y v * s * (THREE.y v * s)
           + THREE.z v * s * (THREE.z v * s))
    with ((THREE.x v * THREE.x v + THREE.y v * THREE.y v
           + THREE.z v * THREE.z v) * (s * s)) by ring.
  rewrite sqrt_mult by nra. rewrite (sqrt_square s Hs).
  pose proof (Rmax_scale (THREE.x v) (THREE.y v) s 0 Hs) as H1.
  rewrite !Rplus_0_r in H1. rewrite H1.
  pose proof (Rmax_scale (Rmax (THREE.x v) (THREE.y v)) (THREE.z v) s 0 Hs)
    as H2.
  rewrite !Rplus_0_r in H2. rewrite H2.
  pose proof (Rmax_scale
                (sqrt (THREE.x v * THREE.x v + THREE.y v * THREE.y v
                       + THREE.z v * THREE.z v))
                (Rmax (Rmax (THREE.x v) (THREE.y v)) (THREE.z v)) s 0 Hs)
    as H3.
  rewrite !Rplus_0_r in H3. exact H3.
Qed.

(** X11.  The scale does what it is computed for.  For a model whose root
    has unit scale and whose box is not a single point, the model as
    [generateFrames] prepares it has an effective size (the larger of its
    box's diagonal and longest edge) of exactly 1.7, the target size
    [1.8 - 2 * 0.05], whatever the aspect ratio. *)
Theorem prepared_model_fills_target (model : THREE.Object3D)
    (aspectRatio : R) :
  THREE.scale model = THREE.setScalar 1 ->
  0 < effectiveSize model ->
  exists prepared,
    prepareModel model (calculateModelTransform model aspectRatio)
    = Posed prepared
    /\ effectiveSize prepared = 1.7.
Proof.
  intros Hunit Hpos.
  rewrite prepareModel_sized by exact Hpos.
  eexists. split; [reflexivity|].
  set (scale := targetSize / effectiveSize model).
  assert (Hs : 0 <= scale).
  { apply Rlt_le, Rdiv_lt_0_compat; [|exact Hpos].
    unfold targetSize, framePadding. lra. }
  rewrite poseModel_unfolded. cbn zeta.
  unfold THREE.withPosition.
  cbn [THREE.position THREE.rotation THREE.scale THREE.meshes].
  unfold effectiveSize at 1.
  rewrite (setFromObject_rescaled model scale _ Hunit Hs).
  rewrite getSize_scaledAndMoved, effectiveSizeOf_scaled by exact Hs.
  fold (effectiveSize model).
  rewrite <- (scaledExtent_target model Hpos).
  unfold scaledExtent, scale, targetSize, framePadding.
  f_equal. f_equal. lra.
Qed.

(** ** The canvas and the camera *)

(** X12.  The two tables of ratios agree: for every ratio setting the
    canvas [getCanvasDimensions] sizes is exactly as wide, relative to its
    height, as the aspect ratio [generateFrames] gives the camera, so the
    render is not stretched; [auto] is treated as 16:9 by both. *)
Theorem canvas_matches_camera_aspect (model : THREE.Object3D)
    (ratio : Ratio) :
  let dimensions := getCanvasDimensions ratio in
  IZR (width dimensions) / IZR (height dimensions)
  = cameraAspect (cameraOf model ratio)
  /\ getCanvasDimensions Ratio_auto = getCanvasDimensions Ratio_16_9
  /\ aspectRatioOf Ratio_auto = aspectRatioOf Ratio_16_9.
Proof.
  cbn zeta. split; [|split; reflexivity].
  unfold cameraOf. cbn [cameraAspect].
  destruct ratio; cbn [getCanvasDimensions aspectRatioOf width height]; lra.
Qed.

(** ** The title of the artifact *)

Lemma noSlashNoDot_dot (a b : string) :
  noSlashNoDot (a ++ String "."%char b) = false.
Proof.
  induction a as [|c a IH]; [reflexivity|].
  cbn [String.append noSlashNoDot]. rewrite IH. apply andb_false_r.
Qed.

(** X13.  What [name.replace (/\.[^/.]+$/, "")] makes of a file name.  A
    name that ends in a dot followed by an extension (one or more characters,
    none of them a dot or a slash) loses that dot and the extension and
    nothing else, so only the last of several extensions goes; a name with
    neither dot nor slash, and a name that ends in a dot, are left as they
    are. *)
Theorem stripExtension_removes_last_extension (base ext : string) :
  ext <> EmptyString ->
  noSlashNoDot ext = true ->
  stripExtension (base ++ String "."%char ext) = base
  /\ stripExtension ext = ext
  /\ stripExtension (base ++ ".") = (base ++ ".")%string.
Proof.
  intros Hne Hext. split; [|split].
  - induction base as [|c base IH].
    + cbn [String.append stripExtension]. rewrite Hext.
      destruct ext; [contradiction Hne; reflexivity|reflexivity].
    + cbn [String.append stripExtension].
      rewrite noSlashNoDot_dot, andb_false_r, IH. reflexivity.
  - clear Hne. induction ext as [|c ext IH]; [reflexivity|].
    cbn [noSlashNoDot] in Hext.
    apply andb_prop in Hext. destruct Hext as (Hc & Hrest).
    apply andb_prop in Hc. destruct Hc as (_ & Hdot).
    cbn [stripExtension].
    destruct (Ascii.eqb c "."%char); [discriminate Hdot|].
    cbn [andb]. rewrite (IH Hrest). reflexivity.
  - clear. induction base as [|c base IH]; [reflexivity|].
    cbn [String.append stripExtension].
    rewrite noSlashNoDot_dot, andb_false_r, IH. reflexivity.
Qed.

(** ** The camera and the lights *)

Lemma orR_nonzero (a : option R) (b : R) : b <> 0 -> orR a b <> 0.
Proof.
  intros Hb. unfold orR. destruct a as [v|]; [|exact Hb].
  destruct (Req_dec_T v 0); assumption.
Qed.

Lemma orString_nonempty (a : option string) (b : string) :
  b <> EmptyString -> orString a b <> EmptyString.
Proof.
  intros Hb. unfold orString. destruct a as [v|]; [|exact Hb].
  destruct (String.eqb_spec v EmptyString); assumption.
Qed.

(** X14.  Every frame is rendered with one and the same camera: 50 degrees
    of vertical field of view, the aspect ratio of the ratio setting, on the
    z axis at the distance [calculateModelTransform] returned.  For a model
    with a size that distance is 3.0; for a model without one (no geometry,
    or a single point) it is [NaN].  And since the lighting options are read
    with [||], no scene is ever rendered with the directional or the
    ambient light switched off: an intensity of 0 is replaced by the
    default, as is an empty background colour.  The fill and rim lights are
    0.4 and 0.3 times the directional light. *)
Theorem renders_share_camera_and_lights (opts : Options)
    (model : THREE.Object3D) (frameCount : Z) (dimensions : Dimensions)
    (ratio : Ratio) :
  let calls :=
    renderCalls
      (fst (generateFrames opts model frameCount dimensions ratio
              reportFrameProgress)) in
  List.length calls = Z.to_nat frameCount
  /\ Forall
       (fun call =>
          snd call = cameraOf model ratio
          /\ cameraFov (snd call) = 50
          /\ cameraAspect (snd call) = aspectRatioOf ratio
          /\ cameraX (cameraPosition (snd call)) = 0
          /\ cameraY (cameraPosition (snd call)) = 0
          /\ (0 < effectiveSize model ->
              cameraZ (cameraPosition (snd call)) = 3.0)
          /\ (effectiveSize model = 0 ->
              cameraZ (cameraPosition (snd call)) = JS.NaN)
          /\ directionalLight (fst call) <> 0
          /\ ambientLight (fst call) <> 0
          /\ fillLight (fst call) = directionalLight (fst call) * 0.4
          /\ rimLight (fst call) = directionalLight (fst call) * 0.3
          /\ clearColor (fst call) <> EmptyString)
       calls.
Proof.
  cbn zeta. rewrite generateFrames_spec. cbn [fst].
  set (m0 := prepareModel model
               (calculateModelTransform model (aspectRatioOf ratio))).
  set (P := fun call : Scene * Camera =>
          snd call = cameraOf model ratio
          /\ cameraFov (snd call) = 50
          /\ cameraAspect (snd call) = aspectRatioOf ratio
          /\ cameraX (cameraPosition (snd call)) = 0
          /\ cameraY (cameraPosition (snd call)) = 0
          /\ (0 < effectiveSize model ->
              cameraZ (cameraPosition (snd call)) = 3.0)
          /\ (effectiveSize model = 0 ->
              cameraZ (cameraPosition (snd call)) = JS.NaN)
          /\ directionalLight (fst call) <> 0
          /\ ambientLight (fst call) <> 0
          /\ fillLight (fst call) = directionalLight (fst call) * 0.4
          /\ rimLight (fst call) = directionalLight (fst call) * 0.3
          /\ clearColor (fst call) <> EmptyString).
  assert (H : forall l,
              List.length
                (renderCalls
                   (flat_map
                      (frameEvents opts m0 frameCount (cameraOf model ratio)
                         reportFrameProgress) l))
              = List.length l
              /\ Forall P
                   (renderCalls
                      (flat_map
                         (frameEvents opts m0 frameCount
                            (cameraOf model ratio) reportFrameProgress) l))).
  { intros l.
    induction l as [|i l (IHn & IHf)]; [split; [reflexivity|constructor]|].
    cbn [flat_map frameEvents reportFrameProgress app renderCalls
         List.length].
    split; [rewrite IHn; reflexivity|].
    constructor; [|exact IHf].
    unfold P. cbn [fst snd]. unfold cameraOf, frameScene, sceneOf.
    cbn [cameraFov cameraAspect cameraPosition cameraX cameraY cameraZ
         directionalLight ambientLight fillLight rimLight clearColor].
    repeat split.
    - intros Hs. apply cameraDistance_minimum;
        [exact Hs|apply aspectRatioOf_ge_1].
    - intros Hz.
      exact (proj2 (calculateModelTransform_sizeless model _ Hz)).
    - apply orR_nonzero. lra.
    - apply orR_nonzero. lra.
    - apply orString_nonempty. discriminate. }
  destruct (H (seq 0 (Z.to_nat frameCount))) as (Hn & Hf).
  split; [|exact Hf].
  rewrite Hn. apply length_seq.
Qed.

(** ** The texture the page submits *)

(** X29.  Deselecting a texture in the page does not keep it out of the
    next run.  [handleTextureSelect] copies a selected texture into the
    page's own state and never resets it, and [handleSubmit] falls back on
    it when nothing is selected: after a texture is selected and then
    deselected, nothing is selected or staged in the hook, and yet submitting
    performs exactly the run with that texture as [textureFile], in which
    it is the texture applied. *)
Theorem deselected_texture_is_still_used (opts : Options) (w : World)
    (hook : Textures.State) (page : Page.State) (modelFile t : File) :
  Page.file page = Some modelFile ->
  let selected := Page.handleTextureSelect hook page (Some t) in
  let deselected :=
    Page.handleTextureSelect (fst selected) (snd selected) None in
  Textures.selectedTexture (fst deselected) = None
  /\ Textures.appliedTexture (fst deselected) = None
  /\ fst (handleSubmit opts w (fst deselected) (snd deselected))
     = fst (generateSpriteStrip opts None w (Some modelFile) (Some t))
  /\ textureToUseOf (Textures.appliedTexture (fst deselected))
       (Page.textureToUse (fst deselected) (snd deselected))
     = Some t.
Proof.
  intros Hfile. cbn zeta.
  unfold Page.handleTextureSelect, Textures.selectTexture.
  cbn [fst snd Textures.selectedTexture Textures.appliedTexture].
  split; [reflexivity|]. split; [reflexivity|]. split; [|reflexivity].
  unfold handleSubmit. cbn [Page.file]. rewrite Hfile.
  unfold Page.textureToUse.
  cbn [Textures.selectedTexture Textures.appliedTexture Page.texture].
  rewrite fst_bind. cbn [ret fst].
  destruct (snd (generateSpriteStrip opts None w (Some modelFile) (Some t)));
    apply app_nil_r.
Qed.

End Pipeline.

(** * The viewer *)

Section ViewerProperties.

(** The rounding of the handlers' arithmetic. *)
Variable round : R -> R.

(** ** The frame under the pointer *)

Lemma frameAt_clamped (n : Z) (rect : Viewer.Rect) (clientX : R) :
  (1 <= n)%Z ->
  (0 <= Viewer.frameAt round n rect clientX <= n - 1)%Z.
Proof. intros Hn. unfold Viewer.frameAt. lia. Qed.

Lemma unitRoundoff_small : 0 < Viewer.unitRoundoff < 1.
Proof.
  unfold Viewer.unitRoundoff.
  assert (H : 1 < 2 ^ 53).
  { apply Rlt_pow_R1; [lra|lia]. }
  split; [apply Rinv_0_lt_compat; lra|].
  rewrite <- Rinv_1. apply Rinv_lt_contravar; lra.
Qed.

(** An accurate rounding of a number that is not negative. *)
Lemma accurate_nonneg (a : R) :
  Viewer.Accurate round -> 0 <= a ->
  a * (1 - Viewer.unitRoundoff) <= round a
  /\ round a <= a * (1 + Viewer.unitRoundoff).
Proof.
  intros Hacc Ha. assert (H := Hacc a).
  rewrite (Rabs_right a) in H by lra.
  unfold Rabs in H. destruct (Rcase_abs (round a - a)); lra.
Qed.

(** The rounded quotient the frame is the integer part of, for a pointer
    that is not left of the container: it differs from the exact one,
    [q], by three roundings at most. *)
Lemma rounded_position (n : Z) (rect : Viewer.Rect) (clientX : R) :
  Viewer.Monotone round -> Viewer.Accurate round ->
  (1 <= n)%Z -> 0 < Viewer.rectWidth rect ->
  let u := Viewer.unitRoundoff in
  let q := (clientX - Viewer.rectLeft rect) / Viewer.rectWidth rect * IZR n in
  0 <= q ->
  q * ((1 + u) * (1 + u) * (1 + u)) < IZR n ->
  exists r,
    Viewer.frameAt round n rect clientX
    = Z.max 0 (Z.min (Zfloor r) (n - 1))
    /\ q * ((1 - u) * (1 - u) * (1 - u)) <= r
    /\ r <= q * ((1 + u) * (1 + u) * (1 + u)).
Proof.
  intros Hmono Hacc Hn Hw u q Hq0 Hqn.
  assert (Hu := unitRoundoff_small). fold u in Hu.
  assert (Hnn : 1 <= IZR n) by (apply IZR_le; exact Hn).
  set (W := Viewer.rectWidth rect) in *.
  set (x0 := clientX - Viewer.rectLeft rect) in *.
  assert (HiW : 0 < / W) by (apply Rinv_0_lt_compat; exact Hw).
  assert (Hx0 : 0 <= x0).
  { destruct (Rle_lt_dec 0 x0) as [H|H]; [exact H|].
    exfalso. unfold q, Rdiv in Hq0.
    assert (x0 * / W < 0) by nra. nra. }
  assert (Hqx : q * W = x0 * IZR n) by (unfold q; field; lra).
  destruct (accurate_nonneg x0 Hacc Hx0) as [Hxl Hxu]. fold u in Hxl, Hxu.
  set (x := round x0) in *.
  assert (Hx : 0 <= x) by nra.
  assert (HxW : x <= W).
  { destruct (Rle_lt_dec x W) as [H|H]; [exact H|]. exfalso.
    assert (W < x0 * (1 + u)) by lra.
    assert (IZR n * W < q * W * (1 + u)) by (rewrite Hqx; nra).
    assert (Hu1 : 1 <= (1 + u) * (1 + u)) by nra.
    assert (Hu2 : 1 + u <= (1 + u) * (1 + u) * (1 + u)) by nra.
    assert (Hu3 : 0 <= q * W) by nra.
    assert (q * W * (1 + u) <= q * W * ((1 + u) * (1 + u) * (1 + u)))
      by (apply Rmult_le_compat_l; assumption).
    assert (q * ((1 + u) * (1 + u) * (1 + u)) * W < IZR n * W)
      by (apply Rmult_lt_compat_r; assumption).
    lra. }
  unfold Viewer.frameAt. fold x0. fold x. fold W.
  rewrite (Rmin_left x W) by exact HxW. rewrite (Rmax_right 0 x) by exact Hx.
  assert (Hp0 : 0 <= x / W) by (unfold Rdiv; nra).
  destruct (accurate_nonneg (x / W) Hacc Hp0) as [Hpl Hpu].
  fold u in Hpl, Hpu.
  set (pc := round (x / W)) in *.
  assert (Hpc : 0 <= pc) by nra.
  assert (Hr0 : 0 <= pc * IZR n) by nra.
  destruct (accurate_nonneg (pc * IZR n) Hacc Hr0) as [Hrl Hru].
  fold u in Hrl, Hru.
  exists (round (pc * IZR n)). split; [reflexivity|].
  assert (Hq' : q = x0 / W * IZR n) by reflexivity.
  assert (Hxw : x0 * (1 - u) / W <= x / W /\ x / W <= x0 * (1 + u) / W).
  { unfold Rdiv. split; apply Rmult_le_compat_r; lra. }
  destruct Hxw as [Hxwl Hxwu].
  assert (Hpl' : x0 / W * ((1 - u) * (1 - u)) <= pc).
  { eapply Rle_trans; [|exact Hpl].
    replace (x0 / W * ((1 - u) * (1 - u)))
      with (x0 * (1 - u) / W * (1 - u)) by (unfold Rdiv; ring).
    apply Rmult_le_compat_r; lra. }
  assert (Hpu' : pc <= x0 / W * ((1 + u) * (1 + u))).
  { eapply Rle_trans; [exact Hpu|].
    replace (x0 / W * ((1 + u) * (1 + u)))
      with (x0 * (1 + u) / W * (1 + u)) by (unfold Rdiv; ring).
    apply Rmult_le_compat_r; lra. }
  split.
  - eapply Rle_trans; [|exact Hrl].
    rewrite Hq'.
    replace (x0 / W * IZR n * ((1 - u) * (1 - u) * (1 - u)))
      with (x0 / W * ((1 - u) * (1 - u)) * IZR n * (1 - u)) by ring.
    apply Rmult_le_compat_r; [lra|].
    apply Rmult_le_compat_r; lra.
  - eapply Rle_trans; [exact Hru|].
    rewrite Hq'.
    replace (x0 / W * IZR n * ((1 + u) * (1 + u) * (1 + u)))
      with (x0 / W * ((1 + u) * (1 + u)) * IZR n * (1 + u)) by ring.
    apply Rmult_le_compat_r; [lra|].
    apply Rmult_le_compat_r; lra.
Qed.

(** X15.  Moving the pointer over the container picks the frame by
    position, up to the rounding of the three operations in between.  Let
    the container be cut into [frameCount] equal vertical bands and [q] be
    the pointer's distance from the left edge in band widths.  A pointer
    inside band [k], away from its two edges by the relative error of
    three roundings, selects frame [k].  A pointer exactly on the edge
    between two bands selects one of the two: the integer part is taken
    of a rounded number, which can fall just below the edge. *)
Theorem frameAt_is_band_under_pointer (n : Z) (rect : Viewer.Rect)
    (clientX : R) (k : Z) :
  Viewer.Monotone round ->
  Viewer.Accurate round ->
  (1 <= n)%Z ->
  0 < Viewer.rectWidth rect ->
  (0 <= k < n)%Z ->
  let u := Viewer.unitRoundoff in
  let q := (clientX - Viewer.rectLeft rect) / Viewer.rectWidth rect * IZR n in
  (IZR k <= q * ((1 - u) * (1 - u) * (1 - u)) ->
   q * ((1 + u) * (1 + u) * (1 + u)) < IZR k + 1 ->
   Viewer.frameAt round n rect clientX = k)
  /\ (q = IZR k ->
      IZR k * ((1 + u) * (1 + u) * (1 + u) - 1) < 1 ->
      Viewer.frameAt round n rect clientX = k
      \/ Viewer.frameAt round n rect clientX = (k - 1)%Z).
Proof.
  intros Hmono Hacc Hn Hw Hk u q.
  assert (Hu := unitRoundoff_small). fold u in Hu.
  assert (Hk0 : 0 <= IZR k) by (apply IZR_le; lia).
  assert (Hk1 : IZR k + 1 <= IZR n).
  { rewrite <- plus_IZR. apply IZR_le. lia. }
  assert (Hlow : 0 < (1 - u) * (1 - u) * (1 - u)).
  { apply Rmult_lt_0_compat; [apply Rmult_lt_0_compat|]; lra. }
  assert (Hlow1 : (1 - u) * (1 - u) * (1 - u) <= 1).
  { assert (0 < (1 - u) * (1 - u) <= 1) by nra. nra. }
  assert (Hup1 : 1 <= (1 + u) * (1 + u) * (1 + u)).
  { assert (1 <= (1 + u) * (1 + u)) by nra. nra. }
  split.
  - intros Hlo Hhi.
    assert (Hq0 : 0 <= q).
    { destruct (Rle_lt_dec 0 q) as [H|H]; [exact H|]. exfalso. nra. }
    destruct (rounded_position n rect clientX Hmono Hacc Hn Hw Hq0)
      as (r & -> & Hrl & Hru).
    { fold q. fold u. lra. }
    fold q in Hrl, Hru. fold u in Hrl, Hru.
    assert (Hfloor : Zfloor r = k).
    { apply Zfloor_eq. split; lra. }
    rewrite Hfloor. lia.
  - intros Hqk Hedge.
    assert (Hq0 : 0 <= q) by lra.
    destruct (rounded_position n rect clientX Hmono Hacc Hn Hw Hq0)
      as (r & -> & Hrl & Hru).
    { fold q. fold u. rewrite Hqk. lra. }
    fold q in Hrl, Hru. fold u in Hrl, Hru. rewrite Hqk in Hrl, Hru.
    assert (Hdown : IZR k - 1 < IZR k * ((1 - u) * (1 - u) * (1 - u))).
    { assert (1 - (1 - u) * (1 - u) * (1 - u)
              <= (1 + u) * (1 + u) * (1 + u) - 1) by nra.
      nra. }
    destruct (Rle_lt_dec (IZR k) r) as [Hge|Hlt].
    + left. assert (Hfloor : Zfloor r = k) by (apply Zfloor_eq; split; lra).
      rewrite Hfloor. lia.
    + right.
      assert (Hfloor : Zfloor r = (k - 1)%Z).
      { apply Zfloor_eq. rewrite minus_IZR. split; lra. }
      rewrite Hfloor.
      assert (0 < IZR k) by nra.
      assert (0 < k)%Z by (apply lt_IZR; assumption). lia.
Qed.

Lemma clamp_monotone (W a b : R) :
  a <= b -> Rmax 0 (Rmin a W) <= Rmax 0 (Rmin b W).
Proof.
  intros Hab. apply Rle_max_compat_l, Rle_min_compat_r. exact Hab.
Qed.

(** X16.  The frame under the pointer never decreases as the pointer moves
    right, whatever the rounding, as long as it is monotone; at and left of
    the container's left edge it is frame 0, at and right of its right edge
    it is the last frame (where the floor alone gives [frameCount], one too
    many, the width and the frame count being doubles); so it is always a
    frame of the strip. *)
Theorem frameAt_monotone_between_edges (n : Z) (rect : Viewer.Rect)
    (a b : R) :
  Viewer.Monotone round ->
  (1 <= n)%Z ->
  0 < Viewer.rectWidth rect ->
  a <= b ->
  (Viewer.frameAt round n rect a <= Viewer.frameAt round n rect b)%Z
  /\ (0 <= Viewer.frameAt round n rect a <= n - 1)%Z
  /\ (a <= Viewer.rectLeft rect -> Viewer.frameAt round n rect a = 0%Z)
  /\ (Viewer.rectLeft rect + Viewer.rectWidth rect <= b ->
      Viewer.isDouble round (Viewer.rectWidth rect) ->
      Viewer.isDouble round (IZR n) ->
      Viewer.frameAt round n rect b = (n - 1)%Z
      /\ Zfloor
           (round
              (round (Rmax 0 (Rmin (round (b - Viewer.rectLeft rect))
                                (Viewer.rectWidth rect))
                      / Viewer.rectWidth rect)
               * IZR n)) = n).
Proof.
  intros [Hmono Hzero Hone] Hn Hw Hab.
  assert (Hnn : 0 < IZR n) by (apply IZR_lt; lia).
  split; [|split; [apply frameAt_clamped; exact Hn|split]].
  - unfold Viewer.frameAt.
    set (W := Viewer.rectWidth rect) in *.
    assert (Hx : round (a - Viewer.rectLeft rect)
                 <= round (b - Viewer.rectLeft rect))
      by (apply Hmono; lra).
    assert (Hc := clamp_monotone W _ _ Hx).
    assert (Hinv : 0 < / W) by (apply Rinv_0_lt_compat; exact Hw).
    assert (Hp : round (Rmax 0 (Rmin (round (a - Viewer.rectLeft rect)) W) / W)
                 <= round (Rmax 0 (Rmin (round (b - Viewer.rectLeft rect)) W)
                           / W)).
    { apply Hmono. unfold Rdiv. apply Rmult_le_compat_r; [lra|exact Hc]. }
    assert (Hq : round
                   (round (Rmax 0 (Rmin (round (a - Viewer.rectLeft rect)) W)
                           / W) * IZR n)
                 <= round
                      (round
                         (Rmax 0 (Rmin (round (b - Viewer.rectLeft rect)) W)
                          / W) * IZR n)).
    { apply Hmono. apply Rmult_le_compat_r; [lra|exact Hp]. }
    apply Zfloor_le in Hq. lia.
  - intros Ha. unfold Viewer.frameAt.
    assert (Hx : round (a - Viewer.rectLeft rect) <= 0).
    { rewrite <- Hzero. apply Hmono. lra. }
    rewrite Rmin_left by lra. rewrite Rmax_left by exact Hx.
    replace (0 / Viewer.rectWidth rect) with 0 by (unfold Rdiv; ring).
    rewrite Hzero, Rmult_0_l, Hzero.
    change 0 with (IZR 0). rewrite ZfloorZ. lia.
  - intros Hb HW Hdn. unfold Viewer.isDouble in HW, Hdn.
    assert (Hx : Viewer.rectWidth rect <= round (b - Viewer.rectLeft rect)).
    { rewrite <- HW at 1. apply Hmono. lra. }
    assert (Hfloor :
              Zfloor
                (round
                   (round (Rmax 0 (Rmin (round (b - Viewer.rectLeft rect))
                                     (Viewer.rectWidth rect))
                           / Viewer.rectWidth rect)
                    * IZR n)) = n).
    { rewrite Rmin_right by exact Hx. rewrite Rmax_right by lra.
      replace (Viewer.rectWidth rect / Viewer.rectWidth rect) with 1
        by (field; lra).
      rewrite Hone, Rmult_1_l, Hdn. apply ZfloorZ. }
    split; [|exact Hfloor].
    unfold Viewer.frameAt. rewrite Hfloor. lia.
Qed.

(** ** The animation *)

Lemma frameChanges_app (l1 l2 : list Viewer.Notice) :
  Viewer.frameChanges (l1 ++ l2)
  = Viewer.frameChanges l1 ++ Viewer.frameChanges l2.
Proof.
  induction l1 as [|[f|b] l1 IH]; cbn [app Viewer.frameChanges];
    rewrite ?IH; reflexivity.
Qed.

Lemma run_app (props : Viewer.Props) (st : Viewer.State)
    (l1 l2 : list Viewer.Event) :
  Viewer.run round props st (l1 ++ l2)
  = (fst (Viewer.run round props (fst (Viewer.run round props st l1)) l2),
     snd (Viewer.run round props st l1)
       ++ snd (Viewer.run round props (fst (Viewer.run round props st l1)) l2)).
Proof.
  revert st. induction l1 as [|ev l1 IH]; intros st.
  - cbn [app Viewer.run fst snd]. destruct (Viewer.run round props st l2).
    reflexivity.
  - cbn [app Viewer.run fst snd]. rewrite IH. cbn [fst snd].
    rewrite app_assoc. reflexivity.
Qed.

(** X17.  While the animation plays, each tick of the interval shows the
    next frame and wraps from the last frame to the first: after [k] ticks
    the frame is [(frame + k) mod frameCount], every frame passed is
    reported to [onFrameChange], and after [frameCount] ticks the viewer is
    back at the frame it started from. *)
Theorem autoplay_cycles_through_frames (props : Viewer.Props)
    (st : Viewer.State) (k : nat) :
  (1 <= Viewer.frameCount props)%Z ->
  Viewer.isPlaying st = true ->
  (0 <= Viewer.currentFrame st < Viewer.frameCount props)%Z ->
  let n := Viewer.frameCount props in
  let after := fun j => Viewer.run round props st (repeat Viewer.Tick j) in
  Viewer.currentFrame (fst (after k))
  = ((Viewer.currentFrame st + Z.of_nat k) mod n)%Z
  /\ Viewer.frameChanges (snd (after k))
     = map (fun j => ((Viewer.currentFrame st + Z.of_nat j) mod n)%Z)
         (seq 1 k)
  /\ Viewer.currentFrame (fst (after (Z.to_nat n))) = Viewer.currentFrame st.
Proof.
  intros Hn Hplay Hf n after.
  assert (Hall : forall j,
             Viewer.currentFrame (fst (after j))
             = ((Viewer.currentFrame st + Z.of_nat j) mod n)%Z
             /\ Viewer.isPlaying (fst (after j)) = true
             /\ Viewer.frameChanges (snd (after j))
                = map (fun i => ((Viewer.currentFrame st + Z.of_nat i)
                                 mod n)%Z) (seq 1 j)).
  { induction j as [|j (IHf & IHp & IHn)].
    - cbn. rewrite Z.add_0_r, Z.mod_small by lia. repeat split. exact Hplay.
    - unfold after in *.
      replace (S j) with (j + 1)%nat by lia.
      rewrite repeat_app, run_app. cbn [fst snd repeat Viewer.run].
      cbn [Viewer.step]. unfold Viewer.tick. rewrite IHp.
      cbn [fst snd Viewer.setCurrentFrame Viewer.currentFrame
           Viewer.isPlaying].
      assert (Hnext : Viewer.nextFrame (Viewer.frameCount props)
                        (Viewer.currentFrame
                           (fst (Viewer.run round props st
                                   (repeat Viewer.Tick j))))
                      = ((Viewer.currentFrame st + Z.of_nat (j + 1)) mod n)%Z).
      { unfold Viewer.nextFrame. rewrite IHf. fold n.
        assert (Hm := Z.mod_pos_bound (Viewer.currentFrame st + Z.of_nat j) n
                        ltac:(lia)).
        rewrite Z.rem_mod_nonneg by lia.
        rewrite Zplus_mod_idemp_l. f_equal. lia. }
      rewrite Hnext. split; [reflexivity|]. split; [exact IHp|].
      rewrite frameChanges_app, IHn. cbn [app Viewer.frameChanges].
      rewrite (seq_app j 1 1), map_app. cbn [seq map].
      replace (1 + j)%nat with (j + 1)%nat by lia. reflexivity. }
  destruct (Hall k) as (H1 & _ & H2). split; [exact H1|]. split; [exact H2|].
  destruct (Hall (Z.to_nat n)) as (H3 & _). rewrite H3.
  rewrite Z2Nat.id by lia.
  rewrite <- (Z.mul_1_l n) at 1. rewrite Z.mod_add by lia.
  apply Z.mod_small. exact Hf.
Qed.

(** ** The state of the viewer *)

Lemma nextFrame_in_range (n f : Z) :
  (1 <= n)%Z -> (0 <= f <= n - 1)%Z ->
  (0 <= Viewer.nextFrame n f <= n - 1)%Z.
Proof.
  intros Hn Hf. unfold Viewer.nextFrame.
  rewrite Z.rem_mod_nonneg by lia.
  assert (H := Z.mod_pos_bound (f + 1) n ltac:(lia)). lia.
Qed.

Lemma step_in_range (props : Viewer.Props) (st : Viewer.State)
    (ev : Viewer.Event) :
  (1 <= Viewer.frameCount props)%Z ->
  (0 <= Viewer.currentFrame st <= Viewer.frameCount props - 1)%Z ->
  let r := Viewer.step round props st ev in
  (0 <= Viewer.currentFrame (fst r) <= Viewer.frameCount props - 1)%Z
  /\ Forall (fun f => (0 <= f <= Viewer.frameCount props - 1)%Z)
       (Viewer.frameChanges (snd r)).
Proof.
  intros Hn Hf.
  assert (Hmove : forall seen st' e,
             (0 <= Viewer.currentFrame st'
              <= Viewer.frameCount props - 1)%Z ->
             (0 <= Viewer.currentFrame
                     (fst (Viewer.moveTo round props seen st' e))
              <= Viewer.frameCount props - 1)%Z
             /\ Forall (fun f => (0 <= f <= Viewer.frameCount props - 1)%Z)
                  (Viewer.frameChanges
                     (snd (Viewer.moveTo round props seen st' e)))).
  { intros seen st' e Hst'. unfold Viewer.moveTo.
    destruct (negb (Viewer.hover props) || negb (Viewer.isHovering seen));
      [split; [exact Hst'|constructor]|].
    destruct (Viewer.onButton e); [split; [exact Hst'|constructor]|].
    cbn [fst snd Viewer.setCurrentFrame Viewer.currentFrame
         Viewer.frameChanges].
    assert (Hc := frameAt_clamped (Viewer.frameCount props) (Viewer.rect e)
                    (Viewer.clientX e) Hn).
    split; [exact Hc|]. constructor; [exact Hc|constructor]. }
  destruct ev as [| | |e|e|e| |url|]; cbn [Viewer.step].
  - unfold Viewer.tick. destruct (Viewer.isPlaying st);
      [|split; [exact Hf|constructor]].
    cbn [fst snd Viewer.setCurrentFrame Viewer.currentFrame
         Viewer.frameChanges].
    assert (Hnx := nextFrame_in_range _ _ Hn Hf).
    split; [exact Hnx|]. constructor; [exact Hnx|constructor].
  - unfold Viewer.handleMouseEnter.
    destruct (Viewer.hover props), (Viewer.isPlaying st);
      (split; [exact Hf|constructor]).
  - unfold Viewer.handleMouseLeave. destruct (Viewer.hover props);
      [|split; [exact Hf|constructor]].
    cbn [fst snd Viewer.setCurrentFrame Viewer.currentFrame
         Viewer.frameChanges].
    split; [lia|]. constructor; [lia|constructor].
  - apply Hmove. exact Hf.
  - unfold Viewer.handleTouchStart. destruct (Viewer.hover props);
      [|split; [exact Hf|constructor]].
    cbn zeta. cbn [fst snd]. rewrite frameChanges_app.
    match goal with
    | |- context [Viewer.moveTo round props st ?s e] =>
        destruct (Hmove st s e) as (H1 & H2)
    end.
    { destruct (Viewer.isPlaying st); exact Hf. }
    split; [exact H1|]. apply Forall_app. split; [|exact H2].
    destruct (Viewer.isPlaying st); constructor.
  - apply Hmove. exact Hf.
  - unfold Viewer.handleTouchEnd. destruct (Viewer.hover props);
      [|split; [exact Hf|constructor]].
    cbn [fst snd Viewer.setCurrentFrame Viewer.currentFrame
         Viewer.frameChanges].
    split; [lia|]. constructor; [lia|constructor].
  - cbn [fst snd Viewer.frameChanges]. split; [|constructor].
    unfold Viewer.urlChanged. destruct (String.eqb url EmptyString);
      [exact Hf|].
    cbn [Viewer.setCurrentFrame Viewer.currentFrame]. lia.
  - cbn [fst snd Viewer.frameChanges]. split; [exact Hf|constructor].
Qed.

(** X18.  Whatever happens to the viewer (ticks of the animation, the
    pointer entering, moving and leaving, touches, a new strip, a failed
    image), the frame it shows is a frame of the strip, between 0 and
    [frameCount - 1], and so is every frame it reports to [onFrameChange]. *)
Theorem viewer_frame_stays_in_range (props : Viewer.Props)
    (events : list Viewer.Event) :
  (1 <= Viewer.frameCount props)%Z ->
  Forall Viewer.wellFormed events ->
  let r := Viewer.run round props (Viewer.initialState props) events in
  (0 <= Viewer.currentFrame (fst r) <= Viewer.frameCount props - 1)%Z
  /\ Forall (fun f => (0 <= f <= Viewer.frameCount props - 1)%Z)
       (Viewer.frameChanges (snd r)).
Proof.
  intros Hn _.
  assert (Hgen : forall st,
             (0 <= Viewer.currentFrame st
              <= Viewer.frameCount props - 1)%Z ->
             (0 <= Viewer.currentFrame (fst (Viewer.run round props st events))
              <= Viewer.frameCount props - 1)%Z
             /\ Forall (fun f => (0 <= f <= Viewer.frameCount props - 1)%Z)
                  (Viewer.frameChanges
                     (snd (Viewer.run round props st events)))).
  { induction events as [|ev events IH]; intros st Hst.
    - split; [exact Hst|constructor].
    - cbn [Viewer.run fst snd].
      destruct (step_in_range props st ev Hn Hst) as (H1 & H2).
      destruct (IH _ H1) as (H3 & H4).
      split; [exact H3|]. rewrite frameChanges_app.
      apply Forall_app. split; assumption. }
  apply Hgen. cbn. lia.
Qed.

Lemma step_playing (props : Viewer.Props) (st : Viewer.State)
    (ev : Viewer.Event) :
  Viewer.isPlaying (fst (Viewer.step round props st ev))
  = Viewer.isPlaying st
    && negb (Viewer.hover props && Viewer.entering ev).
Proof.
  destruct st as [f p ie h].
  destruct ev as [| | |e|e|e| |url|];
    cbn [Viewer.step Viewer.entering];
    unfold Viewer.tick, Viewer.handleMouseEnter, Viewer.handleMouseLeave,
      Viewer.handleMouseMove, Viewer.handleTouchStart,
      Viewer.handleTouchMove, Viewer.handleTouchEnd, Viewer.moveTo,
      Viewer.urlChanged, Viewer.onError, Viewer.setCurrentFrame,
      Viewer.setIsPlaying, Viewer.setIsHovering, Viewer.setImageError;
    cbn [Viewer.isPlaying Viewer.isHovering Viewer.currentFrame
         Viewer.imageError fst snd];
    destruct (Viewer.hover props), p, h;
    cbn [negb orb andb fst snd Viewer.isPlaying Viewer.isHovering];
    try reflexivity;
    try (destruct (Viewer.onButton e); reflexivity);
    try (destruct (String.eqb url EmptyString); reflexivity).
Qed.

(** X19.  Nothing the viewer reacts to starts the animation.  It plays
    after a sequence of events exactly when it was mounted with [autoPlay]
    and, if hovering is enabled, the pointer has never entered it (by mouse
    or by touch): the first time the pointer enters stops the animation for
    good, and leaving does not resume it. *)
Theorem pointer_stops_autoplay_for_good (props : Viewer.Props)
    (events : list Viewer.Event) :
  let final :=
    fst (Viewer.run round props (Viewer.initialState props) events) in
  Viewer.isPlaying final
  = Viewer.autoPlay props
    && negb (Viewer.hover props && existsb Viewer.entering events).
Proof.
  cbn zeta.
  assert (Hgen : forall st,
             Viewer.isPlaying (fst (Viewer.run round props st events))
             = Viewer.isPlaying st
               && negb (Viewer.hover props
                        && existsb Viewer.entering events)).
  { induction events as [|ev events IH]; intros st.
    - cbn. rewrite andb_false_r, andb_true_r. reflexivity.
    - cbn [Viewer.run fst existsb]. rewrite IH, step_playing.
      destruct (Viewer.isPlaying st), (Viewer.hover props),
        (Viewer.entering ev), (existsb Viewer.entering events);
        reflexivity. }
  apply Hgen.
Qed.

(** X20.  The first touch does not select a frame.  [handleTouchStart]
    marks the viewer as hovered and then calls [handleTouchMove], but that
    call still sees the viewer as not hovered and returns at once: the frame
    stays what it was and [onFrameChange] is not called.  Only the next
    touch-move event, at the very same position, selects the frame under the
    finger. *)
Theorem touchStart_ignores_first_position (props : Viewer.Props)
    (st : Viewer.State) (e : Viewer.Pointer) :
  Viewer.hover props = true ->
  Viewer.isHovering st = false ->
  Viewer.onButton e = false ->
  let started := Viewer.handleTouchStart round props st e in
  let moved := Viewer.handleTouchMove round props (fst started) e in
  Viewer.currentFrame (fst started) = Viewer.currentFrame st
  /\ Viewer.frameChanges (snd started) = []
  /\ Viewer.isHovering (fst started) = true
  /\ Viewer.isPlaying (fst started) = false
  /\ Viewer.currentFrame (fst moved)
     = Viewer.frameAt round (Viewer.frameCount props) (Viewer.rect e)
         (Viewer.clientX e)
  /\ Viewer.frameChanges (snd moved) = [Viewer.currentFrame (fst moved)].
Proof.
  intros Hh Hnot Hbtn. cbn zeta.
  destruct st as [f p ie h]. cbn [Viewer.isHovering] in Hnot. subst h.
  unfold Viewer.handleTouchStart, Viewer.handleTouchMove, Viewer.moveTo,
    Viewer.setCurrentFrame, Viewer.setIsPlaying, Viewer.setIsHovering.
  rewrite Hh, Hbtn.
  cbn [Viewer.isPlaying Viewer.isHovering Viewer.currentFrame
       Viewer.imageError negb orb fst snd].
  destruct p;
    cbn [Viewer.isPlaying Viewer.isHovering Viewer.currentFrame
         Viewer.imageError Viewer.frameChanges negb orb fst snd app];
    repeat split.
Qed.

End ViewerProperties.

(** ** What the viewer displays *)

(** X21.  The inline style shows the current frame and nothing else.  For
    a strip of at least two frames, the background image is [frameCount]
    times as wide as the box, and with frame [k] current its left edge lies
    [k] box widths to the left of the box: the box shows exactly the [k]-th
    of the [frameCount] equal slots in which [createSpriteStrip] drew the
    frames. *)
Theorem background_shows_current_frame (n k : Z) (boxWidth : R) :
  (2 <= n)%Z ->
  let size := Viewer.backgroundSizeX n in
  let position := Viewer.backgroundPositionX n k in
  Viewer.imageWidth boxWidth size = IZR n * boxWidth
  /\ Viewer.imageLeft boxWidth size position = - (IZR k * boxWidth).
Proof.
  intros Hn. cbn zeta.
  unfold Viewer.imageLeft, Viewer.imageWidth, Viewer.backgroundSizeX,
    Viewer.backgroundPositionX.
  rewrite minus_IZR.
  assert (Hnn : 2 <= IZR n) by (apply IZR_le; exact Hn).
  split; field; lra.
Qed.

(** * The texture list *)

Lemma mapGet_mapSet (m : Textures.PreviewMap) (k v k' : string) :
  Textures.mapGet (Textures.mapSet m k v) k'
  = if String.eqb k k' then Some v else Textures.mapGet m k'.
Proof.
  induction m as [|[a b] m IH]; cbn [Textures.mapSet Textures.mapGet].
  - reflexivity.
  - destruct (String.eqb_spec a k) as [->|Hak];
      cbn [Textures.mapGet].
    + destruct (String.eqb k k'); reflexivity.
    + rewrite IH. destruct (String.eqb_spec a k') as [->|Hak'];
        [|reflexivity].
      destruct (String.eqb_spec k k') as [->|_];
        [contradiction Hak; reflexivity|reflexivity].
Qed.

Lemma mapGet_mapDelete (m : Textures.PreviewMap) (k k' : string) :
  Textures.mapGet (Textures.mapDelete m k) k'
  = if String.eqb k k' then None else Textures.mapGet m k'.
Proof.
  unfold Textures.mapDelete.
  induction m as [|[a b] m IH]; cbn [filter Textures.mapGet fst].
  - destruct (String.eqb k k'); reflexivity.
  - destruct (String.eqb_spec a k) as [->|Hak]; cbn [negb Textures.mapGet].
    + rewrite IH. destruct (String.eqb k k'); reflexivity.
    + rewrite IH. destruct (String.eqb_spec a k') as [->|_]; [|reflexivity].
      destruct (String.eqb_spec k k') as [->|_];
        [contradiction Hak; reflexivity|reflexivity].
Qed.

Lemma mapHas_addPreview (w : World) (m : Textures.PreviewMap) (t : File)
    (k : string) :
  Textures.mapHas (Textures.addPreview w m t) k
  = Textures.mapHas m k || String.eqb (fileName t) k.
Proof.
  unfold Textures.addPreview, Textures.mapHas.
  destruct (Textures.mapGet m (fileName t)) as [v|] eqn:E.
  - destruct (String.eqb_spec (fileName t) k) as [<-|_];
      [rewrite E; reflexivity|rewrite orb_false_r; reflexivity].
  - rewrite mapGet_mapSet.
    destruct (String.eqb (fileName t) k);
      [rewrite orb_true_r; reflexivity|rewrite orb_false_r; reflexivity].
Qed.

Lemma mapHas_previews (w : World) (valid : list File)
    (m : Textures.PreviewMap) (k : string) :
  Textures.mapHas (fold_left (Textures.addPreview w) valid m) k
  = Textures.mapHas m k || existsb (fun t => String.eqb (fileName t) k) valid.
Proof.
  revert m. induction valid as [|t valid IH]; intros m.
  - cbn. rewrite orb_false_r. reflexivity.
  - cbn [fold_left existsb]. rewrite IH, mapHas_addPreview.
    rewrite orb_assoc. reflexivity.
Qed.

Lemma slice0_length {A : Type} (l : list A) (e : Z) :
  (0 <= e)%Z ->
  Textures.slice0 l e = firstn (Z.to_nat e) l.
Proof.
  intros He. unfold Textures.slice0.
  destruct (Z.ltb_spec e 0) as [Hlt|_]; [lia|].
  destruct (Z.le_ge_cases e (Z.of_nat (List.length l))) as [Hle|Hge].
  - rewrite Z.min_l by exact Hle. reflexivity.
  - rewrite Z.min_r by lia. rewrite Nat2Z.id.
    rewrite firstn_all, firstn_all2 by lia. reflexivity.
Qed.

Lemma filter_length_le {A : Type} (f : A -> bool) (l : list A) :
  (List.length (filter f l) <= List.length l)%nat.
Proof.
  induction l as [|a l IH]; [reflexivity|].
  cbn [filter]. destruct (f a); cbn [List.length]; lia.
Qed.

Lemma addTextures_textures (options : Textures.Options) (w : World)
    (st : Textures.State) (newTextures : list File) :
  let valid :=
    filter (Textures.accepted options)
      (Textures.slice0 newTextures (Textures.remainingSlots options st)) in
  Textures.textures (Textures.addTextures options w st newTextures)
  = Textures.textures st ++ valid
  /\ Textures.texturePreviews (Textures.addTextures options w st newTextures)
     = fold_left (Textures.addPreview w) valid (Textures.texturePreviews st).
Proof.
  cbn zeta. unfold Textures.addTextures. cbn zeta.
  fold (Textures.remainingSlots options st).
  destruct (filter (Textures.accepted options)
              (Textures.slice0 newTextures
                 (Textures.remainingSlots options st))) as [|f valid].
  - rewrite app_nil_r. split; reflexivity.
  - destruct (Textures.selectedTexture st); split; reflexivity.
Qed.

Lemma addTextures_selection (options : Textures.Options) (w : World)
    (st : Textures.State) (newTextures : list File) :
  let st' := Textures.addTextures options w st newTextures in
  (Textures.appliedTexture st = Textures.selectedTexture st ->
   Textures.appliedTexture st' = Textures.selectedTexture st')
  /\ ((Textures.textureApplied st = true ->
       Textures.selectedTexture st <> None) ->
      Textures.textureApplied st' = true ->
      Textures.selectedTexture st' <> None).
Proof.
  cbn zeta. unfold Textures.addTextures. cbn zeta.
  destruct (filter _ _) as [|f valid]; [split; auto|].
  destruct (Textures.selectedTexture st) as [s|] eqn:Hs;
    cbn [Textures.appliedTexture Textures.selectedTexture
         Textures.textureApplied].
  - split; [auto|]. intros _ _. discriminate.
  - split; [reflexivity|]. intros _ H. discriminate H.
Qed.

Lemma step_consistent (options : Textures.Options) (w : World)
    (st : Textures.State) (a : Textures.Action) :
  (1 <= Textures.maxTexturesOf options)%Z ->
  Textures.consistent options st ->
  Textures.consistent options (fst (Textures.step options w st a)).
Proof.
  intros Hmax (Happ & Hflag & Hlen & Hacc & Hprev).
  destruct a as [newTextures|textureName| |texture|]; cbn [Textures.step fst].
  - destruct (addTextures_textures options w st newTextures) as (Ht & Hp).
    destruct (addTextures_selection options w st newTextures) as (Hs1 & Hs2).
    cbn zeta in Ht, Hp, Hs1, Hs2.
    assert (Hrem : (0 <= Textures.remainingSlots options st)%Z)
      by (unfold Textures.remainingSlots; lia).
    rewrite slice0_length in Ht, Hp by exact Hrem.
    unfold Textures.consistent. rewrite Ht, Hp.
    split; [apply Hs1; exact Happ|]. split; [apply Hs2; exact Hflag|].
    split; [|split].
    + rewrite length_app.
      assert (H1 := filter_length_le (Textures.accepted options)
                      (firstn (Z.to_nat (Textures.remainingSlots options st))
                         newTextures)).
      rewrite length_firstn in H1.
      unfold Textures.remainingSlots in *. lia.
    + apply Forall_app. split; [exact Hacc|].
      apply Forall_forall. intros t Ht'. apply filter_In in Ht'. apply Ht'.
    + apply Forall_app. split.
      * eapply Forall_impl; [|exact Hprev]. intros t Ht'. cbn beta in *.
        rewrite mapHas_previews, Ht'. reflexivity.
      * apply Forall_forall. intros t Ht'.
        rewrite mapHas_previews. apply orb_true_iff. right.
        apply existsb_exists. exists t. split; [exact Ht'|].
        apply String.eqb_refl.
  - unfold Textures.removeTexture. cbn zeta.
    set (kept := filter _ (Textures.textures st)).
    assert (Hk1 : (List.length kept <= List.length (Textures.textures st))%nat)
      by apply filter_length_le.
    assert (Hk2 : Forall (fun t => Textures.accepted options t = true) kept).
    { apply Forall_forall. intros t Ht. apply filter_In in Ht.
      rewrite Forall_forall in Hacc. apply Hacc, Ht. }
    assert (Hk3 : forall m,
               (m = Textures.texturePreviews st
                \/ m = Textures.mapDelete (Textures.texturePreviews st)
                         textureName) ->
               Forall (fun t => Textures.mapHas m (fileName t) = true) kept).
    { intros m Hm. apply Forall_forall. intros t Ht.
      apply filter_In in Ht. destruct Ht as (Hin & Hne).
      rewrite Forall_forall in Hprev. specialize (Hprev t Hin).
      destruct Hm as [->| ->]; [exact Hprev|].
      cbn beta in *. unfold Textures.mapHas in *.
      rewrite mapGet_mapDelete.
      destruct (String.eqb_spec textureName (fileName t)) as [E|_];
        [|exact Hprev].
      rewrite <- E, String.eqb_refl in Hne. discriminate Hne. }
    assert (Hk4 : Forall
                    (fun t =>
                       Textures.mapHas
                         (fst match Textures.mapGet
                                      (Textures.texturePreviews st)
                                      textureName with
                              | Some preview =>
                                  if String.eqb preview EmptyString
                                  then (Textures.texturePreviews st, [])
                                  else (Textures.mapDelete
                                          (Textures.texturePreviews st)
                                          textureName, [preview])
                              | None => (Textures.texturePreviews st, [])
                              end) (fileName t) = true) kept).
    { apply Hk3.
      destruct (Textures.mapGet (Textures.texturePreviews st) textureName)
        as [preview|]; [|left; reflexivity].
      destruct (String.eqb preview EmptyString);
        [left; reflexivity|right; reflexivity]. }
    destruct (match Textures.selectedTexture st with
              | Some selected => String.eqb (fileName selected) textureName
              | None => false
              end);
      cbn [fst]; unfold Textures.consistent;
      cbn [Textures.appliedTexture Textures.selectedTexture
           Textures.textureApplied Textures.textures
           Textures.texturePreviews];
      (split; [reflexivity || exact Happ|]);
      (split; [discriminate || exact Hflag|]);
      (split; [lia|]); (split; [exact Hk2|exact Hk4]).
  - unfold Textures.clearAllTextures, Textures.consistent.
    cbn [fst Textures.appliedTexture Textures.selectedTexture
         Textures.textureApplied Textures.textures Textures.texturePreviews
         List.length].
    split; [reflexivity|]. split; [discriminate|]. split; [lia|].
    split; constructor.
  - unfold Textures.selectTexture, Textures.consistent.
    destruct texture as [t|];
      cbn [Textures.appliedTexture Textures.selectedTexture
           Textures.textureApplied Textures.textures
           Textures.texturePreviews];
      (split; [reflexivity|]); (split; [discriminate|]);
      (split; [exact Hlen|]); (split; [exact Hacc|exact Hprev]).
  - unfold Textures.applySelectedTexture, Textures.applyTextureFromFile.
    destruct (Textures.selectedTexture st) as [s|] eqn:Hs; cbn [fst].
    + unfold Textures.consistent.
      cbn [Textures.appliedTexture Textures.selectedTexture
           Textures.textureApplied Textures.textures
           Textures.texturePreviews].
      split; [reflexivity|]. split; [discriminate|].
      split; [exact Hlen|]. split; [exact Hacc|exact Hprev].
    + unfold Textures.consistent. rewrite ?Hs.
      split; [exact Happ|]. split; [exact Hflag|].
      split; [exact Hlen|]. split; [exact Hacc|exact Hprev].
Qed.

(** A call leaves alone what it has no setter for. *)
Lemma settle_single (options : Textures.Options) (w : World)
    (st : Textures.State) (a : Textures.Action) :
  Textures.settle (Textures.reached options st a)
    (fst (Textures.step options w st a)) st
  = fst (Textures.step options w st a).
Proof.
  destruct st as [ts sel pv app flag].
  destruct a as [newTextures|textureName| |texture|];
    cbn [Textures.step Textures.reached fst].
  - unfold Textures.addTextures, Textures.remainingSlots.
    cbn [Textures.textures Textures.selectedTexture].
    destruct (filter (Textures.accepted options) _) as [|f fs];
      [reflexivity|].
    destruct sel; reflexivity.
  - unfold Textures.removeTexture, Textures.replacesPreviews.
    cbn [Textures.textures Textures.selectedTexture
         Textures.texturePreviews].
    destruct (match sel with
              | Some selected => String.eqb (fileName selected) textureName
              | None => false
              end);
      destruct (Textures.mapGet pv textureName) as [preview|];
      try destruct (String.eqb preview EmptyString); reflexivity.
  - reflexivity.
  - destruct texture; reflexivity.
  - unfold Textures.applySelectedTexture, Textures.applyTextureFromFile.
    cbn [Textures.selectedTexture]. destruct sel; reflexivity.
Qed.

Lemma handler_single (options : Textures.Options) (w : World)
    (st : Textures.State) (a : Textures.Action) :
  Textures.handler options w st st [a] = Textures.step options w st a.
Proof.
  cbn [Textures.handler fst snd]. rewrite settle_single, app_nil_r.
  destruct (Textures.step options w st a). reflexivity.
Qed.

(** [selectTexture] reads nothing of the state and sets what [addTextures]
    may have set of the selection: after the two the state is the one the
    second call would leave if made on the state the first one left. *)
Lemma handler_add_select (options : Textures.Options) (w : World)
    (st : Textures.State) (newTextures : list File) (texture : option File) :
  fst (Textures.handler options w st st
         [Textures.AddTextures newTextures; Textures.SelectTexture texture])
  = Textures.selectTexture (Textures.addTextures options w st newTextures)
      texture.
Proof.
  cbn [Textures.handler].
  rewrite (settle_single options w st (Textures.AddTextures newTextures)).
  cbn [Textures.step fst Textures.reached].
  unfold Textures.settle, Textures.selectTexture.
  cbn [Textures.setsTextures Textures.setsSelectedTexture
       Textures.setsTexturePreviews Textures.setsAppliedTexture
       Textures.setsTextureApplied].
  destruct texture;
    cbn [Textures.textures Textures.selectedTexture Textures.texturePreviews
         Textures.appliedTexture Textures.textureApplied];
    reflexivity.
Qed.

Lemma handler_consistent (options : Textures.Options) (w : World)
    (st : Textures.State) (calls : list Textures.Action) :
  (1 <= Textures.maxTexturesOf options)%Z ->
  Textures.oneCallOrSelector calls ->
  Textures.consistent options st ->
  Textures.consistent options (fst (Textures.handler options w st st calls)).
Proof.
  intros Hmax [(a & ->)|(newTextures & texture & ->)] Hst.
  - rewrite handler_single. apply step_consistent; assumption.
  - rewrite handler_add_select.
    apply (step_consistent options w _ (Textures.SelectTexture texture) Hmax).
    apply (step_consistent options w st (Textures.AddTextures newTextures)
             Hmax Hst).
Qed.

(** X22.  Whatever the page does with the texture list (adding files,
    removing a texture by name, clearing the list, selecting or deselecting
    a texture, applying the selected texture), in any order and from the
    empty list, as long as each event handler makes one call of the hook, or
    the two calls of the texture selector, and the configured limit is not
    negative: the texture staged for generation is the selected one, so that
    a run uses the selected texture whether or not it was applied;
    [textureApplied] is true only while a texture is selected; the list is
    never longer than the limit; every listed texture has an accepted
    extension; and every listed texture has a preview. *)
Theorem texture_list_stays_consistent (options : Textures.Options)
    (w : World) (handlers : list (list Textures.Action))
    (textureFile : option File) :
  (1 <= Textures.maxTexturesOf options)%Z ->
  Forall Textures.oneCallOrSelector handlers ->
  let st := fst (Textures.run options w Textures.initialState handlers) in
  Textures.consistent options st
  /\ textureToUseOf (Textures.appliedTexture st) textureFile
     = textureToUseOf (Textures.selectedTexture st) textureFile.
Proof.
  intros Hmax Hall st.
  assert (Hgen : forall s,
             Textures.consistent options s ->
             Textures.consistent options
               (fst (Textures.run options w s handlers))).
  { induction Hall as [|calls handlers Hcalls _ IH]; intros s Hs;
      [exact Hs|].
    cbn [Textures.run fst]. apply IH.
    apply handler_consistent; assumption. }
  assert (Hc : Textures.consistent options st).
  { apply Hgen. unfold Textures.consistent, Textures.initialState.
    cbn [Textures.appliedTexture Textures.selectedTexture
         Textures.textureApplied Textures.textures Textures.texturePreviews
         List.length].
    split; [reflexivity|]. split; [discriminate|]. split; [lia|].
    split; constructor. }
  split; [exact Hc|]. destruct Hc as (-> & _). reflexivity.
Qed.

(** X30.  Two calls made in one event handler do not see each other.
    [selectTexture (b)] followed at once by [applySelectedTexture ()] stages
    the texture that was selected before, not [b]: the second call reads
    the selection of the render the handler belongs to.  With a texture [a]
    selected, [b] ends up selected and [a] staged and marked as applied, and
    the next run uses [a]; with nothing selected, the second call throws and
    [b] ends up selected and staged, not applied.  Made in two handlers, one
    after the other, the same two calls stage [b] and mark it applied. *)
Theorem calls_of_one_handler_read_the_same_state
    (options : Textures.Options) (w : World) (st : Textures.State)
    (b : File) (textureFile : option File) :
  let calls :=
    [Textures.SelectTexture (Some b); Textures.ApplySelectedTexture] in
  let together := fst (Textures.handler options w st st calls) in
  let apart :=
    fst (Textures.run options w st
           [[Textures.SelectTexture (Some b)];
            [Textures.ApplySelectedTexture]]) in
  Textures.selectedTexture together = Some b
  /\ match Textures.selectedTexture st with
     | Some a =>
         Textures.appliedTexture together = Some a
         /\ Textures.textureApplied together = true
         /\ textureToUseOf (Textures.appliedTexture together) textureFile
            = Some a
     | None =>
         Textures.appliedTexture together = Some b
         /\ Textures.textureApplied together = false
         /\ snd (Textures.applySelectedTexture st)
            = Rejected (ErrorObject "No texture selected")
     end
  /\ Textures.selectedTexture apart = Some b
  /\ Textures.appliedTexture apart = Some b
  /\ Textures.textureApplied apart = true.
Proof.
  cbn zeta.
  cbn [Textures.run Textures.handler Textures.step Textures.reached fst snd].
  unfold Textures.settle, Textures.selectTexture,
    Textures.applySelectedTexture, Textures.applyTextureFromFile.
  cbn [Textures.setsTextures Textures.setsSelectedTexture
       Textures.setsTexturePreviews Textures.setsAppliedTexture
       Textures.setsTextureApplied Textures.textures
       Textures.selectedTexture Textures.texturePreviews
       Textures.appliedTexture Textures.textureApplied fst snd].
  destruct (Textures.selectedTexture st) as [a|];
    cbn [Textures.setsTextures Textures.setsSelectedTexture
         Textures.setsTexturePreviews Textures.setsAppliedTexture
         Textures.setsTextureApplied Textures.textures
         Textures.selectedTexture Textures.texturePreviews
         Textures.appliedTexture Textures.textureApplied fst snd
         textureToUseOf];
    repeat split.
Qed.

(** X23.  [addTextures] counts the free slots before it looks at the
    formats.  With [remaining] slots free, the list grows by the accepted
    files among the first [remaining] files offered, in the order offered,
    and what was listed stays in front.  Files offered beyond that are
    dropped even when files before them were rejected for their format: if
    the first [remaining] files offered are all rejected, nothing at all
    changes, however many accepted files follow. *)
Theorem addTextures_counts_slots_before_formats (options : Textures.Options)
    (w : World) (st : Textures.State) (newTextures : list File) :
  (0 <= Textures.remainingSlots options st)%Z ->
  let slots := Z.to_nat (Textures.remainingSlots options st) in
  let st' := Textures.addTextures options w st newTextures in
  Textures.textures st'
  = Textures.textures st
    ++ filter (Textures.accepted options) (firstn slots newTextures)
  /\ (List.length (Textures.textures st')
      <= List.length (Textures.textures st) + slots)%nat
  /\ (forallb (fun f => negb (Textures.accepted options f))
        (firstn slots newTextures) = true ->
      st' = st).
Proof.
  intros Hrem slots st'.
  destruct (addTextures_textures options w st newTextures) as (Ht & _).
  cbn zeta in Ht. rewrite slice0_length in Ht by exact Hrem.
  fold slots in Ht. fold st' in Ht.
  split; [exact Ht|]. split.
  - rewrite Ht, length_app.
    assert (H1 := filter_length_le (Textures.accepted options)
                    (firstn slots newTextures)).
    rewrite length_firstn in H1. lia.
  - intros Hall. unfold st', Textures.addTextures. cbn zeta.
    fold (Textures.remainingSlots options st).
    rewrite slice0_length by exact Hrem. fold slots.
    assert (Hnil : filter (Textures.accepted options)
                     (firstn slots newTextures) = []).
    { clear Ht. revert Hall. generalize (firstn slots newTextures).
      intros l. induction l as [|f l IH]; [reflexivity|].
      cbn [forallb filter]. intros Hall. apply andb_prop in Hall.
      destruct Hall as (Hf & Hl).
      destruct (Textures.accepted options f); [discriminate Hf|].
      apply IH. exact Hl. }
    rewrite Hnil. reflexivity.
Qed.

(** X24.  When the list is over the limit, [addTextures] does not refuse:
    [slice (0, remainingSlots)] with a negative [remainingSlots] keeps all
    the files offered but the last few, as many as the list is over, and
    the accepted ones among them are added.  This is also what happens from
    the empty list when the configured limit is negative. *)
Theorem addTextures_over_limit_still_adds (options : Textures.Options)
    (w : World) (st : Textures.State) (newTextures : list File) :
  (Textures.remainingSlots options st < 0)%Z ->
  let over := Z.to_nat (- Textures.remainingSlots options st) in
  let st' := Textures.addTextures options w st newTextures in
  Textures.textures st'
  = Textures.textures st
    ++ filter (Textures.accepted options)
         (firstn (List.length newTextures - over) newTextures).
Proof.
  intros Hrem over st'.
  destruct (addTextures_textures options w st newTextures) as (Ht & _).
  cbn zeta in Ht. fold st' in Ht. rewrite Ht. f_equal. f_equal.
  unfold Textures.slice0.
  destruct (Z.ltb_spec (Textures.remainingSlots options st) 0) as [_|H];
    [|lia].
  f_equal. unfold over. lia.
Qed.

Lemma filter_all {A : Type} (f : A -> bool) (l : list A) :
  Forall (fun a => f a = true) l -> filter f l = l.
Proof.
  induction 1 as [|a l Ha _ IH]; [reflexivity|].
  cbn [filter]. rewrite Ha, IH. reflexivity.
Qed.

Lemma mapSet_fresh (m : Textures.PreviewMap) (k v : string) :
  Textures.mapGet m k = None ->
  Textures.mapDelete (Textures.mapSet m k v) k = m.
Proof.
  unfold Textures.mapDelete.
  induction m as [|[a b] m IH]; cbn [Textures.mapGet Textures.mapSet].
  - intros _. cbn [filter fst]. rewrite String.eqb_refl. reflexivity.
  - destruct (String.eqb a k) eqn:E; [discriminate|].
    intros Hm. cbn [filter fst]. rewrite E. cbn [negb].
    rewrite (IH Hm). reflexivity.
Qed.

(** X25.  Adding one file and removing it again by name leaves no trace.
    For an accepted file with a name that is new to the list and to the
    previews, added while a slot is free, [removeTexture] gives back the
    state from before [addTextures], selection included, and revokes the
    one preview URL that [addTextures] created. *)
Theorem removeTexture_undoes_addTextures (options : Textures.Options)
    (w : World) (st : Textures.State) (file : File) :
  Textures.accepted options file = true ->
  (1 <= Textures.remainingSlots options st)%Z ->
  ~ In (fileName file) (Textures.names st) ->
  Textures.mapGet (Textures.texturePreviews st) (fileName file) = None ->
  createObjectURL w file <> EmptyString ->
  match Textures.selectedTexture st with
  | Some selected => fileName selected <> fileName file
  | None =>
      Textures.appliedTexture st = None /\ Textures.textureApplied st = false
  end ->
  Textures.removeTexture (Textures.addTextures options w st [file])
    (fileName file)
  = (st, [createObjectURL w file]).
Proof.
  intros Hacc Hrem Hnew Hprev Hurl Hsel.
  assert (Hkeep : filter
                    (fun texture =>
                       negb (String.eqb (fileName texture) (fileName file)))
                    (Textures.textures st)
                  = Textures.textures st).
  { apply filter_all. apply Forall_forall. intros t Ht.
    destruct (String.eqb_spec (fileName t) (fileName file)) as [E|_];
      [|reflexivity].
    exfalso. apply Hnew. unfold Textures.names. rewrite <- E.
    apply in_map. exact Ht. }
  unfold Textures.addTextures. cbn zeta.
  fold (Textures.remainingSlots options st).
  rewrite slice0_length by lia.
  replace (Z.to_nat (Textures.remainingSlots options st))
    with (S (Z.to_nat (Textures.remainingSlots options st - 1))) by lia.
  cbn [firstn]. rewrite firstn_nil. cbn [filter]. rewrite Hacc.
  cbn [fold_left]. unfold Textures.addPreview, Textures.mapHas.
  rewrite Hprev.
  unfold Textures.removeTexture. cbn zeta.
  destruct st as [ts sel prev app flag].
  cbn [Textures.textures Textures.selectedTexture Textures.texturePreviews
       Textures.appliedTexture Textures.textureApplied] in *.
  destruct sel as [s|];
    cbn [Textures.textures Textures.selectedTexture Textures.texturePreviews
         Textures.appliedTexture Textures.textureApplied];
    rewrite mapGet_mapSet, String.eqb_refl;
    destruct (String.eqb_spec (createObjectURL w file) EmptyString)
      as [E|_]; try (contradiction Hurl; exact E);
    rewrite filter_app, Hkeep; cbn [filter]; rewrite String.eqb_refl;
    cbn [negb]; rewrite app_nil_r.
  - destruct (String.eqb_spec (fileName s) (fileName file)) as [E|_];
      [contradiction Hsel; exact E|].
    cbn [fst snd]. rewrite mapSet_fresh by exact Hprev. reflexivity.
  - destruct Hsel as (-> & ->). cbn [fst snd].
    rewrite mapSet_fresh by exact Hprev. reflexivity.
Qed.

Lemma containsDot_append (a b : string) :
  Textures.containsDot (a ++ String "."%char b) = true.
Proof.
  induction a as [|c a IH]; [reflexivity|].
  cbn [String.append Textures.containsDot]. rewrite IH. apply orb_true_r.
Qed.

(** X26.  The extension [addTextures] checks is what follows the last dot
    of the name, in lower case, with a dot put in front.  So the check is
    blind to the case of the extension and looks at the last extension only;
    and since a name without any dot is its own last part, a file whose
    whole name is an accepted extension without its dot is accepted too. *)
Theorem fileExtension_is_last_part_lowercased (base ext : string) :
  Textures.containsDot ext = false ->
  Textures.fileExtension (base ++ String "."%char ext)
  = String "."%char (Textures.toLowerCase ext)
  /\ Textures.fileExtension ext
     = String "."%char (Textures.toLowerCase ext)
  /\ Textures.toLowerCase (Textures.toLowerCase ext)
     = Textures.toLowerCase ext.
Proof.
  intros Hext.
  assert (Hlast : Textures.lastSegment ext = ext).
  { destruct ext as [|c ext]; [reflexivity|].
    cbn [Textures.containsDot] in Hext. apply orb_false_iff in Hext.
    destruct Hext as (Hc & Hrest).
    cbn [Textures.lastSegment]. rewrite Hrest, Hc. reflexivity. }
  unfold Textures.fileExtension. split; [|split].
  - f_equal. f_equal. induction base as [|c base IH].
    + cbn [String.append Textures.lastSegment]. rewrite Hext. reflexivity.
    + cbn [String.append Textures.lastSegment].
      rewrite containsDot_append. exact IH.
  - rewrite Hlast. reflexivity.
  - clear. induction ext as [|c ext IH]; [reflexivity|].
    cbn [Textures.toLowerCase]. rewrite IH. f_equal.
    unfold Textures.lowerChar.
    destruct ((65 <=? nat_of_ascii c)%nat && (nat_of_ascii c <=? 90)%nat)
      eqn:E.
    + apply andb_prop in E. destruct E as (E1 & E2).
      apply Nat.leb_le in E1, E2.
      rewrite nat_ascii_embedding by lia.
      destruct ((65 <=? nat_of_ascii c + 32)%nat
                && (nat_of_ascii c + 32 <=? 90)%nat) eqn:E';
        [|reflexivity].
      apply andb_prop in E'. destruct E' as (_ & E3).
      apply Nat.leb_le in E3. lia.
    + rewrite E. reflexivity.
Qed.

(** ** Previews and the cleanup effect *)

Lemma mapGet_addPreview (w : World) (m : Textures.PreviewMap) (t : File)
    (k v : string) :
  Textures.mapGet m k = Some v ->
  Textures.mapGet (Textures.addPreview w m t) k = Some v.
Proof.
  intros Hk. unfold Textures.addPreview, Textures.mapHas.
  destruct (Textures.mapGet m (fileName t)) as [u|] eqn:E; [exact Hk|].
  rewrite mapGet_mapSet.
  destruct (String.eqb_spec (fileName t) k) as [Heq|_]; [|exact Hk].
  rewrite Heq, Hk in E. discriminate E.
Qed.

Lemma mapGet_previews (w : World) (valid : list File)
    (m : Textures.PreviewMap) (k v : string) :
  Textures.mapGet m k = Some v ->
  Textures.mapGet (fold_left (Textures.addPreview w) valid m) k = Some v.
Proof.
  revert m. induction valid as [|t valid IH]; intros m Hk; [exact Hk|].
  cbn [fold_left]. apply IH. apply mapGet_addPreview. exact Hk.
Qed.

Lemma mapGet_In (m : Textures.PreviewMap) (k v : string) :
  Textures.mapGet m k = Some v -> In v (map snd m).
Proof.
  induction m as [|[a b] m IH]; cbn [Textures.mapGet map snd];
    [discriminate|].
  destruct (String.eqb a k).
  - intros H. injection H as ->. left. reflexivity.
  - intros H. right. apply IH. exact H.
Qed.

(** X27.  The hook hands out preview URLs it has revoked.  The cleanup of
    the effect on [texturePreviews] revokes every URL of the old map each
    time the map is replaced, and [addTextures] replaces the map whenever it
    adds a file, copying the old entries into the new one.  So after files
    are added to a list that has previews already, each texture listed
    before is still listed, [getTexturePreview] still answers the URL it
    answered before, and that URL is among the URLs revoked. *)
Theorem previews_revoked_while_still_listed (options : Textures.Options)
    (w : World) (st : Textures.State) (newTextures : list File) (t : File)
    (url : string) :
  In t (Textures.textures st) ->
  Textures.getTexturePreview st (fileName t) = Some url ->
  Textures.replacesPreviews options st (Textures.AddTextures newTextures)
  = true ->
  let r :=
    Textures.stepWithEffects options w st (Textures.AddTextures newTextures)
  in
  In t (Textures.textures (fst r))
  /\ Textures.getTexturePreview (fst r) (fileName t) = Some url
  /\ In url (snd r).
Proof.
  intros Hin Hget Hrep r. unfold r, Textures.stepWithEffects.
  cbn zeta. rewrite Hrep. cbn [Textures.step fst snd app].
  destruct (addTextures_textures options w st newTextures) as (Ht & Hp).
  cbn zeta in Ht, Hp.
  unfold Textures.getTexturePreview in *.
  destruct (Textures.mapGet (Textures.texturePreviews st) (fileName t))
    as [u|] eqn:Hm; [|discriminate Hget].
  split; [rewrite Ht; apply in_or_app; left; exact Hin|].
  split.
  - rewrite Hp, (mapGet_previews w _ _ _ u Hm). exact Hget.
  - destruct (String.eqb u EmptyString); [discriminate Hget|].
    injection Hget as <-.
    unfold Textures.effectCleanup. apply (mapGet_In _ _ _ Hm).
Qed.

(** * The page *)

Lemma slice0_incl {A : Type} (l : list A) (e : Z) :
  incl (Textures.slice0 l e) l.
Proof.
  unfold Textures.slice0. generalize (Z.to_nat
    (if (e <? 0)%Z
     then Z.max (Z.of_nat (List.length l) + e) 0
     else Z.min e (Z.of_nat (List.length l)))).
  intros n. revert l. induction n as [|n IH]; intros l a Ha.
  - destruct l; contradiction Ha.
  - destruct l as [|b l]; [contradiction Ha|].
    cbn [firstn] in Ha. destruct Ha as [<-|Ha]; [left; reflexivity|].
    right. apply IH. exact Ha.
Qed.

Lemma addTextures_nil (options : Textures.Options) (w : World)
    (st : Textures.State) :
  Textures.addTextures options w st [] = st.
Proof.
  unfold Textures.addTextures, Textures.slice0. cbn zeta.
  rewrite firstn_nil. reflexivity.
Qed.

(** X28.  In the page, the selector cannot take a texture off the list.
    Its [removeTexture] hands the list without the texture to
    [onTexturesChange], which the page has bound to [addTextures]: the list
    after is the list before, the texture to remove included, followed by
    copies of the other textures of the list, those with an accepted
    extension among the first of them, as far as slots are free.  The
    selection is dropped if it had that name, together with the staged
    texture; a selection of another name stays; and with nothing selected
    the first copy, if there is one, becomes the selected and the staged
    texture.  Its [clearAll] hands over the empty list, which [addTextures]
    ignores: the list and the previews stay as they are and only the
    selection is dropped.  Both are what the two callbacks leave when called
    from one event handler. *)
Theorem selector_cannot_remove_textures (w : World) (hook : Textures.State)
    (page : Page.State) (textureName : string) :
  let others :=
    filter (fun texture => negb (String.eqb (fileName texture) textureName))
      (Textures.textures hook) in
  let slots := Textures.remainingSlots Page.textureOptions hook in
  let copies :=
    filter (Textures.accepted Page.textureOptions)
      (Textures.slice0 others slots) in
  let removed := fst (Page.selectorRemoveTexture w hook page textureName) in
  let cleared := fst (Page.selectorClearAll w hook page) in
  Textures.textures removed = Textures.textures hook ++ copies
  /\ ((0 <= slots)%Z ->
      copies = filter (Textures.accepted Page.textureOptions)
                 (firstn (Z.to_nat slots) others))
  /\ Forall (fun c => In c (Textures.textures hook)
                      /\ fileName c <> textureName) copies
  /\ match Textures.selectedTexture hook with
     | Some selected =>
         if String.eqb (fileName selected) textureName
         then Textures.selectedTexture removed = None
              /\ Textures.appliedTexture removed = None
              /\ Textures.textureApplied removed = false
              /\ removed
                 = fst (Textures.handler Page.textureOptions w hook hook
                          [Textures.AddTextures others;
                           Textures.SelectTexture None])
         else Textures.selectedTexture removed = Some selected
              /\ Textures.appliedTexture removed
                 = Textures.appliedTexture hook
              /\ Textures.textureApplied removed
                 = Textures.textureApplied hook
              /\ removed
                 = fst (Textures.handler Page.textureOptions w hook hook
                          [Textures.AddTextures others])
     | None =>
         match copies with
         | [] => removed = hook
         | first :: _ =>
             Textures.selectedTexture removed = Some first
             /\ Textures.appliedTexture removed = Some first
             /\ Textures.textureApplied removed = false
         end
         /\ removed
            = fst (Textures.handler Page.textureOptions w hook hook
                     [Textures.AddTextures others])
     end
  /\ Textures.textures cleared = Textures.textures hook
  /\ Textures.texturePreviews cleared = Textures.texturePreviews hook
  /\ Textures.selectedTexture cleared = None
  /\ Textures.appliedTexture cleared = None
  /\ Textures.textureApplied cleared = false
  /\ cleared
     = fst (Textures.handler Page.textureOptions w hook hook
              [Textures.AddTextures []; Textures.SelectTexture None]).
Proof.
  intros others slots copies removed cleared.
  assert (Hadd : forall sel,
             Textures.selectedTexture hook = sel ->
             Textures.addTextures Page.textureOptions w hook others
             = match copies with
               | [] => hook
               | first :: _ =>
                   match sel with
                   | None =>
                       Textures.mkState (Textures.textures hook ++ copies)
                         (Some first)
                         (fold_left (Textures.addPreview w) copies
                            (Textures.texturePreviews hook))
                         (Some first) false
                   | Some _ =>
                       Textures.mkState (Textures.textures hook ++ copies)
                         (Textures.selectedTexture hook)
                         (fold_left (Textures.addPreview w) copies
                            (Textures.texturePreviews hook))
                         (Textures.appliedTexture hook)
                         (Textures.textureApplied hook)
                   end
               end).
  { intros sel <-. unfold Textures.addTextures. cbn zeta.
    fold (Textures.remainingSlots Page.textureOptions hook). fold slots.
    fold copies. reflexivity. }
  split; [|split; [|split; [|split]]].
  - unfold removed, Page.selectorRemoveTexture. cbn zeta. fold others.
    destruct (addTextures_textures Page.textureOptions w hook others)
      as (Ht & _).
    cbn zeta in Ht. fold slots in Ht. fold copies in Ht.
    unfold Page.handleTexturesChange, Page.handleTextureSelect.
    destruct (match Textures.selectedTexture hook with
              | Some selected => String.eqb (fileName selected) textureName
              | None => false
              end); cbn [fst Textures.selectTexture Textures.textures];
      exact Ht.
  - intros Hslots. unfold copies. rewrite slice0_length by exact Hslots.
    reflexivity.
  - apply Forall_forall. intros c Hc. apply filter_In in Hc.
    destruct Hc as (Hc & _). apply slice0_incl in Hc.
    unfold others in Hc. apply filter_In in Hc. destruct Hc as (Hc & Hn).
    split; [exact Hc|].
    intros E. rewrite E, String.eqb_refl in Hn. discriminate Hn.
  - unfold removed, Page.selectorRemoveTexture. cbn zeta. fold others.
    unfold Page.handleTexturesChange, Page.handleTextureSelect.
    destruct (Textures.selectedTexture hook) as [selected|] eqn:Hsel.
    + destruct (String.eqb (fileName selected) textureName).
      * cbn [fst]. rewrite handler_add_select.
        unfold Textures.selectTexture.
        cbn [Textures.selectedTexture Textures.appliedTexture
             Textures.textureApplied].
        repeat split.
      * cbn [fst]. rewrite handler_single. cbn [Textures.step fst].
        rewrite (Hadd _ eq_refl).
        destruct copies as [|first rest];
          cbn [Textures.selectedTexture Textures.appliedTexture
               Textures.textureApplied];
          rewrite ?Hsel; repeat split.
    + cbn [fst]. rewrite handler_single. cbn [Textures.step fst].
      rewrite (Hadd _ eq_refl).
      destruct copies as [|first rest];
        cbn [Textures.selectedTexture Textures.appliedTexture
             Textures.textureApplied];
        repeat split.
  - unfold cleared, Page.selectorClearAll, Page.handleTexturesChange,
      Page.handleTextureSelect.
    cbn [fst]. rewrite handler_add_select, addTextures_nil.
    unfold Textures.selectTexture.
    cbn [Textures.textures Textures.texturePreviews
         Textures.selectedTexture Textures.appliedTexture
         Textures.textureApplied].
    repeat split.
Qed.

(** * The properties at concrete inputs

    Pixels are one bit here: [false] is the cleared pixel and drawing is
    [orb]. *)

Lemma calculateModelTransform_scale_and_translation_witness :
  positiveExtents sampleBox
  /\ tposition (calculateModelTransform sampleBox (16 / 9))
     = THREE.negate (THREE.getCenter (THREE.setFromObject sampleBox)).
Proof.
  split; [exact sampleBox_positiveExtents|].
  exact (proj2 (proj2 (calculateModelTransform_scale_and_translation
                         sampleBox (16 / 9) sampleBox_positiveExtents))).
Defined.

Lemma calculateModelTransform_cameraDistance_is_minimum_witness :
  positiveExtents sampleBox
  /\ cameraDistance
       (calculateModelTransform sampleBox (aspectRatioOf Ratio_4_3)) = 3.0.
Proof.
  split; [exact sampleBox_positiveExtents|].
  exact (proj2 (calculateModelTransform_cameraDistance_is_minimum sampleBox
                  sampleBox_positiveExtents) Ratio_4_3).
Defined.

Lemma singlePoint_box :
  THREE.setFromObject singlePoint
  = THREE.Box (THREE.mkVector3 1 2 3) (THREE.mkVector3 1 2 3).
Proof.
  unfold THREE.setFromObject, THREE.worldPoints, THREE.setFromPoints.
  cbn [singlePoint THREE.meshes flat_map THREE.vertices app map fold_left
       THREE.expandByPoint].
  unfold THREE.localToWorld, THREE.applyEuler, THREE.rotateX, THREE.rotateY,
    THREE.rotateZ, THREE.multiply, THREE.add, THREE.vmin, THREE.vmax.
  cbn [singlePoint THREE.position THREE.rotation THREE.scale THREE.setScalar
       THREE.origin THREE.x THREE.y THREE.z THREE.ex THREE.ey THREE.ez].
  rewrite cos_0, sin_0.
  f_equal; f_equal; unfold Rmin, Rmax; repeat destruct (Rle_dec _ _); lra.
Qed.

Lemma singlePoint_sizeless : effectiveSize singlePoint = 0.
Proof.
  unfold effectiveSize. rewrite singlePoint_box.
  unfold effectiveSizeOf, diagonalOf, maxDimOf, Math_max3.
  cbn [THREE.getSize THREE.sub THREE.x THREE.y THREE.z].
  replace ((1 - 1) * (1 - 1) + (2 - 2) * (2 - 2) + (3 - 3) * (3 - 3))
    with 0 by lra.
  rewrite sqrt_0.
  replace (1 - 1) with 0 by lra. replace (2 - 2) with 0 by lra.
  replace (3 - 3) with 0 by lra.
  rewrite !(Rmax_left 0 0) by lra. reflexivity.
Qed.

Lemma singlePoint_hasVertex : hasVertex singlePoint.
Proof. unfold hasVertex. cbn. discriminate. Qed.

Lemma emptyModel_sizeless : effectiveSize emptyModel = 0.
Proof.
  unfold effectiveSize, THREE.setFromObject, THREE.worldPoints.
  cbn [emptyModel THREE.meshes flat_map map THREE.setFromPoints fold_left
       THREE.getSize].
  unfold effectiveSizeOf, diagonalOf, maxDimOf, Math_max3, THREE.origin.
  cbn [THREE.x THREE.y THREE.z].
  replace (0 * 0 + 0 * 0 + 0 * 0) with 0 by lra.
  rewrite sqrt_0, !(Rmax_left 0 0) by lra. reflexivity.
Qed.

(** The model of one point, with the default options: of the 18 frames
    none is rendered with its centre within the tolerance. *)
Lemma generateFrames_renders_centered_witness :
  rendersNothing bool (reportFrameProgress bool)
  /\ let rendered :=
       renderedModels bool
         (fst (generateFrames bool inkRaster (defaultOptions bool)
                 singlePoint 18 (mkDimensions 1920 1080) Ratio_16_9
                 (reportFrameProgress bool)))
     in
     List.length rendered = 18%nat
     /\ Forall (fun c => ~ centered c) rendered.
Proof.
  split; [exact (reportFrameProgress_rendersNothing bool)|].
  destruct (generateFrames_renders_centered bool inkRaster
              (defaultOptions bool) singlePoint 18 (mkDimensions 1920 1080)
              Ratio_16_9 (reportFrameProgress bool)
              (reportFrameProgress_rendersNothing bool))
    as (Hlen & _ & Hoff).
  split; [exact Hlen|].
  exact (Hoff singlePoint_sizeless singlePoint_hasVertex).
Defined.

(** The model without geometry: its camera distance is not a number, and
    so not the minimum of 3.0. *)
Lemma calculateModelTransform_no_geometry_no_distance :
  cameraDistance (calculateModelTransform emptyModel (16 / 9)) = JS.NaN
  /\ cameraDistance (calculateModelTransform emptyModel (16 / 9))
     <> JS.Finite 3.0
  /\ cameraZ (cameraPosition (cameraOf emptyModel Ratio_16_9)) = JS.NaN.
Proof.
  assert (H := proj2 (calculateModelTransform_sizeless emptyModel (16 / 9)
                        emptyModel_sizeless)).
  split; [exact H|]. split; [rewrite H; discriminate|].
  exact H.
Qed.

Lemma generateFrames_count_order_angles_witness :
  exists frames,
    snd (generateFrames bool inkRaster (defaultOptions bool) sampleBox 18
           (mkDimensions 1920 1080) Ratio_16_9 (reportFrameProgress bool))
    = Resolved frames
    /\ List.length frames = 18%nat.
Proof.
  assert (H18 : (1 <= 18)%Z) by lia.
  destruct (generateFrames_count_order_angles bool inkRaster
              (defaultOptions bool) sampleBox 18 (mkDimensions 1920 1080)
              Ratio_16_9 (reportFrameProgress bool) H18
              (reportFrameProgress_rendersNothing bool))
    as (frames & scenes & Hrun & Hlen & _).
  exists frames. split; [exact Hrun|exact Hlen].
Defined.

Lemma createSpriteStrip_layout_witness :
  exists strip,
    createSpriteStrip bool false orb
      [solidFrame bool 2 1 true; solidFrame bool 2 1 false]
      (mkDimensions 2 1) [1; 0]%nat
    = Resolved (Png bool strip)
    /\ naturalWidth bool strip = 4%Z
    /\ naturalHeight bool strip = 1%Z
    /\ pixelAt bool strip 1 0 = true
    /\ pixelAt bool strip 2 0 = false.
Proof.
  assert (Hn : (1 <= List.length
                      [solidFrame bool 2 1 true; solidFrame bool 2 1 false])%nat)
    by (cbn; lia).
  assert (Hsized : Forall (frameSized bool (mkDimensions 2 1))
                     [solidFrame bool 2 1 true; solidFrame bool 2 1 false]).
  { repeat constructor; eexists; repeat split. }
  assert (Hperm : Permutation [1; 0]%nat
                    (seq 0 (List.length
                              [solidFrame bool 2 1 true;
                               solidFrame bool 2 1 false])))
    by apply perm_swap.
  pose proof (createSpriteStrip_layout bool false orb _ _ _ Hn Hsized Hperm)
    as H.
  cbn zeta in H. destruct H as (strip & Hr & Hw & Hh & Hpx & _).
  exists strip. split; [exact Hr|]. split; [exact Hw|]. split; [exact Hh|].
  split.
  - apply (Hpx 0%nat (mkBitmap bool 2 1 (fun _ _ => true)) 1%Z 0%Z eq_refl);
      cbn; lia.
  - apply (Hpx 1%nat (mkBitmap bool 2 1 (fun _ _ => false)) 0%Z 0%Z eq_refl);
      cbn; lia.
Defined.

Lemma texture_failure_keeps_outcome_witness :
  let w := worldLoading sampleBox (seq 0 18) in
  exists d,
    snd (generateSpriteStrip bool false orb inkRaster (defaultOptions bool)
           None w (Some sampleFile) (Some sampleTexture))
    = Resolved (Some d)
    /\ snd (generateSpriteStrip bool false orb inkRaster (defaultOptions bool)
              None w (Some sampleFile) None)
       = Resolved (Some d).
Proof.
  intros w.
  assert (Hcount : (1 <= orZ (frameCount bool (defaultOptions bool)) 18)%Z)
    by (cbn; lia).
  destruct (composition_completes bool false orb inkRaster
              (defaultOptions bool) None w sampleFile None sampleBox
              eq_refl Hcount (Permutation_refl _)) as (d & _ & _ & Hs).
  change (callbacksOutcome bool (defaultOptions bool) d)
    with (@Resolved (option (SpriteStripData bool)) (Some d)) in Hs.
  exists d. split; [|exact Hs].
  exact (proj1 (texture_failure_keeps_outcome bool false orb inkRaster
                  (defaultOptions bool) w (Some sampleFile) None
                  (Some sampleTexture) sampleTexture
                  (OtherValue "error event") d eq_refl eq_refl Hs)).
Defined.

Lemma createSpriteStrip_never_rejects_witness :
  exists strip,
    createSpriteStrip bool false orb [solidFrame bool 2 2 true]
      (mkDimensions 1920 1080) [0%nat]
    = Resolved (Png bool strip)
    /\ naturalWidth bool strip = 1920%Z
    /\ naturalHeight bool strip = 1080%Z.
Proof.
  assert (Hn : (1 <= List.length [solidFrame bool 2 2 true])%nat)
    by (cbn; lia).
  assert (Hdec : Forall (decodes bool) [solidFrame bool 2 2 true]).
  { repeat constructor. eexists. reflexivity. }
  exact (proj2 (createSpriteStrip_never_rejects bool false orb
                  [solidFrame bool 2 2 true] (mkDimensions 1920 1080)
                  [0%nat])
           Hn Hdec (Permutation_refl _)).
Defined.

(** C3 as stated fails: two loads that fail for different reasons are
    rejected with the same error, so the reasons cannot be read from it. *)
Lemma loadModel_rejection_hides_reasons : ~ rejectionCarriesReasons bool.
Proof.
  intros (reasonsOf & Hcarry).
  destruct (Hcarry (worldFailing (ErrorObject "Unexpected token")
                      (ErrorObject "not fbx") (ErrorObject "not obj"))
              "blob:a"%string _ _ _ eq_refl eq_refl eq_refl) as (err1 & H1 & R1).
  destruct (Hcarry (worldFailing (ErrorObject "404")
                      (ErrorObject "not fbx") (ErrorObject "not obj"))
              "blob:a"%string _ _ _ eq_refl eq_refl eq_refl) as (err2 & H2 & R2).
  cbn in H1, H2. injection H1 as <-. injection H2 as <-.
  rewrite R1 in R2. discriminate R2.
Qed.

(** C8 as stated fails: a frame of 2 by 2 pixels composed for 1920 by 1080
    is not rejected. *)
Lemma createSpriteStrip_accepts_mismatch :
  ~ rejectsExactlyOnMismatch bool false orb.
Proof.
  intros H.
  destruct (H [solidFrame bool 2 2 true] (mkDimensions 1920 1080) [0%nat]
              (Permutation_refl _)) as (_ & Hrej).
  destruct Hrej as (e & He).
  - apply Exists_cons_hd. intros (img & Heq & Hw & _).
    injection Heq as <-. cbn in Hw. discriminate Hw.
  - cbn in He. discriminate He.
Qed.

(** C7 as stated fails: when the awaited submission hook rejects, the run
    has reported 100 and does not reach Done. *)
Lemma hundred_reported_before_submission_fails :
  ~ progressTracksDone bool false orb inkRaster.
Proof.
  intros H.
  set (opts := optionsSubmitFails bool (ErrorObject "insert failed")).
  set (w := worldLoading sampleBox (seq 0 18)).
  destruct (H opts None w (Some sampleFile) None) as (_ & Hiff).
  assert (Hcount : (1 <= orZ (frameCount bool opts) 18)%Z) by (cbn; lia).
  destruct (composition_completes bool false orb inkRaster opts None w
              sampleFile None sampleBox eq_refl Hcount (Permutation_refl _))
    as (d & Hp & _ & Hs).
  assert (Hhundred :
            reportsHundred bool
              (generateSpriteStrip bool false orb inkRaster opts None w
                 (Some sampleFile) None)).
  { unfold reportsHundred. rewrite Hp. unfold fullProgress.
    apply in_or_app. right. apply in_or_app. right.
    right. left. reflexivity. }
  apply Hiff in Hhundred. destruct Hhundred as (d' & Hd').
  rewrite Hs in Hd'.
  change (callbacksOutcome bool opts d)
    with (@Rejected (option (SpriteStripData bool))
            (ErrorObject "insert failed")) in Hd'.
  discriminate Hd'.
Qed.

(** ** Further properties at concrete inputs *)

Lemma createSpriteStrip_resolves_only_when_all_loaded_witness :
  Forall (decodes bool)
    [solidFrame bool 2 1 true; solidFrame bool 2 1 false]
  /\ forall i, (i < 2)%nat -> In i [1; 0]%nat.
Proof.
  assert (Hnd : NoDup [1; 0]%nat).
  { constructor; [intros [H|[]]; discriminate H|].
    constructor; [intros []|constructor]. }
  destruct (createSpriteStrip_resolves_only_when_all_loaded bool false orb
              [solidFrame bool 2 1 true; solidFrame bool 2 1 false]
              (mkDimensions 2 1) [1; 0]%nat _ Hnd eq_refl)
    as (_ & Hdec & Hall & _).
  split; [exact Hdec|exact Hall].
Defined.

Lemma done_artifact_is_consistent_witness :
  let w := worldLoading sampleBox (seq 0 18) in
  exists d strip,
    snd (generateSpriteStrip bool false orb inkRaster (defaultOptions bool)
           None w (Some sampleFile) None)
    = Resolved (Some d)
    /\ spriteStripUrl bool d = Png bool strip
    /\ naturalWidth bool strip
       = (metaWidth (metadata bool d) * dataFrameCount bool d)%Z
    /\ dataFrameCount bool d = 18%Z.
Proof.
  intros w.
  assert (Hcount : (1 <= orZ (frameCount bool (defaultOptions bool)) 18)%Z)
    by (cbn; lia).
  destruct (composition_completes bool false orb inkRaster
              (defaultOptions bool) None w sampleFile None sampleBox
              eq_refl Hcount (Permutation_refl _)) as (d & _ & _ & Hs).
  change (callbacksOutcome bool (defaultOptions bool) d)
    with (@Resolved (option (SpriteStripData bool)) (Some d)) in Hs.
  destruct (done_artifact_is_consistent bool false orb inkRaster
              (defaultOptions bool) None w (Some sampleFile) None d Hs)
    as (file & strip & _ & Hurl & Hw & _ & _ & _ & Hn & _).
  exists d, strip. split; [exact Hs|]. split; [exact Hurl|].
  split; [exact Hw|exact Hn].
Defined.

Lemma negative_frameCount_never_settles_witness :
  let run :=
    generateSpriteStrip bool false orb inkRaster (optionsFrameCount bool (-1))
      None (worldLoading sampleBox []) (Some sampleFile) None in
  snd run = NeverSettles
  /\ progressValues bool (fst run) = [0; 10; 20; 90].
Proof.
  assert (Hneg : (-1 < 0)%Z) by lia.
  destruct (negative_frameCount_never_settles bool false orb inkRaster
              (optionsFrameCount bool (-1)) None (worldLoading sampleBox [])
              sampleFile None (-1) sampleBox (initialHookState bool)
              eq_refl Hneg eq_refl) as (Hs & Hp & _).
  split; [exact Hs|exact Hp].
Defined.

Lemma textured_run_renders_textured_frames_witness :
  let run :=
    generateSpriteStrip bool false orb inkRaster (defaultOptions bool)
      (Some sampleTexture) (worldTextured sampleBox (seq 0 18))
      (Some sampleFile) (Some sampleFile) in
  List.length (renderedModels bool (fst run)) = 18%nat
  /\ Forall
       (fun o =>
          materialsOf o
          = [THREE.MeshLambertMaterial "texture of blob:wood.png" false])
       (renderedModels bool (fst run)).
Proof.
  destruct (textured_run_renders_textured_frames bool false orb inkRaster
              (defaultOptions bool) (Some sampleTexture)
              (worldTextured sampleBox (seq 0 18)) sampleFile
              (Some sampleFile) sampleBox sampleTexture
              "texture of blob:wood.png"%string eq_refl eq_refl eq_refl)
    as (_ & Hlen & Hmat).
  split; [exact Hlen|exact Hmat].
Defined.

Lemma prepareModel_centres_exactly_witness :
  0 < effectiveSize sampleBox
  /\ exists prepared,
       prepareModel sampleBox (calculateModelTransform sampleBox (16 / 9))
       = Posed prepared
       /\ THREE.getCenter (THREE.setFromObject prepared) = THREE.origin.
Proof.
  assert (H := effectiveSize_positive sampleBox sampleBox_positiveExtents).
  split; [exact H|].
  destruct (prepareModel_centres_exactly sampleBox (16 / 9) H)
    as (prepared & Hp & Hc & _).
  exists prepared. split; [exact Hp|exact Hc].
Defined.

Lemma prepared_model_fills_target_witness :
  0 < effectiveSize sampleBox
  /\ exists prepared,
       prepareModel sampleBox (calculateModelTransform sampleBox (4 / 3))
       = Posed prepared
       /\ effectiveSize prepared = 1.7.
Proof.
  assert (H := effectiveSize_positive sampleBox sampleBox_positiveExtents).
  split; [exact H|].
  exact (prepared_model_fills_target sampleBox (4 / 3) eq_refl H).
Defined.

Lemma stripExtension_removes_last_extension_witness :
  stripExtension "chair.final.glb" = "chair.final"%string
  /\ stripExtension "chair." = "chair."%string.
Proof.
  assert (Hne : "glb"%string <> EmptyString) by discriminate.
  destruct (stripExtension_removes_last_extension "chair.final" "glb" Hne
              eq_refl) as (H1 & _ & _).
  destruct (stripExtension_removes_last_extension "chair" "glb" Hne eq_refl)
    as (_ & _ & H3).
  split; [exact H1|exact H3].
Defined.

Lemma exact_monotone : Viewer.Monotone Viewer.exact.
Proof. split; unfold Viewer.exact; [intros a b H; exact H|reflexivity..]. Qed.

Lemma exact_accurate : Viewer.Accurate Viewer.exact.
Proof.
  intros a. unfold Viewer.exact.
  replace (a - a) with 0 by lra. rewrite Rabs_R0.
  apply Rmult_le_pos; [|apply Rabs_pos].
  unfold Viewer.unitRoundoff. apply Rlt_le, Rinv_0_lt_compat, pow_lt. lra.
Qed.

Lemma unitRoundoff_below_hundredth : 0 < Viewer.unitRoundoff < 0.01.
Proof.
  unfold Viewer.unitRoundoff.
  assert (H : 128 <= 2 ^ 53).
  { replace 128 with (2 ^ 7) by (simpl; lra). apply Rle_pow; [lra|lia]. }
  split; [apply Rinv_0_lt_compat; lra|].
  apply Rle_lt_trans with (/ 128); [apply Rinv_le_contravar; lra|lra].
Qed.

(** Widths of 360 with 18 frames: a pointer at 50 is in the middle of
    band 2. *)
Lemma frameAt_is_band_under_pointer_witness :
  Viewer.Monotone Viewer.exact
  /\ Viewer.Accurate Viewer.exact
  /\ Viewer.frameAt Viewer.exact 18 (Viewer.mkRect 0 360) 50 = 2%Z.
Proof.
  split; [exact exact_monotone|]. split; [exact exact_accurate|].
  assert (Hu := unitRoundoff_below_hundredth).
  assert (Hn : (1 <= 18)%Z) by lia.
  assert (Hw : 0 < Viewer.rectWidth (Viewer.mkRect 0 360)) by (cbn; lra).
  assert (Hk : (0 <= 2 < 18)%Z) by lia.
  apply (proj1 (frameAt_is_band_under_pointer Viewer.exact 18
                  (Viewer.mkRect 0 360) 50 2 exact_monotone exact_accurate
                  Hn Hw Hk));
    cbn [Viewer.rectWidth Viewer.rectLeft]; nra.
Defined.

Lemma frameAt_monotone_between_edges_witness :
  Viewer.Monotone Viewer.exact
  /\ (Viewer.frameAt Viewer.exact 18 (Viewer.mkRect 0 360) 50
      <= Viewer.frameAt Viewer.exact 18 (Viewer.mkRect 0 360) 400)%Z
  /\ Viewer.frameAt Viewer.exact 18 (Viewer.mkRect 0 360) 400 = 17%Z.
Proof.
  split; [exact exact_monotone|].
  assert (Hn : (1 <= 18)%Z) by lia.
  assert (Hw : 0 < Viewer.rectWidth (Viewer.mkRect 0 360)) by (cbn; lra).
  assert (Hab : 50 <= 400) by lra.
  destruct (frameAt_monotone_between_edges Viewer.exact 18
              (Viewer.mkRect 0 360) 50 400 exact_monotone Hn Hw Hab)
    as (Hmono & _ & _ & Hright).
  split; [exact Hmono|].
  apply Hright; [cbn; lra|reflexivity..].
Defined.

Lemma autoplay_cycles_through_frames_witness :
  let props := Viewer.mkProps 18 true true in
  Viewer.currentFrame
    (fst (Viewer.run Viewer.exact props (Viewer.initialState props)
            (repeat Viewer.Tick 20)))
  = 2%Z.
Proof.
  intros props.
  assert (Hn : (1 <= Viewer.frameCount props)%Z) by (cbn; lia).
  assert (Hf : (0 <= Viewer.currentFrame (Viewer.initialState props)
                < Viewer.frameCount props)%Z) by (cbn; lia).
  exact (proj1 (autoplay_cycles_through_frames Viewer.exact props
                  (Viewer.initialState props) 20 Hn eq_refl Hf)).
Defined.

Lemma viewer_frame_stays_in_range_witness :
  let events :=
    [Viewer.MouseEnter;
     Viewer.MouseMove (Viewer.mkPointer 400 (Viewer.mkRect 0 360) false);
     Viewer.Tick; Viewer.MouseLeave] in
  (0 <= Viewer.currentFrame
          (fst (Viewer.run Viewer.exact Viewer.defaultProps
                  (Viewer.initialState Viewer.defaultProps) events))
   <= 17)%Z.
Proof.
  intros events.
  assert (Hn : (1 <= Viewer.frameCount Viewer.defaultProps)%Z) by (cbn; lia).
  assert (Hwf : Forall Viewer.wellFormed events).
  { repeat constructor. cbn. lra. }
  exact (proj1 (viewer_frame_stays_in_range Viewer.exact
                  Viewer.defaultProps events
                  Hn Hwf)).
Defined.

Lemma touchStart_ignores_first_position_witness :
  let e := Viewer.mkPointer 200 (Viewer.mkRect 0 360) false in
  let st := Viewer.initialState Viewer.defaultProps in
  Viewer.currentFrame
    (fst (Viewer.handleTouchStart Viewer.exact Viewer.defaultProps st e))
  = 0%Z
  /\ Viewer.frameChanges
       (snd (Viewer.handleTouchStart Viewer.exact Viewer.defaultProps st e))
     = [].
Proof.
  intros e st.
  destruct (touchStart_ignores_first_position Viewer.exact
              Viewer.defaultProps st e
              eq_refl eq_refl eq_refl) as (H1 & H2 & _).
  split; [exact H1|exact H2].
Defined.

Lemma background_shows_current_frame_witness :
  Viewer.imageLeft 100 (Viewer.backgroundSizeX 18)
    (Viewer.backgroundPositionX 18 3)
  = - (IZR 3 * 100).
Proof.
  assert (Hn : (2 <= 18)%Z) by lia.
  exact (proj2 (background_shows_current_frame 18 3 100 Hn)).
Defined.

(** Three event handlers: one adds a texture, one applies the selected
    texture, and the selector's [clearAll] makes its two calls. *)
Lemma texture_list_stays_consistent_witness :
  let handlers :=
    [[Textures.AddTextures [sampleTexture]];
     [Textures.ApplySelectedTexture];
     [Textures.AddTextures []; Textures.SelectTexture None]] in
  let st :=
    fst (Textures.run (Textures.mkOptions None None)
           (worldLoading sampleBox []) Textures.initialState handlers) in
  Forall Textures.oneCallOrSelector handlers
  /\ Textures.consistent (Textures.mkOptions None None) st
  /\ textureToUseOf (Textures.appliedTexture st) None
     = textureToUseOf (Textures.selectedTexture st) None.
Proof.
  intros handlers.
  assert (Hmax : (1 <= Textures.maxTexturesOf (Textures.mkOptions None None))%Z)
    by (cbn; lia).
  assert (Hall : Forall Textures.oneCallOrSelector handlers).
  { repeat apply Forall_cons; [left; eexists; reflexivity..| |apply Forall_nil].
    right. eexists. eexists. reflexivity. }
  split; [exact Hall|].
  exact (texture_list_stays_consistent (Textures.mkOptions None None)
           (worldLoading sampleBox []) handlers None Hmax Hall).
Defined.

Lemma addTextures_counts_slots_before_formats_witness :
  Textures.addTextures (Textures.mkOptions (Some 1%Z) None)
    (worldLoading sampleBox []) Textures.initialState
    [sampleFile; sampleTexture]
  = Textures.initialState.
Proof.
  assert (Hrem : (0 <= Textures.remainingSlots
                         (Textures.mkOptions (Some 1%Z) None)
                         Textures.initialState)%Z) by (cbn; lia).
  exact (proj2 (proj2 (addTextures_counts_slots_before_formats
                         (Textures.mkOptions (Some 1%Z) None)
                         (worldLoading sampleBox []) Textures.initialState
                         [sampleFile; sampleTexture] Hrem)) eq_refl).
Defined.

Lemma addTextures_over_limit_still_adds_witness :
  Textures.textures
    (Textures.addTextures (Textures.mkOptions (Some (-1)%Z) None)
       (worldLoading sampleBox []) Textures.initialState
       [sampleTexture; sampleTexture])
  = [sampleTexture].
Proof.
  assert (Hrem : (Textures.remainingSlots
                    (Textures.mkOptions (Some (-1)%Z) None)
                    Textures.initialState < 0)%Z) by (cbn; lia).
  exact (addTextures_over_limit_still_adds
           (Textures.mkOptions (Some (-1)%Z) None)
           (worldLoading sampleBox []) Textures.initialState
           [sampleTexture; sampleTexture] Hrem).
Defined.

Lemma removeTexture_undoes_addTextures_witness :
  Textures.removeTexture
    (Textures.addTextures (Textures.mkOptions None None)
       (worldLoading sampleBox []) Textures.initialState [sampleTexture])
    "wood.png"
  = (Textures.initialState, ["blob:wood.png"%string]).
Proof.
  assert (Hrem : (1 <= Textures.remainingSlots (Textures.mkOptions None None)
                         Textures.initialState)%Z) by (cbn; lia).
  assert (Hnew : ~ In (fileName sampleTexture)
                     (Textures.names Textures.initialState))
    by (intros []).
  assert (Hurl : createObjectURL (worldLoading sampleBox []) sampleTexture
                 <> EmptyString) by discriminate.
  exact (removeTexture_undoes_addTextures (Textures.mkOptions None None)
           (worldLoading sampleBox []) Textures.initialState sampleTexture
           eq_refl Hrem Hnew eq_refl Hurl (conj eq_refl eq_refl)).
Defined.

Lemma fileExtension_is_last_part_lowercased_witness :
  Textures.fileExtension "Wood.Final.PNG" = ".png"%string
  /\ Textures.fileExtension "JPEG" = ".jpeg"%string.
Proof.
  destruct (fileExtension_is_last_part_lowercased "Wood.Final" "PNG" eq_refl)
    as (H1 & _).
  destruct (fileExtension_is_last_part_lowercased "" "JPEG" eq_refl)
    as (_ & H2 & _).
  split; [exact H1|exact H2].
Defined.

Lemma previews_revoked_while_still_listed_witness :
  let st :=
    Textures.mkState [sampleTexture] (Some sampleTexture)
      [("wood.png"%string, "blob:wood.png"%string)] (Some sampleTexture)
      false in
  let r :=
    Textures.stepWithEffects (Textures.mkOptions None None)
      (worldLoading sampleBox []) st
      (Textures.AddTextures [mkFile "steel.jpg" 256 "image/jpeg"]) in
  Textures.getTexturePreview (fst r) "wood.png" = Some "blob:wood.png"%string
  /\ In "blob:wood.png"%string (snd r).
Proof.
  intros st r.
  assert (Hin : In sampleTexture (Textures.textures st))
    by (left; reflexivity).
  destruct (previews_revoked_while_still_listed
              (Textures.mkOptions None None) (worldLoading sampleBox []) st
              [mkFile "steel.jpg" 256 "image/jpeg"] sampleTexture
              "blob:wood.png" Hin eq_refl eq_refl) as (_ & Hget & Hrev).
  split; [exact Hget|exact Hrev].
Defined.

Lemma deselected_texture_is_still_used_witness :
  let page := Page.mkState (Some sampleFile) None in
  let selected :=
    Page.handleTextureSelect Textures.initialState page (Some sampleTexture)
  in
  let deselected :=
    Page.handleTextureSelect (fst selected) (snd selected) None in
  Textures.selectedTexture (fst deselected) = None
  /\ textureToUseOf (Textures.appliedTexture (fst deselected))
       (Page.textureToUse (fst deselected) (snd deselected))
     = Some sampleTexture.
Proof.
  intros page selected deselected.
  destruct (deselected_texture_is_still_used bool false orb inkRaster
              (defaultOptions bool) (worldTextured sampleBox (seq 0 18))
              Textures.initialState page sampleFile sampleTexture eq_refl)
    as (Hsel & _ & _ & Huse).
  split; [exact Hsel|exact Huse].
Defined.
